(** * ai-agent-planner: the orchestration core, embedded in Rocq

    The development follows the TypeScript sources file by file:

    - [JsString], [JsValue], [JsArray]: the JavaScript data the code
      manipulates (strings as sequences of UTF-16 code units, dynamically
      typed JSON values, the coercions and array methods the sources
      rely on, with the [TypeError]s they raise on ill-shaped values);
    - [Json]: [JSON.parse], the builtin the parser of [ai-client.ts] calls;
    - [Parser], [AiClient]: [src/lib/ai-client.ts] ([parseJSONResponse],
      [extractFirstJsonBlock], [validateJSON], [callAI]);
    - [QualityChecklist]: [src/lib/quality-checklist.ts];
    - [Agents]: the stage catalogue of [src/lib/agents.ts];
    - [Orchestrator]: [src/lib/orchestrator.ts].

    Asynchronous code is sequential here ([await] at every call), so
    effects are modelled by a state-and-exception monad over a [World]:

    - the generation backend is an oracle giving the outcome of each
      [fetch] in turn, and [Math.random] an oracle of jitter draws;
    - the durable store is reliable: a request fails only when the data
      violate a constraint of the migration ([phase_type] is [NOT NULL])
      or when the row asked for does not exist; ids are fresh;
    - Ajv is known through the validating function it compiles each
      schema to, a parameter of the catalogue;
    - the prompt texts are not built: a call records the data its
      prompt is rendered from; time stamps are left out;
    - [calls] (the invocations of [callAI]) and [sleeps] (the timers)
      are kept in the world so that they can be observed afterwards. *)

From Stdlib Require Import String Ascii.
From Stdlib Require Import List NArith ZArith QArith Qround Bool Arith Lia Btauto.
Import ListNotations.

Set Warnings "-register-all".

(* ================================================================= *)
(** ** JavaScript strings *)

Module JsString.

(** A JavaScript string is a sequence of UTF-16 code units. *)
Definition jsstring := list N.

(** ASCII literals of the sources. *)
Definition str (s : string) : jsstring :=
  List.map N_of_ascii (list_ascii_of_string s).

Arguments str : simpl never.

Definition dquote : N := 34.
Definition squote : N := 39.
Definition newline : N := 10.

Fixpoint eqb (a b : jsstring) : bool :=
  match a, b with
  | [], [] => true
  | x :: a', y :: b' => N.eqb x y && eqb a' b'
  | _, _ => false
  end.

(** [s.startsWith(p)] *)
Fixpoint startsWith (s p : jsstring) : bool :=
  match p, s with
  | [], _ => true
  | x :: p', y :: s' => N.eqb x y && startsWith s' p'
  | _ :: _, [] => false
  end.

(** [s.endsWith(p)] *)
Definition endsWith (s p : jsstring) : bool :=
  startsWith (rev s) (rev p).

(** [s.slice(n)] and [s.slice(0, -n)] *)
Definition slice_from (n : nat) (s : jsstring) : jsstring := skipn n s.
Definition slice_drop_last (n : nat) (s : jsstring) : jsstring :=
  firstn (length s - n) s.
(** [s.slice(a, b)] for [0 <= a], [0 <= b] *)
Definition slice (a b : nat) (s : jsstring) : jsstring :=
  firstn (b - a) (skipn a s).

(** White space and line terminators removed by [String.prototype.trim]. *)
Definition is_js_space (c : N) : bool :=
  ((9 <=? c) && (c <=? 13) || (c =? 32) || (c =? 160) || (c =? 5760)
   || (8192 <=? c) && (c <=? 8202) || (c =? 8232) || (c =? 8233)
   || (c =? 8239) || (c =? 8287) || (c =? 12288) || (c =? 65279))%N.

Fixpoint trimStart (s : jsstring) : jsstring :=
  match s with
  | c :: r => if is_js_space c then trimStart r else s
  | [] => []
  end.

Definition trim (s : jsstring) : jsstring :=
  rev (trimStart (rev (trimStart s))).

(** [s.indexOf(c)] for a one-character [c]; [-1] when absent. *)
Fixpoint indexOf_from (s : jsstring) (c : N) (i : Z) : Z :=
  match s with
  | [] => (-1)%Z
  | x :: r => if N.eqb x c then i else indexOf_from r c (i + 1)%Z
  end.
Definition indexOf (s : jsstring) (c : N) : Z := indexOf_from s c 0%Z.

(** [s.includes(p)] *)
Fixpoint includes (s p : jsstring) : bool :=
  startsWith s p ||
  match s with
  | [] => false
  | _ :: r => includes r p
  end.

(** [s.toLowerCase()]: the ASCII letters are mapped; the Unicode case
    mapping of other code units is not modelled (they are kept). *)
Definition lower_unit (c : N) : N :=
  if ((65 <=? c) && (c <=? 90))%N then (c + 32)%N else c.
Definition toLowerCase (s : jsstring) : jsstring := List.map lower_unit s.

(** [parts.join(sep)] on strings *)
Fixpoint join (sep : jsstring) (parts : list jsstring) : jsstring :=
  match parts with
  | [] => []
  | [p] => p
  | p :: rest => p ++ sep ++ join sep rest
  end.

End JsString.
Import JsString.

(* ================================================================= *)
(** ** JavaScript values *)

Module JsValue.

(** The values the sources handle with type [any]: what [JSON.parse]
    returns, plus [undefined] (absent properties, unset variables).
    A number is the exact rational value of the double. *)
Inductive value : Type :=
| VUndef
| VNull
| VBool (b : bool)
| VNum (q : Q)
| VStr (s : jsstring)
| VArr (elems : list value)
| VObj (props : list (jsstring * value)).

(** What the code throws: the builtin errors, [new Error(message)], and
    the error object a rejected store request returns. *)
Inductive error : Type :=
| TypeError
| SyntaxError
| Err (message : jsstring)
| PostgrestError (code : jsstring).

Inductive res (A : Type) : Type :=
| Ok (a : A)
| Throw (e : error).
Arguments Ok {A} a.
Arguments Throw {A} e.

Definition rbind {A B} (r : res A) (k : A -> res B) : res B :=
  match r with
  | Ok a => k a
  | Throw e => Throw e
  end.

(** Truthiness ([if (v)], [!v], [a || b], [a && b]). *)
Definition truthy (v : value) : bool :=
  match v with
  | VUndef | VNull => false
  | VBool b => b
  | VNum q => negb (Qeq_bool q 0)
  | VStr s => match s with [] => false | _ => true end
  | VArr _ | VObj _ => true
  end.

Definition js_or (a b : value) : value := if truthy a then a else b.
Definition js_and (a b : value) : value := if truthy a then b else a.

(** Own property of an object; assignments made later win. *)
Fixpoint own (props : list (jsstring * value)) (k : jsstring) : option value :=
  match props with
  | [] => None
  | (k', v) :: rest =>
      match own rest k with
      | Some v' => Some v'
      | None => if JsString.eqb k' k then Some v else None
      end
  end.

(** [v.k] for the property names the sources read from generated
    output (none of them is defined on a builtin prototype): an own
    property of an object, [undefined] on any other non-nullish value,
    a [TypeError] on [null] and [undefined]. *)
Definition member (v : value) (k : string) : res value :=
  match v with
  | VUndef | VNull => Throw TypeError
  | VObj props => Ok (match own props (str k) with Some x => x | None => VUndef end)
  | _ => Ok VUndef
  end.

(** [v?.k] *)
Definition opt_member (v : value) (k : string) : value :=
  match v with
  | VObj props => match own props (str k) with Some x => x | None => VUndef end
  | _ => VUndef
  end.

Definition isArray (v : value) : bool :=
  match v with VArr _ => true | _ => false end.

(** [Array.isArray(v) ? v : []] *)
Definition array_or_empty (v : value) : list value :=
  match v with VArr l => l | _ => [] end.

Definition typeof_is_string (v : value) : bool :=
  match v with VStr _ => true | _ => false end.
Definition typeof_is_number (v : value) : bool :=
  match v with VNum _ => true | _ => false end.
Definition typeof_is_object (v : value) : bool :=
  match v with VNull | VArr _ | VObj _ => true | _ => false end.

(** [a === b] and the SameValueZero comparison of [Map] and [Set] keys.
    Objects and arrays are compared by identity; every object the
    sources compare is a distinct result of [JSON.parse], so two of them
    are never the same. *)
Definition strict_eq (a b : value) : bool :=
  match a, b with
  | VUndef, VUndef => true
  | VNull, VNull => true
  | VBool x, VBool y => Bool.eqb x y
  | VNum x, VNum y => Qeq_bool x y
  | VStr x, VStr y => JsString.eqb x y
  | _, _ => false
  end.

(** Decimal digits of a natural number. *)
Fixpoint digits_fuel (fuel : nat) (n : N) (acc : jsstring) : jsstring :=
  match fuel with
  | O => acc
  | S f =>
      let d := (48 + n mod 10)%N in
      if (n <? 10)%N then d :: acc else digits_fuel f (n / 10)%N (d :: acc)
  end.
Definition digits (n : N) : jsstring :=
  digits_fuel (S (N.to_nat (N.log2 n))) n [].

(** Fractional digits of [r / d], [r < d], until the expansion ends. *)
Fixpoint frac_digits (fuel : nat) (r d : N) : jsstring :=
  match fuel with
  | O => []
  | S f =>
      if (r =? 0)%N then []
      else ((48 + (10 * r) / d)%N) :: frac_digits f ((10 * r) mod d)%N d
  end.

(** [String(n)] for a number: decimal notation (the exponent notation
    JavaScript switches to for very large and very small numbers is not
    modelled). *)
Definition number_toString (q : Q) : jsstring :=
  let n := Z.abs_N (Qnum q) in
  let d := Npos (Qden q) in
  let ip := digits (n / d) in
  let fp := frac_digits 30 (n mod d)%N d in
  (if (Qnum q <? 0)%Z then str "-" else []) ++ ip ++
  match fp with [] => [] | _ => str "." ++ fp end.

Definition has_own (props : list (jsstring * value)) (k : string) : bool :=
  match own props (str k) with Some _ => true | None => false end.

(** [String(v)] and template-literal interpolation. An array is joined
    with commas ([null] and [undefined] elements give the empty string);
    a plain object gives ["[object Object]"], unless generated output
    shadows [toString] or [valueOf] with data, which raises. *)
Fixpoint toString (v : value) : res jsstring :=
  match v with
  | VUndef => Ok (str "undefined")
  | VNull => Ok (str "null")
  | VBool true => Ok (str "true")
  | VBool false => Ok (str "false")
  | VNum q => Ok (number_toString q)
  | VStr s => Ok s
  | VArr l =>
      (fix go (l : list value) : res jsstring :=
         match l with
         | [] => Ok []
         | x :: rest =>
             rbind (match x with
                    | VUndef | VNull => Ok []
                    | _ => toString x
                    end) (fun sx =>
             match rest with
             | [] => Ok sx
             | _ => rbind (go rest) (fun sr => Ok (sx ++ str "," ++ sr))
             end)
         end) l
  | VObj props =>
      if has_own props "toString" || has_own props "valueOf"
      then Throw TypeError
      else Ok (str "[object Object]")
  end.

(** [v.toLowerCase()]: defined on strings only; on anything else the
    method is missing and the call raises. *)
Definition call_toLowerCase (v : value) : res jsstring :=
  match v with
  | VStr s => Ok (toLowerCase s)
  | _ => Throw TypeError
  end.

End JsValue.
Import JsValue.

(* ================================================================= *)
(** ** [JSON.parse] *)

Module Json.

(** The builtin [JSON.parse] of the JavaScript runtime, after the JSON
    grammar (ECMA-404): the four white-space characters, the literals,
    numbers, strings with their escapes, arrays and objects; a repeated
    key of an object keeps the later value. [None] stands for the
    [SyntaxError] it raises. A number is read to its exact decimal value. *)

Definition is_ws (c : N) : bool :=
  ((c =? 32) || (c =? 9) || (c =? 10) || (c =? 13))%N.

Fixpoint skip_ws (s : jsstring) : jsstring :=
  match s with
  | c :: r => if is_ws c then skip_ws r else s
  | [] => []
  end.

Definition is_digit (c : N) : bool := ((48 <=? c) && (c <=? 57))%N.

Definition hex_val (c : N) : option N :=
  if is_digit c then Some (c - 48)%N
  else if ((97 <=? c) && (c <=? 102))%N then Some (c - 87)%N
  else if ((65 <=? c) && (c <=? 70))%N then Some (c - 55)%N
  else None.

Definition hex4 (a b c d : N) : option N :=
  match hex_val a, hex_val b, hex_val c, hex_val d with
  | Some x, Some y, Some z, Some w => Some (((x * 16 + y) * 16 + z) * 16 + w)%N
  | _, _, _, _ => None
  end.

(** The characters of a string after its opening quote. *)
Fixpoint parse_string_body (s acc : jsstring) : option (jsstring * jsstring) :=
  match s with
  | [] => None
  | c :: r =>
      if (c =? 34)%N then Some (rev acc, r)
      else if (c =? 92)%N then
        match r with
        | [] => None
        | e :: r' =>
            if (e =? 34)%N then parse_string_body r' (34%N :: acc)
            else if (e =? 92)%N then parse_string_body r' (92%N :: acc)
            else if (e =? 47)%N then parse_string_body r' (47%N :: acc)
            else if (e =? 98)%N then parse_string_body r' (8%N :: acc)
            else if (e =? 102)%N then parse_string_body r' (12%N :: acc)
            else if (e =? 110)%N then parse_string_body r' (10%N :: acc)
            else if (e =? 114)%N then parse_string_body r' (13%N :: acc)
            else if (e =? 116)%N then parse_string_body r' (9%N :: acc)
            else if (e =? 117)%N then
              match r' with
              | h1 :: h2 :: h3 :: h4 :: r'' =>
                  match hex4 h1 h2 h3 h4 with
                  | Some u => parse_string_body r'' (u :: acc)
                  | None => None
                  end
              | _ => None
              end
            else None
        end
      else if (c <? 32)%N then None
      else parse_string_body r (c :: acc)
  end.

(** A run of decimal digits: its value, its length, and what follows. *)
Fixpoint take_digits (s : jsstring) (acc : N) (count : nat) : N * nat * jsstring :=
  match s with
  | c :: r =>
      if is_digit c then take_digits r (acc * 10 + (c - 48))%N (S count)
      else (acc, count, s)
  | [] => (acc, count, [])
  end.

(** [mant * 10 ^ e] *)
Definition decimal (mant : Z) (e : Z) : Q :=
  if (0 <=? e)%Z then inject_Z (mant * 10 ^ e)
  else Qmake mant (Z.to_pos (10 ^ (- e))).

Definition parse_exponent (s : jsstring) : option (Z * jsstring) :=
  match s with
  | c :: r =>
      if ((c =? 101) || (c =? 69))%N then
        let '(neg, r1) :=
          match r with
          | sg :: r' =>
              if (sg =? 45)%N then (true, r')
              else if (sg =? 43)%N then (false, r')
              else (false, r)
          | [] => (false, r)
          end in
        let '(n, k, r2) := take_digits r1 0%N 0 in
        match k with
        | O => None
        | S _ => Some (if neg then (- Z.of_N n)%Z else Z.of_N n, r2)
        end
      else Some (0%Z, s)
  | [] => Some (0%Z, [])
  end.

Definition parse_number (s : jsstring) : option (Q * jsstring) :=
  let '(neg, s1) :=
    match s with
    | c :: r => if (c =? 45)%N then (true, r) else (false, s)
    | [] => (false, s)
    end in
  match s1 with
  | d :: r =>
      if is_digit d then
        let '(ip, s2) :=
          if (d =? 48)%N then (0%N, r)
          else let '(n, _, r') := take_digits s1 0%N 0 in (n, r') in
        let frac :=
          match s2 with
          | c :: r2 =>
              if (c =? 46)%N then
                let '(fp, k, s3) := take_digits r2 0%N 0 in
                match k with
                | O => None
                | S _ => Some (fp, k, s3)
                end
              else Some (0%N, O, s2)
          | [] => Some (0%N, O, s2)
          end in
        match frac with
        | None => None
        | Some (fp, k, s3) =>
            match parse_exponent s3 with
            | None => None
            | Some (e, s4) =>
                let mant := (Z.of_N ip * 10 ^ Z.of_nat k + Z.of_N fp)%Z in
                let mant := if neg then (- mant)%Z else mant in
                Some (decimal mant (e - Z.of_nat k), s4)
            end
        end
      else None
  | [] => None
  end.

Fixpoint parse_value (fuel : nat) (s : jsstring) {struct fuel}
  : option (value * jsstring) :=
  match fuel with
  | O => None
  | S f =>
      match skip_ws s with
      | [] => None
      | c :: r =>
          if (c =? 123)%N then
            match skip_ws r with
            | c' :: r' =>
                if (c' =? 125)%N then Some (VObj [], r') else parse_members f r []
            | [] => None
            end
          else if (c =? 91)%N then
            match skip_ws r with
            | c' :: r' =>
                if (c' =? 93)%N then Some (VArr [], r') else parse_elements f r []
            | [] => None
            end
          else if (c =? 34)%N then
            match parse_string_body r [] with
            | Some (k, r') => Some (VStr k, r')
            | None => None
            end
          else if startsWith (c :: r) (str "true") then Some (VBool true, skipn 3 r)
          else if startsWith (c :: r) (str "false") then Some (VBool false, skipn 4 r)
          else if startsWith (c :: r) (str "null") then Some (VNull, skipn 3 r)
          else
            match parse_number (c :: r) with
            | Some (q, r') => Some (VNum q, r')
            | None => None
            end
      end
  end
with parse_elements (fuel : nat) (s : jsstring) (acc : list value) {struct fuel}
  : option (value * jsstring) :=
  match fuel with
  | O => None
  | S f =>
      match parse_value f s with
      | None => None
      | Some (v, r) =>
          match skip_ws r with
          | c :: r' =>
              if (c =? 44)%N then parse_elements f r' (acc ++ [v])
              else if (c =? 93)%N then Some (VArr (acc ++ [v]), r')
              else None
          | [] => None
          end
      end
  end
with parse_members (fuel : nat) (s : jsstring) (acc : list (jsstring * value))
  {struct fuel} : option (value * jsstring) :=
  match fuel with
  | O => None
  | S f =>
      match skip_ws s with
      | c :: r =>
          if (c =? 34)%N then
            match parse_string_body r [] with
            | None => None
            | Some (k, r1) =>
                match skip_ws r1 with
                | c1 :: r2 =>
                    if (c1 =? 58)%N then
                      match parse_value f r2 with
                      | None => None
                      | Some (v, r3) =>
                          match skip_ws r3 with
                          | c3 :: r4 =>
                              if (c3 =? 44)%N then parse_members f r4 (acc ++ [(k, v)])
                              else if (c3 =? 125)%N then Some (VObj (acc ++ [(k, v)]), r4)
                              else None
                          | [] => None
                          end
                      end
                    else None
                | [] => None
                end
            end
          else None
      | [] => None
      end
  end.

Definition JSON_parse (text : jsstring) : option value :=
  match parse_value (2 * List.length text + 2) text with
  | Some (v, r) => match skip_ws r with [] => Some v | _ :: _ => None end
  | None => None
  end.

End Json.
Import Json.

(* ================================================================= *)
(** ** [src/lib/ai-client.ts]: the parser *)

Module Parser.

(** [normalizeQuotes]: the curly double quotes U+201C..U+201F become the
    straight double quote, the curly single quotes U+2018..U+201B the
    straight single quote. *)
Definition normalize_unit (c : N) : N :=
  if ((8220 <=? c) && (c <=? 8223))%N then dquote
  else if ((8216 <=? c) && (c <=? 8219))%N then squote
  else c.
Definition normalizeQuotes (s : jsstring) : jsstring := List.map normalize_unit s.

Definition findFirstOf (s : jsstring) (chars : list N) : Z :=
  fold_left
    (fun (min : Z) (c : N) =>
       let idx := indexOf s c in
       if (negb (idx =? -1) && ((min =? -1) || (idx <? min)))%Z then idx else min)
    chars (-1)%Z.

(** The scanning loop of [extractFirstJsonBlock]: [rest] is [s] from
    index [i] on. *)
Fixpoint scan (s : jsstring) (startIdx : nat) (openChar closeChar : N)
  (rest : jsstring) (i : nat) (depth : Z) (inString escape : bool)
  : option jsstring :=
  match rest with
  | [] => None
  | ch :: rest' =>
      if inString then
        if escape then scan s startIdx openChar closeChar rest' (S i) depth true false
        else if (ch =? 92)%N then scan s startIdx openChar closeChar rest' (S i) depth true true
        else if (ch =? dquote)%N then scan s startIdx openChar closeChar rest' (S i) depth false escape
        else scan s startIdx openChar closeChar rest' (S i) depth true escape
      else if (ch =? dquote)%N then
        scan s startIdx openChar closeChar rest' (S i) depth true escape
      else
        let depth := if (ch =? openChar)%N then (depth + 1)%Z else depth in
        let depth := if (ch =? closeChar)%N then (depth - 1)%Z else depth in
        if (depth =? 0)%Z then Some (trim (slice startIdx (S i) s))
        else scan s startIdx openChar closeChar rest' (S i) depth false escape
  end.

Definition extractFirstJsonBlock (s : jsstring) : option jsstring :=
  let startIdx := findFirstOf s [123; 91]%N in
  if (startIdx =? -1)%Z then None
  else
    let start := Z.to_nat startIdx in
    let openChar := nth start s 0%N in
    let closeChar := if (openChar =? 123)%N then 125%N else 93%N in
    scan s start openChar closeChar (skipn start s) start 0%Z false false.

(** The text [parseJSONResponse] works on: trimmed, a leading and a
    trailing code fence removed, trimmed again. *)
Definition cleaned_text (response : jsstring) : jsstring :=
  let cleaned := trim response in
  let cleaned :=
    if startsWith cleaned (str "```json") then slice_from 7 cleaned
    else if startsWith cleaned (str "```") then slice_from 3 cleaned
    else cleaned in
  let cleaned :=
    if endsWith cleaned (str "```") then slice_drop_last 3 cleaned else cleaned in
  trim cleaned.

(** [parseJSONResponse]; [None] is the [SyntaxError] of the last
    [JSON.parse] tried. *)
Definition parseJSONResponse (response : jsstring) : option value :=
  let cleaned := cleaned_text response in
  match JSON_parse cleaned with
  | Some v => Some v
  | None =>
      match extractFirstJsonBlock cleaned with
      | Some (c :: e) =>
          let extracted := c :: e in
          match JSON_parse extracted with
          | Some v => Some v
          | None => JSON_parse (normalizeQuotes extracted)
          end
      | Some [] | None => JSON_parse (normalizeQuotes cleaned)
      end
  end.

End Parser.
Import Parser.

(* ================================================================= *)
(** ** [src/lib/supabase.ts]: the rows of the durable store *)

Module Supabase.

Inductive AIProvider := openai | anthropic.

Inductive ProjectStatus := Draft | Planning | Completed.

Inductive PhaseStatus := Pending | Processing | PhaseCompleted | Failed.

Record Project := {
  p_id : nat;
  p_name : jsstring;
  description : jsstring;
  competitor_links : option (list jsstring);
  competitor_reviews : option (list jsstring);
  p_status : ProjectStatus
}.

Record PlanningPhase := {
  id : nat;
  project_id : nat;
  phase_type : jsstring;
  output : value;
  status : PhaseStatus;
  model_used : option AIProvider
}.

Definition ProjectStatus_eqb (a b : ProjectStatus) : bool :=
  match a, b with
  | Draft, Draft | Planning, Planning | Completed, Completed => true
  | _, _ => false
  end.

End Supabase.
Import Supabase.

(* ================================================================= *)
(** ** The world the program runs in *)

Module Runtime.

(** What one [fetch] of the proxy can come to: a success response with
    its body, a non-success status with its text, the abort fired by the
    time-out timer, or a rejection (network failure, unreadable body). *)
Inductive FetchOutcome :=
| Responded (content : jsstring) (model : jsstring)
| HttpError (errorText : jsstring)
| Aborted
| Rejected (e : error).

(** The user message of a generation call. The texts themselves
    ([buildContextualPrompt], [buildRepairPrompt]) are renderings of
    these data. *)
Inductive UserPrompt :=
| ContextualPrompt (priorArtifacts : list (jsstring * value))
                   (decisionLedger : list (value * value * value))
| RepairPrompt (errors : list jsstring).

(** One call of [callAI]: the stage whose system prompt is sent, the
    user prompt, and the sampling options. *)
Record AICall := {
  call_stage : jsstring;
  call_prompt : UserPrompt;
  call_temperature : Q;
  call_maxTokens : N
}.

Record OrchestrationProgress := {
  currentPhase : jsstring;
  completedPhases : list jsstring;
  totalPhases : nat;
  progress_error : option jsstring
}.

Record World := {
  (** [VITE_SUPABASE_URL] and [VITE_SUPABASE_ANON_KEY] are set *)
  env_configured : bool;
  (** the generation backend: the outcome of the n-th [fetch] *)
  backend : nat -> FetchOutcome;
  (** number of [fetch]es made *)
  fetches : nat;
  (** [Math.floor(Math.random() * 250)] at the n-th draw *)
  random : nat -> N;
  (** the delays [sleep] was called with, in milliseconds *)
  sleeps : list N;
  (** the calls of [callAI] *)
  calls : list AICall;
  (** table [projects] *)
  projects : list Project;
  (** table [planning_phases], in insertion order *)
  planning_phases : list PlanningPhase;
  (** what the progress observer received *)
  notifications : list OrchestrationProgress
}.

(** State and exceptions. *)
Definition M (A : Type) : Type := World -> res A * World.

Definition ret {A} (a : A) : M A := fun w => (Ok a, w).
Definition throw {A} (e : error) : M A := fun w => (Throw e, w).
Definition bind {A B} (m : M A) (k : A -> M B) : M B :=
  fun w =>
    match m w with
    | (Ok a, w') => k a w'
    | (Throw e, w') => (Throw e, w')
    end.
(** [try { m } catch (error) { h(error) }] *)
Definition try_catch {A} (m : M A) (h : error -> M A) : M A :=
  fun w =>
    match m w with
    | (Ok a, w') => (Ok a, w')
    | (Throw e, w') => h e w'
    end.
Definition lift {A} (r : res A) : M A := fun w => (r, w).
Definition modify (f : World -> World) : M unit := fun w => (Ok tt, f w).
Definition get : M World := fun w => (Ok w, w).

Definition with_fetches (n : nat) (w : World) : World :=
  {| env_configured := env_configured w; backend := backend w; fetches := n;
     random := random w; sleeps := sleeps w; calls := calls w;
     projects := projects w; planning_phases := planning_phases w;
     notifications := notifications w |}.
Definition with_sleeps (l : list N) (w : World) : World :=
  {| env_configured := env_configured w; backend := backend w; fetches := fetches w;
     random := random w; sleeps := l; calls := calls w;
     projects := projects w; planning_phases := planning_phases w;
     notifications := notifications w |}.
Definition with_calls (l : list AICall) (w : World) : World :=
  {| env_configured := env_configured w; backend := backend w; fetches := fetches w;
     random := random w; sleeps := sleeps w; calls := l;
     projects := projects w; planning_phases := planning_phases w;
     notifications := notifications w |}.
Definition with_projects (l : list Project) (w : World) : World :=
  {| env_configured := env_configured w; backend := backend w; fetches := fetches w;
     random := random w; sleeps := sleeps w; calls := calls w;
     projects := l; planning_phases := planning_phases w;
     notifications := notifications w |}.
Definition with_planning_phases (l : list PlanningPhase) (w : World) : World :=
  {| env_configured := env_configured w; backend := backend w; fetches := fetches w;
     random := random w; sleeps := sleeps w; calls := calls w;
     projects := projects w; planning_phases := l;
     notifications := notifications w |}.
Definition with_notifications (l : list OrchestrationProgress) (w : World) : World :=
  {| env_configured := env_configured w; backend := backend w; fetches := fetches w;
     random := random w; sleeps := sleeps w; calls := calls w;
     projects := projects w; planning_phases := planning_phases w;
     notifications := l |}.

End Runtime.
Import Runtime.

Declare Scope orch_scope.
Delimit Scope orch_scope with orch.
Notation "x <- m ;; k" := (bind m (fun x => k))
  (at level 61, m at next level, right associativity) : orch_scope.
Notation "m ;;; k" := (bind m (fun _ => k))
  (at level 61, right associativity) : orch_scope.
Open Scope orch_scope.

(* ================================================================= *)
(** ** [src/lib/ai-client.ts]: validation and the backend call *)

Module AiClient.

(** An error object of Ajv. *)
Record AjvError := { instancePath : jsstring; message : jsstring }.

(** What a validating function compiled by Ajv leaves after a call: its
    boolean result and its [errors] property. *)
Record AjvOutcome := { ajv_valid : bool; ajv_errors : option (list AjvError) }.

(** [ajv.compile(schema)]: schemas are known through the validating
    functions Ajv compiles them to. *)
Definition Schema := value -> AjvOutcome.

Record Validation := { valid : bool; errors : list jsstring }.

Definition validateJSON (data : value) (schema : Schema) : Validation :=
  let validate := schema in
  let r := validate data in
  match ajv_valid r, ajv_errors r with
  | false, Some errs =>
      {| valid := false;
         errors :=
           List.map (fun err =>
                  (match instancePath err with [] => str "/" | p => p end)
                  ++ str " " ++ message err) errs |}
  | _, _ => {| valid := true; errors := [] |}
  end.

Record AIResponse := { content : jsstring; model : jsstring }.

Record Options := {
  temperature : option Q;
  maxTokens : option N;
  retries : option nat;
  topP : option Q;
  timeoutMs : option N
}.

(** [a ?? b] on an optional option *)
Definition nullish {A} (a : option A) (b : A) : A :=
  match a with Some x => x | None => b end.

Definition fetch : M FetchOutcome :=
  fun w => (Ok (backend w (fetches w)), with_fetches (S (fetches w)) w).

Definition sleep (ms : N) : M unit :=
  modify (fun w => with_sleeps (sleeps w ++ [ms]) w).

(** [Math.floor(Math.random() * 250)]: an integer from 0 to 249. *)
Definition jitter : M N :=
  fun w => (Ok (random w (List.length (sleeps w)) mod 250)%N, w).

(** The error the [catch] block of [callAI] keeps for a failed [fetch]. *)
Definition normalize_failure (timeoutMs : N) (o : FetchOutcome) : error :=
  match o with
  | Aborted =>
      Err (str "Request timeout after " ++ digits ((timeoutMs + 500) / 1000)%N ++ str "s")
  | HttpError errorText => Err (str "AI proxy error: " ++ errorText)
  | Rejected e => e
  | Responded _ _ => Err (str "Unknown error")
  end.

(** The retry loop of [callAI], with [remaining] iterations to go:
    [attempt = maxRetries - remaining]. *)
Fixpoint callAI_loop (timeoutMs : N) (maxRetries remaining : nat)
  (lastError : option error) : M AIResponse :=
  match remaining with
  | O =>
      throw (match lastError with
             | Some e => e
             | None => Err (str "Failed to call AI after retries")
             end)
  | S k =>
      let attempt := (maxRetries - remaining)%nat in
      outcome <- fetch ;;
      match outcome with
      | Responded c m => ret {| content := c; model := m |}
      | failure =>
          let err := normalize_failure timeoutMs failure in
          if (attempt <? maxRetries - 1)%nat then
            j <- jitter ;;
            let backoffMs := (N.of_nat (attempt + 1) * 1000 + j)%N in
            sleep backoffMs ;;;
            callAI_loop timeoutMs maxRetries k (Some err)
          else callAI_loop timeoutMs maxRetries k (Some err)
      end
  end.

Definition callAI (stage : jsstring) (prompt : UserPrompt) (provider : AIProvider)
  (options : Options) : M AIResponse :=
  let temperature := nullish (temperature options) (2 # 10) in
  let maxTokens := nullish (maxTokens options) 4000%N in
  let maxRetries := nullish (retries options) 3%nat in
  let timeoutMs := nullish (timeoutMs options) 60000%N in
  modify (fun w =>
            with_calls (calls w ++ [{| call_stage := stage; call_prompt := prompt;
                                       call_temperature := temperature;
                                       call_maxTokens := maxTokens |}]) w) ;;;
  w <- get ;;
  if negb (env_configured w) then throw (Err (str "Missing Supabase environment variables"))
  else callAI_loop timeoutMs maxRetries maxRetries None.

End AiClient.
Import AiClient.

(* ================================================================= *)
(** ** Array methods with callbacks that may raise *)

Module JsArray.

(** [l.find(cb)] *)
Fixpoint find (cb : value -> res bool) (l : list value) : res value :=
  match l with
  | [] => Ok VUndef
  | x :: r => rbind (cb x) (fun b => if b then Ok x else find cb r)
  end.

(** [l.some(cb)] *)
Fixpoint some (cb : value -> res bool) (l : list value) : res bool :=
  match l with
  | [] => Ok false
  | x :: r => rbind (cb x) (fun b => if b then Ok true else some cb r)
  end.

(** [l.map(cb)] *)
Fixpoint map (cb : value -> res jsstring) (l : list value) : res (list jsstring) :=
  match l with
  | [] => Ok []
  | x :: r => rbind (cb x) (fun y => rbind (map cb r) (fun ys => Ok (y :: ys)))
  end.

(** [keys.has(k)] on a [Set], [Map] *)
Definition has (keys : list value) (k : value) : bool :=
  existsb (strict_eq k) keys.

(** [keys.add(k)] on a [Set] *)
Definition add (keys : list value) (k : value) : list value :=
  if has keys k then keys else keys ++ [k].

End JsArray.

(* ================================================================= *)
(** ** [src/lib/quality-checklist.ts] *)

Module QualityChecklist.

Record ChecklistItem := {
  check : jsstring;
  passed : value;
  details : option jsstring
}.

Record Revision := { phase : jsstring; request : jsstring }.

Inductive Status := pass | fail.

Record ChecklistResult := {
  status : Status;
  items : list ChecklistItem;
  failItems : list jsstring;
  targetedRevisions : list Revision
}.

(** [byType[t]] after [for (const p of phases) byType[p.phase_type] = p.output || {}] *)
Fixpoint byType (phases : list PlanningPhase) (t : jsstring) : value :=
  match phases with
  | [] => VUndef
  | p :: rest =>
      match byType rest t with
      | VUndef =>
          if JsString.eqb (phase_type p) t then js_or (output p) (VObj []) else VUndef
      | v => v
      end
  end.

(** [allDecisions]: the [decisions] arrays of all outputs, in order. *)
Fixpoint allDecisions (phases : list PlanningPhase) : list value :=
  match phases with
  | [] => []
  | p :: rest =>
      let ds := opt_member (output p) "decisions" in
      (if truthy ds && isArray ds then array_or_empty ds else []) ++ allDecisions rest
  end.

(** The loop filling [decisionKeys] and [duplicates]. *)
Fixpoint scanDecisions (ds : list value) (decisionKeys duplicates : list value)
  : list value * list value :=
  match ds with
  | [] => (decisionKeys, duplicates)
  | d :: rest =>
      let k := opt_member d "key" in
      if truthy k then
        scanDecisions rest (JsArray.add decisionKeys k)
          (if JsArray.has decisionKeys k then JsArray.add duplicates k else duplicates)
      else scanDecisions rest decisionKeys duplicates
  end.

Definition bool_text (b : bool) : jsstring := if b then str "true" else str "false".

Definition nonempty_array (v : value) : bool :=
  match v with VArr (_ :: _) => true | _ => false end.

Definition runQualityChecklist (phases : list PlanningPhase) : res ChecklistResult :=
  let ux := js_or (byType phases (str "ux")) (VObj []) in
  let system := js_or (byType phases (str "system")) (VObj []) in
  let data := js_or (byType phases (str "data")) (VObj []) in
  let api := js_or (byType phases (str "api")) (VObj []) in
  let ui := js_or (byType phases (str "ui")) (VObj []) in
  let prompts := js_or (byType phases (str "prompts")) (VObj []) in
  let strategy := js_or (byType phases (str "strategy")) (VObj []) in
  let competitor := js_or (byType phases (str "competitor")) (VObj []) in

  (* 1. Single source of truth for Auth *)
  let uxAuthChoice := js_or (opt_member (opt_member ux "auth") "choice") (VStr []) in
  let systemDecisions := array_or_empty (opt_member system "decisions") in
  rbind (JsArray.find
           (fun d => rbind (member d "key") (fun k =>
              match k with
              | VUndef | VNull => Ok false
              | _ => rbind (call_toLowerCase k) (fun lk => Ok (includes lk (str "auth")))
              end)) systemDecisions) (fun systemAuthDecision =>
  let entities := array_or_empty (opt_member data "entities") in
  rbind (JsArray.find
           (fun e => rbind (member e "name") (fun n =>
              rbind (toString n) (fun s =>
              Ok (JsString.eqb (toLowerCase s) (str "users"))))) entities) (fun usersEntity =>
  let userColumns := array_or_empty (opt_member usersEntity "columns") in
  rbind (JsArray.some
           (fun c => rbind (member c "name") (fun n =>
              Ok (strict_eq n (VStr (str "password_hash"))))) userColumns) (fun hasPwdHash =>
  rbind (JsArray.some
           (fun c => rbind (member c "name") (fun n =>
              Ok (strict_eq n (VStr (str "firebase_uid"))))) userColumns) (fun hasFirebaseUid =>
  rbind (call_toLowerCase uxAuthChoice) (fun lowerChoice =>
  rbind (toString uxAuthChoice) (fun uxAuthText =>
  let authConsistent :=
    (includes lowerChoice (str "firebase") && hasFirebaseUid && negb hasPwdHash)
    || (includes lowerChoice (str "local") && hasPwdHash && negb hasFirebaseUid)
    || (negb (includes lowerChoice (str "firebase")) && negb (includes lowerChoice (str "local"))) in
  let item1 :=
    {| check := str "Single source of truth for Auth selected and reflected across UX, API, Data";
       passed := VBool authConsistent;
       details :=
         if authConsistent then None
         else Some (str "UX auth: " ++ uxAuthText ++ str ", Data has password_hash: "
                    ++ bool_text hasPwdHash ++ str ", firebase_uid: "
                    ++ bool_text hasFirebaseUid) |} in
  let fail1 := if authConsistent then [] else [str "Auth mismatch across phases"] in
  let rev1 :=
    if authConsistent then []
    else [ {| phase := str "system";
              request := str "Ensure auth choice in decisions matches UX auth.choice: "
                         ++ uxAuthText |};
           {| phase := str "data";
              request := str "Update users table: if Firebase auth, include firebase_uid and remove password_hash; if local auth, include password_hash and remove firebase_uid" |} ] in

  (* 2. Design tokens include motion+loading states *)
  let motion := opt_member ui "motion" in
  let hasMotion := js_and motion (VBool (typeof_is_object (opt_member motion "durations"))) in
  let hasSkeletons := nonempty_array (opt_member ui "skeletons") in
  let passed2 := js_and hasMotion (VBool hasSkeletons) in
  rbind (toString hasMotion) (fun motionText =>
  let item2 :=
    {| check := str "Design tokens include motion+loading states";
       passed := passed2;
       details :=
         if truthy passed2 then None
         else Some (str "Motion: " ++ motionText ++ str ", Skeletons: "
                    ++ bool_text hasSkeletons) |} in
  let failed2 := negb (truthy hasMotion) || negb hasSkeletons in
  let fail2 := if failed2 then [str "Missing motion or skeleton patterns in design system"] else [] in
  let rev2 :=
    if failed2 then
      [ {| phase := str "ui";
           request := str "Add motion durations (fast/base/slow) and skeleton loading patterns" |} ]
    else [] in

  (* 3. Pagination and error model specified in API *)
  let openApiYaml := opt_member api "openApiYaml" in
  let yaml := match openApiYaml with VStr s => s | _ => [] end in
  let hasOpenApi := typeof_is_string openApiYaml && negb (JsString.eqb yaml []) in
  let hasPagination := hasOpenApi && includes yaml (str "cursor") in
  let hasErrorModel := hasOpenApi && (includes yaml (str "error") || includes yaml (str "4")) in
  let item3 :=
    {| check := str "Pagination and error model specified in OpenAPI";
       passed := VBool (hasPagination && hasErrorModel);
       details :=
         if hasPagination && hasErrorModel then None
         else Some (str "Pagination: " ++ bool_text hasPagination ++ str ", Error model: "
                    ++ bool_text hasErrorModel) |} in
  let failed3 := negb hasPagination || negb hasErrorModel in
  let fail3 := if failed3 then [str "Missing pagination or error model in API spec"] else [] in
  let rev3 :=
    if failed3 then
      [ {| phase := str "api";
           request := str "Ensure OpenAPI spec includes cursor-based pagination for list endpoints and proper error responses" |} ]
    else [] in

  (* 4. Non-functional (perf/reliability/privacy) noted *)
  let nonFunctional := opt_member system "nonFunctional" in
  let hasNonFunctional :=
    js_and nonFunctional
      (VBool (isArray (opt_member nonFunctional "performance")
              && isArray (opt_member nonFunctional "reliability")
              && isArray (opt_member nonFunctional "privacy"))) in
  let item4 :=
    {| check := str "Non-functional (perf/reliability/privacy) noted";
       passed := js_or hasNonFunctional (VBool false);
       details :=
         if truthy hasNonFunctional then None
         else Some (str "Missing nonFunctional requirements in system architecture") |} in
  let failed4 := negb (truthy hasNonFunctional) in
  let fail4 := if failed4 then [str "Missing non-functional requirements"] else [] in
  let rev4 :=
    if failed4 then
      [ {| phase := str "system";
           request := str "Add nonFunctional requirements covering performance, reliability, and privacy" |} ]
    else [] in

  (* 5. Providers & Policies list quotas/caching/attribution *)
  let providersPolicies := opt_member system "providersPolicies" in
  let hasProvidersPolicies :=
    js_and providersPolicies
      (VBool (isArray (opt_member providersPolicies "providers")
              && typeof_is_string (opt_member providersPolicies "quotas")
              && typeof_is_string (opt_member providersPolicies "caching"))) in
  let item5 :=
    {| check := str "Providers & Policies list quotas/caching/attribution";
       passed := js_or hasProvidersPolicies (VBool false);
       details :=
         if truthy hasProvidersPolicies then None
         else Some (str "Missing providersPolicies in system architecture") |} in
  let failed5 := negb (truthy hasProvidersPolicies) in
  let fail5 := if failed5 then [str "Missing provider policies"] else [] in
  let rev5 :=
    if failed5 then
      [ {| phase := str "system";
           request := str "Add providersPolicies with quotas, caching, attribution, and data retention" |} ]
    else [] in

  (* 6. Decision Ledger consistent across all phases *)
  let duplicates := snd (scanDecisions (allDecisions phases) [] []) in
  let noDuplicates := match duplicates with [] => true | _ => false end in
  rbind (JsArray.map toString duplicates) (fun duplicateTexts =>
  let item6 :=
    {| check := str "Decision Ledger consistent across all phases";
       passed := VBool noDuplicates;
       details :=
         if noDuplicates then None
         else Some (str "Duplicate decision keys: " ++ join (str ", ") duplicateTexts) |} in

  (* 7. Prompts include Scaffolding and Smoke Test *)
  let bolt := array_or_empty (opt_member prompts "bolt") in
  let cursor := array_or_empty (opt_member prompts "cursor") in
  rbind (JsArray.map
           (fun p => rbind (toString (js_or (opt_member p "title") (VStr []))) (fun t =>
                     Ok (toLowerCase t))) (bolt ++ cursor)) (fun allPromptTitles =>
  let hasScaffolding := existsb (fun t => includes t (str "scaffold")) allPromptTitles in
  let hasSmokeTest :=
    existsb (fun t => includes t (str "smoke") || includes t (str "release")) allPromptTitles in
  let item7 :=
    {| check := str "Prompts include Scaffolding and Smoke Test + Release Checklist";
       passed := VBool (hasScaffolding && hasSmokeTest);
       details :=
         if hasScaffolding && hasSmokeTest then None
         else Some (str "Scaffolding: " ++ bool_text hasScaffolding ++ str ", Smoke test: "
                    ++ bool_text hasSmokeTest) |} in
  let failed7 := negb hasScaffolding || negb hasSmokeTest in
  let fail7 := if failed7 then [str "Missing required prompts"] else [] in
  let rev7 :=
    if failed7 then
      [ {| phase := str "prompts";
           request := str "Add " ++ [dquote] ++ str "Project Scaffolding" ++ [dquote]
                      ++ str " as first task and " ++ [dquote]
                      ++ str "Smoke Test + Release Checklist" ++ [dquote]
                      ++ str " as final task" |} ]
    else [] in

  (* 8. If competitor data present: opportunities reflected in features *)
  let hasCompetitorData :=
    truthy competitor
    && (nonempty_array (opt_member competitor "opportunities")
        || nonempty_array (opt_member competitor "topInsights")) in
  let featuresMustHave := array_or_empty (opt_member (opt_member strategy "features") "must") in
  let opportunitiesReflected :=
    negb hasCompetitorData || match featuresMustHave with [] => false | _ => true end in
  let item8 :=
    {| check := str "If competitor data present: opportunities reflected in features";
       passed := VBool opportunitiesReflected;
       details :=
         if opportunitiesReflected then None
         else Some (str "Competitor opportunities not reflected in strategy features") |} in
  let failed8 := hasCompetitorData && negb opportunitiesReflected in
  let fail8 := if failed8 then [str "Competitor insights not incorporated into strategy"] else [] in
  let rev8 :=
    if failed8 then
      [ {| phase := str "strategy";
           request := str "Incorporate competitor opportunities from competitor phase into Must/Should/Could features" |} ]
    else [] in

  let failItems := fail1 ++ fail2 ++ fail3 ++ fail4 ++ fail5 ++ fail7 ++ fail8 in
  Ok {| status := match failItems with [] => pass | _ => fail end;
        items := [item1; item2; item3; item4; item5; item6; item7; item8];
        failItems := failItems;
        targetedRevisions := rev1 ++ rev2 ++ rev3 ++ rev4 ++ rev5 ++ rev7 ++ rev8 |}
  ))))))))).

End QualityChecklist.

(* ================================================================= *)
(** ** [src/lib/agents.ts]: the stage catalogue *)

Module Agents.

(** A stage descriptor. Of the configuration data of a stage the
    orchestration uses its type, its display name and its schema; the
    prompt texts are left out. *)
Record AgentPhase := { type : jsstring; name : jsstring; schema : Schema }.

Section Catalogue.

(** The validating function Ajv compiles the schema of each stage to. *)
Variable schema_of : jsstring -> Schema.

Definition AGENT_PHASES : list AgentPhase :=
  List.map (fun tn : string * string =>
         {| type := str (fst tn); name := str (snd tn); schema := schema_of (str (fst tn)) |})
    [ ("competitor", "Research Analyst");
      ("strategy", "Strategy Architect");
      ("ux", "UX Architect");
      ("system", "System Architect");
      ("data", "Data Modeler");
      ("api", "API Designer");
      ("ui", "UI Design System");
      ("prompts", "Prompt Engineer");
      ("qa", "QA Manager");
      ("techwriter", "Technical Writer");
      ("critic", "Critic/QA");
      ("composer", "Composer") ]%string.

End Catalogue.

End Agents.
Import Agents.

(* ================================================================= *)
(** ** [src/lib/orchestrator.ts] *)

Module Orchestrator.

(** [a < b] on numbers *)
Definition Qlt_bool (a b : Q) : bool := negb (Qle_bool b a).

(** What [byType[type]] evaluates to, [byType] being the object literal
    [{}] filled with the stages by type: a stage, nothing, or a member
    every object inherits from [Object.prototype] (of those, the names
    consisting of lower-case characters are [constructor] and
    [__proto__]). *)
Inductive Lookup :=
| Stage (phase : AgentPhase)
| Inherited
| Missing.

Fixpoint lookup_stage (phases : list AgentPhase) (t : jsstring) : option AgentPhase :=
  match phases with
  | [] => None
  | ap :: rest =>
      match lookup_stage rest t with
      | Some x => Some x
      | None => if JsString.eqb (type ap) t then Some ap else None
      end
  end.

Definition inherited_name (t : jsstring) : bool :=
  JsString.eqb t (str "constructor") || JsString.eqb t (str "__proto__").

(** The text of a caught value: [error instanceof Error ? error.message
    : 'Unknown error'], and its interpolation in a template literal (the
    messages of the builtin errors are those of the engine; their class
    name stands for them). *)
Definition error_message (e : error) : jsstring :=
  match e with
  | Err m => m
  | TypeError => str "TypeError"
  | SyntaxError => str "SyntaxError"
  | PostgrestError _ => str "Unknown error"
  end.

(** [artifacts[phase.phase_type] = phase.output] *)
Fixpoint set_property (props : list (jsstring * value)) (k : jsstring) (v : value)
  : list (jsstring * value) :=
  match props with
  | [] => [(k, v)]
  | (k', v') :: rest =>
      if JsString.eqb k' k then (k', v) :: rest else (k', v') :: set_property rest k v
  end.

Definition buildPriorArtifacts (previousPhases : list PlanningPhase)
  : list (jsstring * value) :=
  fold_left (fun artifacts phase => set_property artifacts (phase_type phase) (output phase))
    previousPhases [].

(** An entry of the decision ledger: [{ key, value, reason }]. *)
Definition Decision : Type := value * value * value.
Definition key (d : Decision) : value := fst (fst d).
Definition dvalue (d : Decision) : value := snd (fst d).
Definition reason (d : Decision) : value := snd d.

(** [map.set(k, entry)] on a [Map]: an existing key keeps its place and
    takes the new entry, a new key is added at the end. *)
Fixpoint map_set (m : list Decision) (entry : Decision) : list Decision :=
  match m with
  | [] => [entry]
  | e :: rest =>
      if strict_eq (key e) (key entry) then entry :: rest else e :: map_set rest entry
  end.

(** The [decisions] of all results, concatenated. *)
Fixpoint gatherDecisions (previousPhases : list PlanningPhase) : list value :=
  match previousPhases with
  | [] => []
  | phase :: rest =>
      let ds := opt_member (output phase) "decisions" in
      (if truthy ds && isArray ds then array_or_empty ds else []) ++ gatherDecisions rest
  end.

Definition dedupe (ledger : list value) : list Decision :=
  fold_left
    (fun m d =>
       if truthy (opt_member d "key")
       then map_set m (opt_member d "key", opt_member d "value", opt_member d "reason")
       else m)
    ledger [].

Definition extractDecisionLedger (previousPhases : list PlanningPhase) : list Decision :=
  let ledger := gatherDecisions previousPhases in
  (* De-dupe by key, keep last (most recent) *)
  dedupe ledger.

(** [crossPhaseChecks]: the warnings it logs, or the exception an
    ill-shaped output makes it raise. *)
Definition crossPhaseChecks (currentType : jsstring) (output : value)
  (previous : list PlanningPhase) : res (list jsstring) :=
  let byType := QualityChecklist.byType previous in
  if JsString.eqb currentType (str "data") || JsString.eqb currentType (str "api")
     || JsString.eqb currentType (str "composer")
  then
    let uxChoice := opt_member (opt_member (byType (str "ux")) "auth") "choice" in
    rbind
      (if truthy uxChoice then Ok uxChoice
       else
         match opt_member (byType (str "system")) "decisions" with
         | VUndef | VNull => Ok VUndef
         | VArr ds =>
             rbind (JsArray.find
                      (fun d => rbind (member d "key") (fun k =>
                                Ok (strict_eq k (VStr (str "auth.choice"))))) ds)
                   (fun d => Ok (opt_member d "value"))
         | _ => Throw TypeError
         end) (fun uxAuth =>
    if truthy uxAuth then
      let entities :=
        js_or (js_or (opt_member output "entities")
                     (opt_member (byType (str "data")) "entities")) (VArr []) in
      rbind
        (match entities with
         | VArr es =>
             JsArray.find
               (fun e => rbind (member e "name") (fun n =>
                         rbind (toString (js_or n (VStr []))) (fun s =>
                         Ok (JsString.eqb (toLowerCase s) (str "users"))))) es
         | _ => Ok VNull
         end) (fun users =>
      if truthy users && isArray (opt_member users "columns") then
        let columns := array_or_empty (opt_member users "columns") in
        rbind (JsArray.some
                 (fun c => rbind (member c "name") (fun n =>
                           Ok (strict_eq n (VStr (str "password_hash"))))) columns)
              (fun hasPwd =>
        rbind (JsArray.some
                 (fun c => rbind (member c "name") (fun n =>
                           Ok (strict_eq n (VStr (str "firebase_uid"))))) columns)
              (fun hasFirebase =>
        rbind (toString uxAuth) (fun authText =>
        Ok ((if includes (toLowerCase authText) (str "firebase") && hasPwd
             then [str "Auth mismatch: Firebase chosen but password_hash present in Data model."]
             else [])
            ++
            (if includes (toLowerCase authText) (str "local") && hasFirebase
             then [str "Auth mismatch: Local auth chosen but firebase_uid present in Data model."]
             else [])))))
      else Ok [])
    else Ok [])
  else Ok [].

(** [findIndex] by type, then replacement in place or [push]. *)
Fixpoint replace_or_push (t : jsstring) (rerun : PlanningPhase)
  (completedPhases : list PlanningPhase) : list PlanningPhase :=
  match completedPhases with
  | [] => [rerun]
  | p :: rest =>
      if JsString.eqb (phase_type p) t then rerun :: rest
      else p :: replace_or_push t rerun rest
  end.

Section Run.

Variable schema_of : jsstring -> Schema.
Variable projectId : nat.
Variable provider : AIProvider.
(** [generatePrompts] writes the rows of table [prompts] from the final
    result of the prompts stage; its effect on the world is a parameter. *)
Variable generatePrompts : list PlanningPhase -> M unit.

Definition byType (t : jsstring) : Lookup :=
  match lookup_stage (AGENT_PHASES schema_of) t with
  | Some ap => Stage ap
  | None => if inherited_name t then Inherited else Missing
  end.

Definition notifyProgress (progress : OrchestrationProgress) : M unit :=
  modify (fun w => with_notifications (notifications w ++ [progress]) w).

(** [supabase.from('projects').update({ status }).eq('id', projectId)] *)
Definition update_project_status (s : ProjectStatus) : M unit :=
  modify (fun w =>
    with_projects
      (List.map (fun p =>
              if Nat.eqb (p_id p) projectId
              then {| p_id := p_id p; p_name := p_name p; description := description p;
                      competitor_links := competitor_links p;
                      competitor_reviews := competitor_reviews p; p_status := s |}
              else p) (projects w)) w).

(** [supabase.from('planning_phases').insert({...}).select().single()]:
    the new row, with a fresh id. Column [phase_type] is [NOT NULL]: a
    row without it is rejected. *)
Definition insert_phase (phase_type : option jsstring) : M PlanningPhase :=
  match phase_type with
  | None => throw (PostgrestError (str "23502"))
  | Some t =>
      w <- get ;;
      let row := {| id := List.length (planning_phases w); project_id := projectId;
                    phase_type := t; output := VNull; status := Processing;
                    model_used := None |} in
      modify (with_planning_phases (planning_phases w ++ [row])) ;;;
      ret row
  end.

(** [supabase.from('planning_phases').update(...).eq('id', rowId)] *)
Definition update_phase (rowId : nat) (f : PlanningPhase -> PlanningPhase) : M unit :=
  modify (fun w =>
    with_planning_phases
      (List.map (fun r => if Nat.eqb (id r) rowId then f r else r) (planning_phases w)) w).

(** [.select().single()] after an update by id *)
Definition select_phase (rowId : nat) : M PlanningPhase :=
  w <- get ;;
  match List.find (fun r => Nat.eqb (id r) rowId) (planning_phases w) with
  | Some r => ret r
  | None => throw (PostgrestError (str "PGRST116"))
  end.

Definition maxRetries : nat := 3.

Definition generation_options : Options :=
  {| temperature := Some (2 # 10); maxTokens := Some 4000%N; retries := None;
     topP := None; timeoutMs := None |}.
Definition repair_options : Options :=
  {| temperature := Some (1 # 10); maxTokens := Some 4000%N; retries := None;
     topP := None; timeoutMs := None |}.

(** What follows a successful generation call in one iteration of the
    loop of [runPhase]: [inl] is [break] with the output, [inr] is going
    on to the next iteration with the current value of [output]. *)
Definition after_generation (phase : AgentPhase) (previousPhases : list PlanningPhase)
  (attempt : nat) (output : value) (response : AIResponse) : M (value + value) :=
  match parseJSONResponse (content response) with
  | None =>
      if (attempt <? maxRetries - 1)%nat then ret (inr output)
      else throw (Err (str "Failed to parse JSON after " ++ digits (N.of_nat maxRetries)
                       ++ str " attempts: " ++ error_message SyntaxError))
  | Some output =>
      let validation := validateJSON output (schema phase) in
      if valid validation then
        (* light cross-phase checks once API/UI/Data are present *)
        lift (crossPhaseChecks (type phase) output previousPhases) ;;;
        ret (inl output)
      else if (attempt <? maxRetries - 1)%nat then
        let repairPrompt := RepairPrompt (errors validation) in
        repairResponse <- callAI (type phase) repairPrompt provider repair_options ;;
        match parseJSONResponse (content repairResponse) with
        | None => ret (inr output)
        | Some output =>
            let revalidation := validateJSON output (schema phase) in
            if valid revalidation then ret (inl output) else ret (inr output)
        end
      else
        throw (Err (str "JSON validation failed after " ++ digits (N.of_nat maxRetries)
                    ++ str " attempts: " ++ join (str ", ") (errors validation)))
  end.

(** The loop [for (let attempt = 0; attempt < maxRetries; attempt++)]
    of [runPhase], with [remaining] iterations to go. *)
Fixpoint generation_loop (phase : AgentPhase) (prompt : UserPrompt)
  (previousPhases : list PlanningPhase) (remaining : nat) (output : value) : M value :=
  match remaining with
  | O => ret output
  | S k =>
      let attempt := (maxRetries - remaining)%nat in
      response <- callAI (type phase) prompt provider generation_options ;;
      step <- after_generation phase previousPhases attempt output response ;;
      match step with
      | inl output => ret output
      | inr output => generation_loop phase prompt previousPhases k output
      end
  end.

(** [runPhase] *)
Definition runPhase (phase : AgentPhase) (project : Project)
  (previousPhases : list PlanningPhase) : M PlanningPhase :=
  phaseRecord <- insert_phase (Some (type phase)) ;;
  try_catch
    (let prompt :=
       ContextualPrompt (buildPriorArtifacts previousPhases)
                        (extractDecisionLedger previousPhases) in
     output <- generation_loop phase prompt previousPhases maxRetries VUndef ;;
     update_phase (id phaseRecord)
       (fun r => {| id := id r; project_id := project_id r; phase_type := phase_type r;
                    output := output; status := PhaseCompleted;
                    model_used := Some provider |}) ;;;
     select_phase (id phaseRecord))
    (fun error =>
       update_phase (id phaseRecord)
         (fun r => {| id := id r; project_id := project_id r; phase_type := phase_type r;
                      output := Supabase.output r; status := Failed;
                      model_used := model_used r |}) ;;;
       throw error).

(** The statements after [const phase = byType[type]] in the two
    revision loops and after the lookups of the critic and the composer:
    nothing when [phase] is falsy; otherwise [runPhase] and the
    replacement of the in-memory result. An inherited member is truthy
    and is no stage: [runPhase] reads an undefined [type] from it, and
    the insert it starts with is rejected. *)
Definition rerun (found : Lookup) (project : Project)
  (completedPhases : list PlanningPhase) : M (list PlanningPhase) :=
  match found with
  | Missing => ret completedPhases
  | Inherited =>
      _ <- insert_phase None ;;
      ret completedPhases
  | Stage phase =>
      rerun <- runPhase phase project completedPhases ;;
      ret (replace_or_push (type phase) rerun completedPhases)
  end.

(** The loop of [applyQualityChecklist] over [checklist.targetedRevisions] *)
Fixpoint applyRevisions (project : Project) (revs : list QualityChecklist.Revision)
  (completedPhases : list PlanningPhase) : M (list PlanningPhase) :=
  match revs with
  | [] => ret completedPhases
  | rev :: rest =>
      let type := toLowerCase (QualityChecklist.phase rev) in
      completedPhases <- rerun (byType type) project completedPhases ;;
      applyRevisions project rest completedPhases
  end.

Definition applyQualityChecklist (project : Project)
  (completedPhases : list PlanningPhase) : M (list PlanningPhase) :=
  checklist <- lift (QualityChecklist.runQualityChecklist completedPhases) ;;
  match QualityChecklist.status checklist with
  | QualityChecklist.pass => ret completedPhases
  | QualityChecklist.fail =>
      applyRevisions project (QualityChecklist.targetedRevisions checklist) completedPhases
  end.

(** [String(r.targetPhase || '').toLowerCase()] *)
Definition targetType (r : value) : res jsstring :=
  rbind (member r "targetPhase") (fun t =>
  rbind (toString (js_or t (VStr []))) (fun s => Ok (toLowerCase s))).

(** The loop of [applyCriticRevisions] over [revs] *)
Fixpoint targetedReruns (project : Project) (revs : list value)
  (completedPhases : list PlanningPhase) : M (list PlanningPhase) :=
  match revs with
  | [] => ret completedPhases
  | r :: rest =>
      type <- lift (targetType r) ;;
      completedPhases <- rerun (byType type) project completedPhases ;;
      targetedReruns project rest completedPhases
  end.

Definition revisionRequests (criticOutput : value) : list value :=
  array_or_empty (opt_member criticOutput "revisionRequests").

Definition severityIndex (criticOutput : value) : Q :=
  match opt_member criticOutput "severityIndex" with
  | VNum q => q
  | _ => 0
  end.

Definition applyCriticRevisions (project : Project)
  (completedPhases : list PlanningPhase) : M (list PlanningPhase) :=
  match List.find (fun p => JsString.eqb (phase_type p) (str "critic")) completedPhases with
  | None => ret completedPhases
  | Some critic =>
      if negb (truthy (output critic)) then ret completedPhases
      else
        let revs := revisionRequests (output critic) in
        let severity := severityIndex (output critic) in
        if Nat.eqb (List.length revs) 0 && Qlt_bool severity (5 # 10) then ret completedPhases
        else
          (* Re-run only requested phases (once) *)
          completedPhases <- targetedReruns project revs completedPhases ;;
          (* Re-run Critic *)
          completedPhases <- rerun (byType (str "critic")) project completedPhases ;;
          (* Re-run Composer so Build Plan/Prompts get the fixes *)
          rerun (byType (str "composer")) project completedPhases
  end.

(** The first pass of [runAllPhases] over the stages still to run. *)
Fixpoint firstPass (project : Project) (phases : list AgentPhase)
  (completedPhases : list PlanningPhase) : M (list PlanningPhase) :=
  match phases with
  | [] => ret completedPhases
  | phase :: rest =>
      notifyProgress
        {| currentPhase := name phase;
           completedPhases := List.map phase_type completedPhases;
           totalPhases := List.length (AGENT_PHASES schema_of);
           progress_error := None |} ;;;
      result <-
        try_catch (runPhase phase project completedPhases)
          (fun error =>
             notifyProgress
               {| currentPhase := name phase;
                  completedPhases := List.map phase_type completedPhases;
                  totalPhases := List.length (AGENT_PHASES schema_of);
                  progress_error := Some (error_message error) |} ;;;
             update_project_status Draft ;;;
             throw error) ;;
      firstPass project rest (completedPhases ++ [result])
  end.

Definition runAllPhases : M unit :=
  w <- get ;;
  match List.find (fun p => Nat.eqb (p_id p) projectId) (projects w) with
  | None => throw (Err (str "Project not found"))
  | Some project =>
      update_project_status Planning ;;;
      (* First pass: run every phase once *)
      completedPhases <- firstPass project (AGENT_PHASES schema_of) [] ;;
      (* Run quality checklist and apply automatic fixes *)
      completedPhases <- applyQualityChecklist project completedPhases ;;
      (* Critic, targeted re-runs, Critic, Composer *)
      completedPhases <- applyCriticRevisions project completedPhases ;;
      (* Persist prompts for Bolt/Cursor from the final Prompts phase *)
      generatePrompts completedPhases ;;;
      update_project_status Completed ;;;
      notifyProgress
        {| currentPhase := str "Completed";
           completedPhases := List.map type (AGENT_PHASES schema_of);
           totalPhases := List.length (AGENT_PHASES schema_of);
           progress_error := None |}
  end.

End Run.

End Orchestrator.

Module ParserSpec.


(** The two inputs of the specification: prose and a fenced block around
    the object, and the object wrapped in curly quotes. *)
Definition object_text : jsstring :=
  str "{" ++ [dquote] ++ str "a" ++ [dquote] ++ str ":1}".
Definition fenced_input : jsstring :=
  str "Sure! ```json" ++ [newline] ++ object_text ++ [newline] ++ str "```".
Definition curly_wrapped_input : jsstring :=
  [8220%N] ++ object_text ++ [8221%N].
(** The same object written with curly quotes around its key. *)
Definition curly_key_input : jsstring :=
  str "{" ++ [8220%N] ++ str "a" ++ [8221%N] ++ str ":1}".

Definition object_a1 : value := VObj [(str "a", VNum 1)].

End ParserSpec.

(* ================================================================= *)
(** ** Building values and rows for concrete runs *)

Module Build.

Definition obj (l : list (string * value)) : value :=
  VObj (List.map (fun kv => (str (fst kv), snd kv)) l).
Definition text (s : string) : value := VStr (str s).
Definition decision (k v r : string) : value :=
  obj [("key", text k); ("value", text v); ("reason", text r)]%string.
Definition completed_row (rowId : nat) (t : string) (out : value) : PlanningPhase :=
  {| id := rowId; project_id := 0; phase_type := str t; output := out;
     status := PhaseCompleted; model_used := Some openai |}.

End Build.

(** Worlds for concrete runs. *)
Module Worlds.

Definition draft_project : Project :=
  {| p_id := 0; p_name := str "demo"; description := str "a demo project";
     competitor_links := None; competitor_reviews := None; p_status := Draft |}.

Definition with_status (s : ProjectStatus) (p : Project) : Project :=
  {| p_id := p_id p; p_name := p_name p; description := description p;
     competitor_links := competitor_links p; competitor_reviews := competitor_reviews p;
     p_status := s |}.

(** A world with one project, an empty table of results, and the given
    backend. *)
Definition initial (project : Project) (b : nat -> FetchOutcome) (r : nat -> N) : World :=
  {| env_configured := true; backend := b; fetches := 0; random := r; sleeps := [];
     calls := []; projects := [project]; planning_phases := []; notifications := [] |}.

(** The backend answers the n-th fetch with the n-th text of the list,
    and fails at the transport level once the list is exhausted. *)
Definition scripted (answers : list jsstring) : nat -> FetchOutcome :=
  fun n =>
    match nth_error answers n with
    | Some c => Responded c (str "gpt-4o-mini")
    | None => Rejected (Err (str "network down"))
    end.

(** Ajv with schemas that accept every value, and with schemas that
    require an object. *)
Definition accept_all : jsstring -> Schema :=
  fun _ _ => {| ajv_valid := true; ajv_errors := None |}.
Definition objects_only : jsstring -> Schema :=
  fun _ v =>
    match v with
    | VObj _ => {| ajv_valid := true; ajv_errors := None |}
    | _ => {| ajv_valid := false;
              ajv_errors := Some [ {| instancePath := []; message := str "must be object" |} ] |}
    end.

Definition no_prompts : list PlanningPhase -> M unit := fun _ => ret tt.

End Worlds.

(* ================================================================= *)
(** ** What a run leaves to observe *)

Module Observations.
Import Orchestrator.

(** The calls [runPhase] makes: the generation call of a stage, and the
    repair call that carries validation errors. *)
Definition generation_call (phase : AgentPhase) (previousPhases : list PlanningPhase)
  : AICall :=
  {| call_stage := type phase;
     call_prompt := ContextualPrompt (buildPriorArtifacts previousPhases)
                                     (extractDecisionLedger previousPhases);
     call_temperature := 2 # 10; call_maxTokens := 4000 |}.

Definition repair_call (phase : AgentPhase) (errs : list jsstring) : AICall :=
  {| call_stage := type phase; call_prompt := RepairPrompt errs;
     call_temperature := 1 # 10; call_maxTokens := 4000 |}.

(** The repair calls due after a generation response at a given
    attempt: one when the response parses, fails validation and an
    attempt remains; none otherwise. *)
Definition repair_calls (phase : AgentPhase) (attempt : nat) (response : AIResponse)
  : list AICall :=
  match parseJSONResponse (content response) with
  | Some v =>
      if negb (valid (validateJSON v (schema phase))) && (attempt <? maxRetries - 1)%nat
      then [repair_call phase (errors (validateJSON v (schema phase)))]
      else []
  | None => []
  end.

(** The calls a stage run can make with [n] attempts left: each attempt
    is a generation call, followed by a repair call only when another
    attempt remains after it. *)
Inductive attempts_trace (phase : AgentPhase) (previousPhases : list PlanningPhase)
  : nat -> list AICall -> Prop :=
| trace_end n : attempts_trace phase previousPhases n []
| trace_generation n l :
    attempts_trace phase previousPhases n l ->
    attempts_trace phase previousPhases (S n) (generation_call phase previousPhases :: l)
| trace_repair n errs l :
    attempts_trace phase previousPhases (S n) l ->
    attempts_trace phase previousPhases (S (S n))
      (generation_call phase previousPhases :: repair_call phase errs :: l).

(** The stage types of the rows of the table, in insertion order: one
    row is inserted per invocation of a stage. *)
Definition invoked (w : World) : list jsstring :=
  List.map phase_type (planning_phases w).

(** The status of a project in the store. *)
Definition project_status (projectId : nat) (w : World) : option ProjectStatus :=
  option_map p_status (List.find (fun p => Nat.eqb (p_id p) projectId) (projects w)).

(** Row ids are fresh: the id given to the next row is not in use. *)
Definition ids_fresh (w : World) : Prop :=
  Forall (fun r => (id r < List.length (planning_phases w))%nat) (planning_phases w).

(** Frame: the projects, the table of results, the notifications and
    the environment are the same in both worlds. *)
Definition same_store (w w' : World) : Prop :=
  projects w' = projects w /\ planning_phases w' = planning_phases w
  /\ notifications w' = notifications w /\ backend w' = backend w
  /\ random w' = random w /\ env_configured w' = env_configured w.

(** The in-memory collection holds at most one result per stage type. *)
Definition one_per_type (completedPhases : list PlanningPhase) : Prop :=
  NoDup (List.map phase_type completedPhases).

(** The stage a lookup in [byType] leads to run, if any. *)
Definition stage_of (found : Lookup) : list jsstring :=
  match found with
  | Stage phase => [type phase]
  | Inherited | Missing => []
  end.

(** The row [runPhase] inserts, and the world right after the insert. *)
Definition new_row (projectId : nat) (phase : AgentPhase) (w : World) : PlanningPhase :=
  {| id := List.length (planning_phases w); project_id := projectId;
     phase_type := type phase; output := VNull; status := Processing;
     model_used := None |}.
Definition inserted (projectId : nat) (phase : AgentPhase) (w : World) : World :=
  with_planning_phases (planning_phases w ++ [new_row projectId phase w]) w.
Definition stage_prompt (prev : list PlanningPhase) : UserPrompt :=
  ContextualPrompt (buildPriorArtifacts prev) (extractDecisionLedger prev).
(** The two updates [runPhase] ends with, on a row and on the table. *)
Definition completed_from (provider : AIProvider) (out : value) (r : PlanningPhase)
  : PlanningPhase :=
  {| id := id r; project_id := project_id r; phase_type := phase_type r;
     output := out; status := PhaseCompleted; model_used := Some provider |}.
Definition failed_from (r : PlanningPhase) : PlanningPhase :=
  {| id := id r; project_id := project_id r; phase_type := phase_type r;
     output := output r; status := Failed; model_used := model_used r |}.
Definition update_rows (rowId : nat) (f : PlanningPhase -> PlanningPhase)
  (rows : list PlanningPhase) : list PlanningPhase :=
  List.map (fun r => if Nat.eqb (id r) rowId then f r else r) rows.

(** The world after a call whose first fetch succeeded. *)
Definition after_call (c : AICall) (w : World) : World :=
  with_fetches (S (fetches w)) (with_calls (calls w ++ [c]) w).

End Observations.

(** Concrete runs used below. *)
Module Runs.
Import Worlds.

(** Every answer of the backend is a JSON array, which the schemas
    reject; the project is a fresh draft. *)
Definition array_text : jsstring := str "[1]".
Definition always_invalid : World :=
  initial draft_project (scripted (repeat array_text 5)) (fun _ => 0%N).

(** The backend answers with prose only; the project had been completed
    by an earlier run. *)
Definition prose : jsstring := str "I cannot help with that.".
Definition completed_project : Project := with_status Completed draft_project.
Definition rerun_of_completed : World :=
  initial completed_project (scripted (repeat prose 3)) (fun _ => 0%N).

(** The backend answers the twelve stages of the first pass with an
    empty object and then with prose only: the checklist fails, and the
    first re-run it asks for exhausts its attempts. *)
Definition fails_in_autofix : World :=
  initial draft_project (scripted (repeat (str "{}") 12 ++ repeat prose 3)) (fun _ => 0%N).

End Runs.

(** The decision ledger, as the specification describes it. *)
Module LedgerSpec.
Import Orchestrator.

(** The entry [dedupe] makes of a declared decision. *)
Definition entry_of (d : value) : Decision :=
  (opt_member d "key", opt_member d "value", opt_member d "reason").

(** No two entries have the same key (for the comparison of [Map]). *)
Definition distinct_keys (ledger : list Decision) : Prop :=
  ForallOrdPairs (fun a b => strict_eq (key a) (key b) = false) ledger.

(** The entry of the ledger for a key. *)
Definition entry_for (k : value) (ledger : list Decision) : option Decision :=
  List.find (fun e => strict_eq (key e) k) ledger.

(** The last decision declaring a key, in the order of the list. *)
Definition last_declared (k : value) (decisions : list value) : option value :=
  List.find (fun d => strict_eq (opt_member d "key") k) (rev decisions).

End LedgerSpec.

(** A targeted re-run of the system stage, which had declared the key
    [auth] before the data stage declared it too. *)
Module LedgerRun.
Import Build Worlds.

Definition quoted (s : string) : jsstring := [dquote] ++ str s ++ [dquote].

Definition system_first : PlanningPhase :=
  completed_row 0 "system"
    (obj [("decisions", VArr [decision "auth" "x" "first choice"])]%string).
Definition data_later : PlanningPhase :=
  completed_row 1 "data"
    (obj [("decisions", VArr [decision "auth" "y" "data stage"])]%string).
Definition critic_first : PlanningPhase :=
  completed_row 2 "critic"
    (obj [("issues", VArr []); ("severityIndex", VNum (7 # 10));
          ("revisionRequests",
           VArr [obj [("targetPhase", text "system");
                      ("request", text "reconsider auth")]])]%string).

(** [{"decisions":[{"key":"auth","value":"z","reason":"revised"}]}] *)
Definition system_revised_text : jsstring :=
  str "{" ++ quoted "decisions" ++ str ":[{" ++ quoted "key" ++ str ":" ++ quoted "auth"
  ++ str "," ++ quoted "value" ++ str ":" ++ quoted "z" ++ str "," ++ quoted "reason"
  ++ str ":" ++ quoted "revised" ++ str "}]}".
(** [{"issues":[],"severityIndex":0,"revisionRequests":[]}] *)
Definition critic_calm_text : jsstring :=
  str "{" ++ quoted "issues" ++ str ":[]," ++ quoted "severityIndex" ++ str ":0,"
  ++ quoted "revisionRequests" ++ str ":[]}".

Definition before_revisions : World :=
  {| env_configured := true;
     backend := scripted [system_revised_text; critic_calm_text; str "{}"];
     fetches := 0; random := fun _ => 0%N; sleeps := []; calls := [];
     projects := [draft_project];
     planning_phases := [system_first; data_later; critic_first];
     notifications := [] |}.

(** The ledger a call presented to its stage. *)
Definition ledger_presented (c : AICall) : list (value * value * value) :=
  match call_prompt c with
  | ContextualPrompt _ ledger => ledger
  | RepairPrompt _ => []
  end.

End LedgerRun.

(** The convergence cycle, as a list of stage types. *)
Module Convergence.
Import Orchestrator Observations.

Section Catalogue.

Variable schema_of : jsstring -> Schema.

(** The stage a revision request of the critic names, when it names one. *)
Definition target (r : value) : list jsstring :=
  match targetType r with
  | Ok t =>
      match byType schema_of t with
      | Stage phase => [type phase]
      | Inherited | Missing => []
      end
  | Throw _ => []
  end.

Definition targets (revs : list value) : list jsstring := flat_map target revs.

(** The condition under which [applyCriticRevisions] goes on to the
    re-runs, read off the first output of the critic. *)
Definition escalates (criticOutput : value) : Prop :=
  revisionRequests criticOutput <> [] \/ (5 # 10 <= severityIndex criticOutput)%Q.
Definition settled (criticOutput : value) : Prop :=
  revisionRequests criticOutput = [] /\ (severityIndex criticOutput < 5 # 10)%Q.

Definition escalatesb (criticOutput : value) : bool :=
  negb (Nat.eqb (List.length (revisionRequests criticOutput)) 0
        && Qlt_bool (severityIndex criticOutput) (5 # 10)).

(** The stages one revision cycle invokes, in order: the targets named
    by the critic's first output, then the critic, then the composer;
    none when the critic's first output asks for nothing. It is a
    function of the results of the first pass alone. *)
Definition cycle_stages (completedPhases : list PlanningPhase) : list jsstring :=
  match List.find (fun p => JsString.eqb (phase_type p) (str "critic")) completedPhases with
  | None => []
  | Some critic =>
      if truthy (output critic) && escalatesb (output critic)
      then targets (revisionRequests (output critic)) ++ [str "critic"; str "composer"]
      else []
  end.

End Catalogue.

End Convergence.

(** Critic outputs and the worlds they are met in. *)
Module CriticRuns.
Import Build Worlds LedgerRun.

Definition request (targetPhase : string) : value :=
  obj [("targetPhase", text targetPhase); ("request", text "revise")]%string.

Definition critic_row (severity : Q) (requests : list value) : PlanningPhase :=
  completed_row 0 "critic"
    (obj [("issues", VArr []); ("severityIndex", VNum severity);
          ("revisionRequests", VArr requests)]%string).
Definition composer_row : PlanningPhase :=
  completed_row 1 "composer" (obj []).

(** Critic and composer have completed; the backend would answer any
    further call with an empty object. *)
Definition after_first_pass (critic : PlanningPhase) : World :=
  {| env_configured := true; backend := scripted (repeat (str "{}") 6);
     fetches := 0; random := fun _ => 0%N; sleeps := []; calls := [];
     projects := [draft_project]; planning_phases := [critic; composer_row];
     notifications := [] |}.

(** Severity 0.2 and no request: nothing to revise. *)
Definition critic_settled : PlanningPhase := critic_row (2 # 10) [].
(** A request for a stage that does not exist, then one for the data stage. *)
Definition critic_unknown_target : PlanningPhase :=
  critic_row (6 # 10) [request "Marketing"; request "data"].
(** A request whose target is the name of a member every object
    inherits, then one for the data stage. *)
Definition critic_inherited_target : PlanningPhase :=
  critic_row (6 # 10) [request "constructor"; request "data"].

(** [{"issues":[],"severityIndex":0.9,"revisionRequests":[{"targetPhase":"data","request":"again"}]}] *)
Definition critic_severe_text : jsstring :=
  str "{" ++ quoted "issues" ++ str ":[]," ++ quoted "severityIndex" ++ str ":0.9,"
  ++ quoted "revisionRequests" ++ str ":[{" ++ quoted "targetPhase" ++ str ":"
  ++ quoted "data" ++ str "," ++ quoted "request" ++ str ":" ++ quoted "again" ++ str "}]}".

(** As [before_revisions], but the critic, run again, is as severe as
    before and asks for more. *)
Definition critic_stays_severe : World :=
  {| env_configured := true;
     backend := scripted [system_revised_text; critic_severe_text; str "{}"; str "{}"; str "{}"];
     fetches := 0; random := fun _ => 0%N; sleeps := []; calls := [];
     projects := [draft_project];
     planning_phases := [system_first; data_later; critic_first];
     notifications := [] |}.

End CriticRuns.

(** Inputs of the concrete evaluations. *)
Module Inputs.
Import Build Worlds QualityChecklist.

(** Outputs that satisfy every rule except ledger integrity: the system
    stage and the data stage both declare the key [auth.choice]. *)
Definition duplicate_key_phases : list PlanningPhase :=
  [ completed_row 0 "ux" (obj [("auth", obj [("choice", text "firebase")])]);
    completed_row 1 "system"
      (obj [("decisions", VArr [decision "auth.choice" "firebase" "managed sign-in"]);
            ("nonFunctional",
             obj [("performance", VArr [text "p95 under 300ms"]);
                  ("reliability", VArr [text "99.9%"]);
                  ("privacy", VArr [text "GDPR"])]);
            ("providersPolicies",
             obj [("providers", VArr [text "firebase"]);
                  ("quotas", text "10k/day"); ("caching", text "5m")])]);
    completed_row 2 "data"
      (obj [("entities",
             VArr [obj [("name", text "users");
                        ("columns", VArr [obj [("name", text "id")];
                                          obj [("name", text "firebase_uid")]])]]);
            ("decisions", VArr [decision "auth.choice" "firebase" "follows the system stage"])]);
    completed_row 3 "api" (obj [("openApiYaml", text "cursor pagination; error model 4xx")]);
    completed_row 4 "ui"
      (obj [("motion", obj [("durations", obj [("fast", text "100ms")])]);
            ("skeletons", VArr [text "card"])]);
    completed_row 5 "prompts"
      (obj [("bolt", VArr [obj [("title", text "Project Scaffolding")]]);
            ("cursor", VArr [obj [("title", text "Smoke Test + Release Checklist")]])]) ]%string.

Definition ledger_check : jsstring := str "Decision Ledger consistent across all phases".

(** Four tries that all time out, with no jitter drawn. *)
Definition four_tries : Options :=
  {| temperature := None; maxTokens := None; retries := Some 4%nat; topP := None;
     timeoutMs := None |}.
Definition always_timing_out : World :=
  initial draft_project (fun _ => Aborted) (fun _ => 0%N).

(** The first stage of the catalogue, on a backend whose first answer
    is a JSON object. *)
Definition first_answer_valid : World :=
  initial draft_project (scripted [ParserSpec.object_text]) (fun _ => 0%N).

(** The system stage of the catalogue, with a schema that accepts all. *)
Definition system_stage : AgentPhase :=
  {| type := str "system"; name := str "System Architect";
     schema := accept_all (str "system") |}.

End Inputs.

(** Observations on single backend calls. *)
Module Outcomes.

(** A [fetch] that did not end in a success response. *)
Definition failed (o : FetchOutcome) : bool :=
  match o with
  | Responded _ _ => false
  | HttpError _ | Aborted | Rejected _ => true
  end.

(** [options.retries ?? 3] and [options.timeoutMs ?? 60_000] *)
Definition tries (options : Options) : nat := nullish (retries options) 3%nat.
Definition timeout_of (options : Options) : N := nullish (timeoutMs options) 60000%N.

(** What [callAI] throws when no try succeeded: the error of the last
    try, or the fallback message when there was no try at all. *)
Definition final_error (options : Options) (w : World) : error :=
  match tries options with
  | O => Err (str "Failed to call AI after retries")
  | S n => normalize_failure (timeout_of options) (backend w (fetches w + n))
  end.

(** Two tries, the first of which fails at the transport level. *)
Definition two_tries : Options :=
  {| temperature := None; maxTokens := None; retries := Some 2%nat; topP := None;
     timeoutMs := None |}.
Definition no_tries : Options :=
  {| temperature := None; maxTokens := None; retries := Some 0%nat; topP := None;
     timeoutMs := None |}.
Definition default_options : Options :=
  {| temperature := None; maxTokens := None; retries := None; topP := None;
     timeoutMs := None |}.
Definition fails_once : nat -> FetchOutcome :=
  fun n =>
    match n with
    | O => HttpError (str "overloaded")
    | S _ => Responded (str "{}") (str "gpt-4o-mini")
    end.

End Outcomes.

(** Inputs and observations for single stage runs. *)
Module StageRuns.
Import Build Worlds Orchestrator Observations.

(** The stage types of the calls made from a given point on. *)
Definition calls_since (w w' : World) : nat :=
  (List.length (calls w') - List.length (calls w))%nat.
Definition fetches_since (w w' : World) : nat := (fetches w' - fetches w)%nat.

(** The world of [first_answer_valid] without its environment variables. *)
Definition unconfigured : World :=
  {| env_configured := false; backend := scripted [ParserSpec.object_text];
     fetches := 0; random := fun _ => 0%N; sleeps := []; calls := [];
     projects := [draft_project]; planning_phases := []; notifications := [] |}.

(** The api stage, with a schema that accepts every value. *)
Definition api_stage : AgentPhase :=
  {| type := str "api"; name := str "API Designer"; schema := accept_all (str "api") |}.

(** The UX stage chose Firebase; the answer of the api stage carries an
    [entities] array whose only element is [null]. *)
Definition ux_firebase : PlanningPhase :=
  completed_row 0 "ux" (obj [("auth", obj [("choice", text "firebase")])]%string).
Definition null_entity_text : jsstring :=
  str "{" ++ [dquote] ++ str "entities" ++ [dquote] ++ str ":[null]}".
Definition null_entity : value := obj [("entities", VArr [VNull])]%string.
Definition answers_null_entity : World :=
  {| env_configured := true; backend := scripted [null_entity_text];
     fetches := 0; random := fun _ => 0%N; sleeps := []; calls := [];
     projects := [draft_project]; planning_phases := [ux_firebase]; notifications := [] |}.

End StageRuns.

(** Wrapped answers, as the models send them. *)
Module Fences.

(** A text inside a Markdown code fence, on lines of its own. *)
Definition json_fenced (t : jsstring) : jsstring :=
  str "```json" ++ [newline] ++ t ++ [newline] ++ str "```".
Definition plain_fenced (t : jsstring) : jsstring :=
  str "```" ++ [newline] ++ t ++ [newline] ++ str "```".

(** The curly quotes [normalizeQuotes] replaces: U+2018 to U+201F. *)
Definition curly (c : N) : bool := ((8216 <=? c) && (c <=? 8223))%N.

(** The object of [ParserSpec], indented and followed by a line break. *)
Definition padded_object : jsstring :=
  str "  " ++ ParserSpec.object_text ++ [newline].

(** What [findFirstOf] has found after some of the characters. *)
Definition first_among (s : jsstring) (seen : list N) (m : Z) : Prop :=
  (m = (-1)%Z <-> forall c, In c seen -> ~ In c s)
  /\ (m <> (-1)%Z ->
      (0 <= m < Z.of_nat (List.length s))%Z
      /\ In (nth (Z.to_nat m) s 0%N) seen
      /\ forall k, (k < Z.to_nat m)%nat -> ~ In (nth k s 0%N) seen).

End Fences.

(** The checklist, rule by rule. *)
Module ChecklistRules.
Import QualityChecklist.

(** The titles of the eight checks, in the order of [items]. *)
Definition check_titles : list jsstring :=
  [ str "Single source of truth for Auth selected and reflected across UX, API, Data";
    str "Design tokens include motion+loading states";
    str "Pagination and error model specified in OpenAPI";
    str "Non-functional (perf/reliability/privacy) noted";
    str "Providers & Policies list quotas/caching/attribution";
    str "Decision Ledger consistent across all phases";
    str "Prompts include Scaffolding and Smoke Test + Release Checklist";
    str "If competitor data present: opportunities reflected in features" ].

(** The stages the checklist can ask to run again. *)
Definition revisable : list jsstring :=
  [str "system"; str "data"; str "ui"; str "api"; str "prompts"; str "strategy"].

(** An output that says nothing: absent, [null], or the empty object. *)
Definition blank (v : value) : bool :=
  match v with
  | VObj [] => true
  | _ => negb (truthy v)
  end.

End ChecklistRules.

(* ================================================================= *)
(** ** [src/components/PlanningProgress.tsx]: the view of a progress report *)

Module PlanningProgress.

Inductive PhaseView := ViewCompleted | ViewActive | ViewPending.

Section Catalogue.

Variable schema_of : jsstring -> Schema.

(** [getPhaseStatus] *)
Definition getPhaseStatus (progress : OrchestrationProgress) (phaseType : jsstring)
  : PhaseView :=
  if existsb (JsString.eqb phaseType) (completedPhases progress) then ViewCompleted
  else if
    match List.find (fun p => JsString.eqb (type p) phaseType) (AGENT_PHASES schema_of) with
    | Some p => JsString.eqb (currentPhase progress) (name p)
    | None => false
    end
  then ViewActive
  else ViewPending.

End Catalogue.

End PlanningProgress.

(** What a run reports and leaves in the store. *)
Module RunReports.
Import Orchestrator PlanningProgress.

(** The output recorded last for a stage type among earlier results. *)
Definition last_output (t : jsstring) (previousPhases : list PlanningPhase) : option value :=
  option_map output
    (List.find (fun p => JsString.eqb (phase_type p) t) (rev previousPhases)).

Section Catalogue.

Variable schema_of : jsstring -> Schema.

(** The reports of a first pass over [phases] that meets no failure,
    [done] being the types of the results so far. *)
Fixpoint progress_reports (done : list jsstring) (phases : list AgentPhase)
  : list OrchestrationProgress :=
  match phases with
  | [] => []
  | phase :: rest =>
      {| currentPhase := name phase; completedPhases := done;
         totalPhases := List.length (AGENT_PHASES schema_of); progress_error := None |}
      :: progress_reports (done ++ [type phase]) rest
  end.

(** The final report of a run. *)
Definition completed_report : OrchestrationProgress :=
  {| currentPhase := str "Completed";
     completedPhases := List.map type (AGENT_PHASES schema_of);
     totalPhases := List.length (AGENT_PHASES schema_of); progress_error := None |}.

(** How the stage at position [j] should look while the stage at
    position [k] runs. *)
Definition view_at (k j : nat) : PhaseView :=
  if (j <? k)%nat then ViewCompleted
  else if (j =? k)%nat then ViewActive
  else ViewPending.

(** The views of all stages, in catalogue order, under a report. *)
Definition views (progress : OrchestrationProgress) : list PhaseView :=
  List.map (fun p => getPhaseStatus schema_of progress (type p)) (AGENT_PHASES schema_of).

End Catalogue.

(** The projects and the reports a computation leaves as they were. *)
Definition quiet {A} (m : M A) : Prop :=
  forall w, projects (snd (m w)) = projects w
            /\ notifications (snd (m w)) = notifications w.

(** A prompt writer that leaves the store of projects alone. *)
Definition keeps_projects (generatePrompts : list PlanningPhase -> M unit) : Prop :=
  forall l w, projects (snd (generatePrompts l w)) = projects w.

End RunReports.

(* ================================================================= *)
(** * Properties *)

Module JsStringFacts.

Lemma eqb_eq (a b : jsstring) : JsString.eqb a b = true <-> a = b.
Proof.
  revert b; induction a as [|x a IH]; intros [|y b]; simpl; split; try easy.
  - intros H; apply andb_true_iff in H as [H1 H2].
    apply N.eqb_eq in H1; apply IH in H2; now subst.
  - intros H; injection H as -> ->. now rewrite N.eqb_refl, (proj2 (IH b)).
Qed.

Lemma eqb_refl (a : jsstring) : JsString.eqb a a = true.
Proof. now apply eqb_eq. Qed.

Lemma eqb_neq (a b : jsstring) : JsString.eqb a b = false <-> a <> b.
Proof.
  split.
  - intros H E. apply eqb_eq in E. congruence.
  - intros H. destruct (JsString.eqb a b) eqn:E; [apply eqb_eq in E; contradiction | easy].
Qed.

End JsStringFacts.

(** ** The parser *)

Module ParserFacts.

Lemma indexOf_from_found (s : jsstring) (c : N) (i j : Z) :
  indexOf_from s c i = j -> (0 <= i)%Z -> j <> (-1)%Z ->
  (i <= j < i + Z.of_nat (List.length s))%Z /\ nth (Z.to_nat (j - i)) s 0%N = c.
Proof.
  revert i; induction s as [|x r IH]; simpl; intros i H Hi Hj.
  - congruence.
  - destruct (N.eqb x c) eqn:E.
    + subst j. apply N.eqb_eq in E. rewrite Z.sub_diag. simpl. split; [lia | assumption].
    + destruct (IH (i + 1)%Z H ltac:(lia) Hj) as [Hr Hn]. split; [lia|].
      replace (Z.to_nat (j - i)) with (S (Z.to_nat (j - (i + 1)))) by lia.
      exact Hn.
Qed.

Lemma indexOf_found (s : jsstring) (c : N) :
  indexOf s c <> (-1)%Z ->
  (0 <= indexOf s c < Z.of_nat (List.length s))%Z /\
  nth (Z.to_nat (indexOf s c)) s 0%N = c.
Proof.
  intros H. unfold indexOf in *.
  destruct (indexOf_from_found s c 0%Z _ eq_refl ltac:(lia) H) as [Hr Hn].
  rewrite Z.sub_0_r in Hn. split; [lia | assumption].
Qed.








End ParserFacts.

Module ParserTheorems.
Import ParserFacts ParserSpec.

Example fenced_is_cleaned :
  cleaned_text fenced_input = str "Sure! ```json" ++ [newline] ++ object_text.
Proof. reflexivity. Qed.

Example fenced_span : extractFirstJsonBlock (cleaned_text fenced_input) = Some object_text.
Proof. reflexivity. Qed.

Example curly_wrapped_span :
  JSON_parse curly_wrapped_input = None /\
  extractFirstJsonBlock curly_wrapped_input = Some object_text.
Proof. split; reflexivity. Qed.

Example curly_key_needs_normalisation :
  JSON_parse curly_key_input = None /\
  extractFirstJsonBlock curly_key_input = Some curly_key_input /\
  normalizeQuotes curly_key_input = object_text.
Proof. repeat split; reflexivity. Qed.


End ParserTheorems.

(** ** The checklist *)

Module ChecklistTheorems.
Import Build QualityChecklist Inputs.

(** The overall status is computed from [failItems] alone. *)
Lemma status_from_failItems (phases : list PlanningPhase) (r : ChecklistResult) :
  runQualityChecklist phases = Ok r ->
  (status r = fail <-> failItems r <> []).
Proof.
  unfold runQualityChecklist.
  repeat match goal with
         | |- rbind ?x _ = _ -> _ => destruct x; simpl rbind; [|discriminate]
         end.
  intros H; injection H as <-. cbv beta zeta. simpl status. simpl failItems.
  lazymatch goal with |- (_ <-> ?l <> []) => destruct l end;
    split; intros; congruence.
Qed.

Lemma truthy_js_and a b : truthy (js_and a b) = truthy a && truthy b.
Proof. unfold js_and. destruct (truthy a) eqn:E; [reflexivity | exact E]. Qed.

Lemma truthy_js_or a b : truthy (js_or a b) = truthy a || truthy b.
Proof. unfold js_or. destruct (truthy a) eqn:E; [exact E | reflexivity]. Qed.

Lemma rule_fails_when (c p : bool) (x : jsstring) (rest : list jsstring) (restb : bool) :
  c = negb p ->
  match rest with [] => pass | _ :: _ => fail end = (if restb then pass else fail) ->
  match (if c then [x] else []) ++ rest with [] => pass | _ :: _ => fail end
  = (if p && restb then pass else fail).
Proof. intros -> H. destruct p; simpl; [exact H | reflexivity]. Qed.

Lemma rule_passes_when (p : bool) (x : jsstring) (rest : list jsstring) (restb : bool) :
  match rest with [] => pass | _ :: _ => fail end = (if restb then pass else fail) ->
  match (if p then [] else [x]) ++ rest with [] => pass | _ :: _ => fail end
  = (if p && restb then pass else fail).
Proof. intros H. destruct p; simpl; [exact H | reflexivity]. Qed.

(** The overall status is [fail] exactly when an item other than the
    ledger item has not passed: whether the ledger item passed has no
    effect on it. *)
Lemma status_ignores_ledger_item (phases : list PlanningPhase) (r : ChecklistResult) :
  runQualityChecklist phases = Ok r ->
  status r =
  if forallb (fun i => JsString.eqb (check i) ledger_check || truthy (passed i)) (items r)
  then pass else fail.
Proof.
  unfold runQualityChecklist.
  repeat match goal with
         | |- rbind ?x _ = _ -> _ => destruct x; simpl rbind; [|discriminate]
         end.
  intros H; injection H as <-. cbv beta zeta.
  cbn [status items failItems forallb check passed].
  repeat match goal with
         | |- context [JsString.eqb (str ?a) ledger_check] =>
             let b := eval vm_compute in (JsString.eqb (str a) ledger_check) in
             change (JsString.eqb (str a) ledger_check) with b
         end.
  cbn [orb andb]. repeat (rewrite truthy_js_and || rewrite truthy_js_or). cbn [truthy].
  apply rule_passes_when.
  repeat (apply rule_fails_when; [btauto|]).
  match goal with
  | |- match ?l with [] => _ | _ :: _ => _ end = _ => rewrite <- (app_nil_r l)
  end.
  apply rule_fails_when; [|reflexivity].
  match goal with
  | |- context [match ?m with [] => false | _ :: _ => true end] =>
      generalize (match m with [] => false | _ :: _ => true end)
  end.
  intros b. btauto.
Qed.

(** C3. What the code does: the overall status is [fail] exactly when
    an item other than the ledger-integrity item has not passed. At the
    failing input the ledger-integrity item reports the duplicate key
    and has not passed, yet the overall status is [pass], with no fail
    item and no revision request. *)
Theorem duplicate_key_status_is_pass :
  (forall phases r,
      runQualityChecklist phases = Ok r ->
      status r =
      if forallb (fun i => JsString.eqb (check i) ledger_check || truthy (passed i))
           (items r)
      then pass else fail)
  /\ exists r,
       runQualityChecklist duplicate_key_phases = Ok r
       /\ status r = pass
       /\ failItems r = []
       /\ targetedRevisions r = []
       /\ List.map (fun i => (check i, passed i, details i))
            (List.filter (fun i => negb (truthy (passed i))) (items r))
          = [ (ledger_check, VBool false,
               Some (str "Duplicate decision keys: auth.choice")) ].
Proof.
  split; [exact status_ignores_ledger_item|].
  eexists. repeat split; vm_compute; reflexivity.
Qed.

(** The same results with the motion tokens missing: the design-token
    rule fails, and with it the overall status. *)
Example sibling_rule_raises_fail :
  exists r,
    runQualityChecklist
      (List.filter (fun p => negb (JsString.eqb (phase_type p) (str "ui")))
         duplicate_key_phases) = Ok r
    /\ status r = fail
    /\ failItems r = [str "Missing motion or skeleton patterns in design system"]
    /\ List.map phase (targetedRevisions r) = [str "ui"].
Proof. eexists. repeat split; vm_compute; reflexivity. Qed.

End ChecklistTheorems.

(** ** The backend call *)

Module CallAITheorems.
Import Worlds Observations Inputs.

(** Frame: [callAI] touches the backend cursor, the timers and the call
    log only. *)
Lemma same_store_refl (w : World) : same_store w w.
Proof. repeat split. Qed.

Lemma same_store_trans (a b c : World) : same_store a b -> same_store b c -> same_store a c.
Proof.
  unfold same_store. intros (A1 & A2 & A3 & A4 & A5 & A6) (B1 & B2 & B3 & B4 & B5 & B6).
  repeat split; congruence.
Qed.

Lemma callAI_loop_frame (timeoutMs : N) (maxRetries remaining : nat)
  (lastError : option error) (w : World) :
  same_store w (snd (callAI_loop timeoutMs maxRetries remaining lastError w))
  /\ calls (snd (callAI_loop timeoutMs maxRetries remaining lastError w)) = calls w.
Proof.
  revert lastError w. induction remaining as [|k IH]; intros lastError w.
  - split; [apply same_store_refl | reflexivity].
  - simpl. unfold bind, fetch. simpl.
    destruct (backend w (fetches w)) eqn:E; simpl;
      try (split; [repeat split | reflexivity]);
      destruct (Nat.ltb _ _); unfold jitter, sleep, modify; simpl;
      match goal with
      | |- context [callAI_loop ?t ?m ?kk ?l ?w1] =>
          destruct (IH l w1) as [F C]; destruct (callAI_loop t m kk l w1) as [r w2] eqn:R;
          simpl in *; split; [| exact C];
          destruct F as (F1 & F2 & F3 & F4 & F5 & F6); repeat split; assumption
      end.
Qed.

Lemma callAI_frame (stage : jsstring) (prompt : UserPrompt) (provider : AIProvider)
  (options : Options) (w : World) :
  same_store w (snd (callAI stage prompt provider options w))
  /\ calls (snd (callAI stage prompt provider options w)) =
     calls w ++ [ {| call_stage := stage; call_prompt := prompt;
                     call_temperature := nullish (temperature options) (2 # 10);
                     call_maxTokens := nullish (maxTokens options) 4000%N |} ].
Proof.
  unfold callAI, bind, modify, get. simpl.
  destruct (env_configured w) eqn:E; simpl.
  - match goal with
    | |- context [callAI_loop ?t ?m ?k ?l ?w1] =>
        destruct (callAI_loop_frame t m k l w1) as [F C];
        destruct (callAI_loop t m k l w1) as [r w2] eqn:R
    end.
    simpl in *. split; [| exact C].
    destruct F as (F1 & F2 & F3 & F4 & F5 & F6). repeat split; assumption.
  - unfold throw. simpl. split; [repeat split | reflexivity].
Qed.




End CallAITheorems.

(** ** Running one stage *)

Module RunPhaseFacts.
Import Orchestrator Observations CallAITheorems.

Section WithParameters.

Variable schema_of : jsstring -> Schema.
Variable projectId : nat.
Variable provider : AIProvider.

Abbreviation runPhase := (runPhase projectId provider).
Abbreviation generation_loop := (generation_loop provider).
Abbreviation after_generation := (after_generation provider).
Abbreviation new_row := (new_row projectId).
Abbreviation inserted := (inserted projectId).
Abbreviation completed_from := (completed_from provider).

Lemma after_generation_frame phase prev attempt out response w :
  same_store w (snd (after_generation phase prev attempt out response w)).
Proof.
  unfold Orchestrator.after_generation.
  destruct (parseJSONResponse (content response)) as [v|].
  - destruct (valid (validateJSON v (schema phase))).
    + unfold bind, lift, ret.
      destruct (crossPhaseChecks (type phase) v prev); apply same_store_refl.
    + destruct (Nat.ltb attempt (maxRetries - 1)).
      * unfold bind.
        pose proof (callAI_frame (type phase)
                      (RepairPrompt (errors (validateJSON v (schema phase))))
                      provider repair_options w) as [F _].
        destruct (callAI _ _ _ _ w) as [[resp|e] w1]; cbn [snd] in *; [|exact F].
        destruct (parseJSONResponse (content resp)) as [v'|]; [|exact F].
        destruct (valid (validateJSON v' (schema phase))); exact F.
      * apply same_store_refl.
  - destruct (Nat.ltb attempt (maxRetries - 1)); apply same_store_refl.
Qed.

Lemma generation_loop_frame phase prompt prev remaining out w :
  same_store w (snd (generation_loop phase prompt prev remaining out w)).
Proof.
  revert out w. induction remaining as [|k IH]; intros out w.
  - apply same_store_refl.
  - cbn [Orchestrator.generation_loop]. unfold bind at 1.
    pose proof (callAI_frame (type phase) prompt provider generation_options w) as [F _].
    destruct (callAI _ _ _ _ w) as [[resp|e] w1]; cbn [snd] in *; [|exact F].
    unfold bind.
    pose proof (after_generation_frame phase prev (maxRetries - S k) out resp w1) as F2.
    destruct (after_generation _ _ _ _ _ w1) as [[[o|o]|e] w2]; cbn [snd] in *.
    + unfold ret; cbn [snd]. eapply same_store_trans; eassumption.
    + eapply same_store_trans; [exact F|]. eapply same_store_trans; [exact F2|]. apply IH.
    + eapply same_store_trans; eassumption.
Qed.

(** [runPhase] is the insert, the generation loop, and the update that
    records its outcome. *)
Lemma runPhase_unfold phase project prev w :
  runPhase phase project prev w =
  match generation_loop phase (stage_prompt prev) prev maxRetries VUndef (inserted phase w) with
  | (Ok out, w2) =>
      match select_phase (List.length (planning_phases w))
              (with_planning_phases
                 (update_rows (List.length (planning_phases w)) (completed_from out)
                    (planning_phases w2)) w2) with
      | (Ok r, w3) => (Ok r, w3)
      | (Throw e, w3) =>
          (Throw e,
           with_planning_phases
             (update_rows (List.length (planning_phases w)) failed_from (planning_phases w3)) w3)
      end
  | (Throw e, w2) =>
      (Throw e,
       with_planning_phases
         (update_rows (List.length (planning_phases w)) failed_from (planning_phases w2)) w2)
  end.
Proof.
  unfold Orchestrator.runPhase, insert_phase, update_phase, inserted, new_row,
    stage_prompt, update_rows, completed_from, failed_from.
  unfold try_catch, bind, get, modify, ret, throw.
  cbn [id].
  match goal with
  | |- context [Orchestrator.generation_loop ?a ?b ?c ?d ?e ?f ?g] =>
      destruct (Orchestrator.generation_loop a b c d e f g) as [[out|e0] w2]
  end; [|reflexivity].
  match goal with
  | |- context [select_phase ?a ?b] => destruct (select_phase a b) as [[r|e0] w3]
  end; reflexivity.
Qed.

Lemma update_rows_fresh n f rows :
  Forall (fun r => (id r < n)%nat) rows -> update_rows n f rows = rows.
Proof.
  induction 1 as [|r rows Hr _ IH]; [reflexivity|].
  simpl. rewrite IH. destruct (Nat.eqb_spec (id r) n); [lia | reflexivity].
Qed.

Lemma update_rows_app n f a b :
  update_rows n f (a ++ b) = update_rows n f a ++ update_rows n f b.
Proof. apply map_app. Qed.

Lemma find_fresh n rows row :
  Forall (fun r => (id r < n)%nat) rows -> id row = n ->
  List.find (fun r => Nat.eqb (id r) n) (rows ++ [row]) = Some row.
Proof.
  intros H E. induction H as [|r rows Hr _ IH]; simpl.
  - rewrite E, Nat.eqb_refl. reflexivity.
  - destruct (Nat.eqb_spec (id r) n); [lia | exact IH].
Qed.

Lemma update_rows_types n f rows :
  (forall r, phase_type (f r) = phase_type r) ->
  List.map phase_type (update_rows n f rows) = List.map phase_type rows.
Proof.
  intros Hf. induction rows as [|r rows IH]; [reflexivity|].
  simpl. rewrite IH. destruct (Nat.eqb (id r) n); [rewrite Hf|]; reflexivity.
Qed.

Lemma select_phase_world n w : snd (select_phase n w) = w.
Proof.
  unfold select_phase, bind, get.
  destruct (List.find _ _); reflexivity.
Qed.

(** Whatever its outcome, [runPhase] leaves the projects and the
    notifications alone and adds exactly one row, of the stage's type. *)
Lemma runPhase_frame phase project prev w :
  let w' := snd (runPhase phase project prev w) in
  projects w' = projects w /\ notifications w' = notifications w
  /\ List.map phase_type (planning_phases w')
     = List.map phase_type (planning_phases w) ++ [type phase].
Proof.
  rewrite runPhase_unfold.
  pose proof (generation_loop_frame phase (stage_prompt prev) prev maxRetries VUndef
                (inserted phase w)) as (F1 & F2 & F3 & _).
  assert (T : List.map phase_type (planning_phases (inserted phase w))
              = List.map phase_type (planning_phases w) ++ [type phase]).
  { unfold inserted; cbn [planning_phases with_planning_phases].
    rewrite map_app; reflexivity. }
  destruct (generation_loop _ _ _ _ _ (inserted phase w)) as [[out|e] w2];
    cbn [snd] in *.
  - match goal with
    | |- context [select_phase ?a ?b] =>
        pose proof (select_phase_world a b) as S; destruct (select_phase a b) as [[r|e] w3]
    end; cbn [snd] in *; subst w3;
      cbn [snd projects notifications planning_phases with_planning_phases];
      (repeat split; [exact F1 | exact F3 |]);
      rewrite ?update_rows_types by reflexivity; rewrite F2; exact T.
  - cbn [snd projects notifications planning_phases with_planning_phases].
    repeat split; [exact F1 | exact F3 |].
    rewrite update_rows_types by reflexivity. rewrite F2. exact T.
Qed.

(** With fresh ids the earlier rows are untouched: the table gains the
    new row, completed with the output on success and failed otherwise,
    and the result returned is that row. *)
Lemma runPhase_rows phase project prev w :
  ids_fresh w ->
  match runPhase phase project prev w with
  | (Ok result, w') =>
      planning_phases w' = planning_phases w ++ [result]
      /\ id result = List.length (planning_phases w)
      /\ phase_type result = type phase
      /\ status result = PhaseCompleted
      /\ ids_fresh w'
  | (Throw e, w') =>
      planning_phases w' = planning_phases w ++ [failed_from (new_row phase w)]
      /\ ids_fresh w'
  end.
Proof.
  intros Hfresh. rewrite runPhase_unfold.
  pose proof (generation_loop_frame phase (stage_prompt prev) prev maxRetries VUndef
                (inserted phase w)) as (_ & F2 & _).
  assert (Hnext : forall row,
             id row = List.length (planning_phases w) ->
             Forall (fun r => (id r < List.length (planning_phases w ++ [row]))%nat)
               (planning_phases w ++ [row])).
  { intros row Hid. rewrite length_app. simpl.
    apply Forall_app; split.
    - eapply Forall_impl; [|exact Hfresh]. simpl; intros; lia.
    - constructor; [lia | constructor]. }
  destruct (generation_loop _ _ _ _ _ (inserted phase w)) as [[out|e] w2];
    cbn [snd] in F2.
  - unfold select_phase, bind, get. cbn [planning_phases with_planning_phases].
    rewrite F2. unfold inserted; cbn [planning_phases with_planning_phases].
    rewrite update_rows_app, (update_rows_fresh _ _ _ Hfresh).
    cbn [update_rows List.map new_row id]. rewrite Nat.eqb_refl.
    rewrite (find_fresh _ _ _ Hfresh) by reflexivity.
    unfold ret. cbn [planning_phases with_planning_phases].
    repeat split. unfold ids_fresh. cbn [planning_phases with_planning_phases].
    apply Hnext; reflexivity.
  - cbn [planning_phases with_planning_phases].
    rewrite F2. unfold inserted; cbn [planning_phases with_planning_phases].
    rewrite update_rows_app, (update_rows_fresh _ _ _ Hfresh).
    cbn [update_rows List.map new_row id]. rewrite Nat.eqb_refl.
    split; [reflexivity|]. unfold ids_fresh. cbn [planning_phases with_planning_phases].
    apply Hnext; reflexivity.
Qed.

End WithParameters.

End RunPhaseFacts.

(** ** The repair loop *)

Module RepairTheorems.
Import Orchestrator Observations CallAITheorems RunPhaseFacts Worlds Inputs.

Lemma callAI_responded stage prompt provider options w c m :
  env_configured w = true ->
  backend w (fetches w) = Responded c m ->
  retries options = None ->
  callAI stage prompt provider options w =
  (Ok {| content := c; model := m |},
   after_call {| call_stage := stage; call_prompt := prompt;
                 call_temperature := nullish (temperature options) (2 # 10);
                 call_maxTokens := nullish (maxTokens options) 4000%N |} w).
Proof.
  intros He Hb Hr. unfold callAI, bind, modify, get. rewrite Hr.
  cbn [nullish env_configured with_calls negb]. rewrite He. cbn [negb callAI_loop].
  unfold bind, fetch. cbn [backend fetches with_calls]. rewrite Hb. reflexivity.
Qed.

Lemma after_generation_calls provider phase prev attempt out response w :
  calls (snd (after_generation provider phase prev attempt out response w))
  = calls w ++ repair_calls phase attempt response.
Proof.
  unfold after_generation, repair_calls.
  destruct (parseJSONResponse (content response)) as [v|].
  - destruct (valid (validateJSON v (schema phase))); cbn [negb andb].
    + unfold bind, lift, ret.
      destruct (crossPhaseChecks (type phase) v prev); cbn [snd]; now rewrite app_nil_r.
    + destruct (Nat.ltb attempt (maxRetries - 1)).
      * unfold bind.
        pose proof (callAI_frame (type phase)
                      (RepairPrompt (errors (validateJSON v (schema phase))))
                      provider repair_options w) as [_ C].
        destruct (callAI _ _ _ _ w) as [[resp|e] w1]; cbn [snd] in *; [|exact C].
        destruct (parseJSONResponse (content resp)) as [v'|]; [|exact C].
        destruct (valid (validateJSON v' (schema phase))); exact C.
      * unfold throw; cbn [snd]; now rewrite app_nil_r.
  - destruct (Nat.ltb attempt (maxRetries - 1)); unfold ret, throw; cbn [snd];
      now rewrite app_nil_r.
Qed.

(** The cross-phase check is run for the data, api and composer stages
    only: for any other stage it logs nothing and raises nothing. *)
Lemma crossPhaseChecks_other_stages (t : jsstring) (v : value) (prev : list PlanningPhase) :
  t <> str "data" -> t <> str "api" -> t <> str "composer" ->
  crossPhaseChecks t v prev = Ok [].
Proof.
  intros H1 H2 H3. unfold crossPhaseChecks.
  apply JsStringFacts.eqb_neq in H1, H2, H3. rewrite H1, H2, H3. reflexivity.
Qed.

Lemma generation_loop_trace provider phase prev remaining out w :
  (remaining <= maxRetries)%nat ->
  exists l,
    calls (snd (generation_loop provider phase (stage_prompt prev) prev remaining out w))
    = calls w ++ l
    /\ attempts_trace phase prev remaining l.
Proof.
  revert out w. induction remaining as [|k IH]; intros out w Hle.
  - exists []. cbn. rewrite app_nil_r. split; [reflexivity | constructor].
  - cbn [generation_loop]. unfold bind at 1.
    pose proof (callAI_frame (type phase) (stage_prompt prev) provider generation_options w)
      as [_ C].
    change {| call_stage := type phase; call_prompt := stage_prompt prev;
              call_temperature := nullish (temperature generation_options) (2 # 10);
              call_maxTokens := nullish (maxTokens generation_options) 4000%N |}
      with (generation_call phase prev) in C.
    destruct (callAI _ _ _ _ w) as [[resp|e] w1]; cbn [snd] in *.
    2:{ exists [generation_call phase prev]. split; [exact C | repeat constructor]. }
    unfold bind at 1.
    pose proof (after_generation_calls provider phase prev (maxRetries - S k) out resp w1) as A.
    assert (R : repair_calls phase (maxRetries - S k) resp = []
                \/ exists errs k', k = S k'
                     /\ repair_calls phase (maxRetries - S k) resp = [repair_call phase errs]).
    { unfold repair_calls. destruct (parseJSONResponse (content resp)) as [v|]; [|now left].
      destruct (negb (valid (validateJSON v (schema phase)))); [|now left].
      cbn [andb]. destruct (Nat.ltb_spec (maxRetries - S k) (maxRetries - 1)); [|now left].
      right. destruct k as [|k']; [lia|]. eauto. }
    destruct (after_generation provider phase prev (maxRetries - S k) out resp w1)
      as [[[o|o]|e] w2]; cbn [snd] in *.
    + unfold ret. cbn [snd]. rewrite A, C, <- app_assoc.
      eexists. split; [reflexivity|]. cbn [List.app].
      destruct R as [-> | (errs & k' & -> & ->)];
        [repeat constructor | apply trace_repair; constructor].
    + destruct (IH o w2 ltac:(lia)) as (l & Hl & Ht).
      rewrite Hl, A, C, <- !app_assoc.
      eexists. split; [reflexivity|]. cbn [List.app].
      destruct R as [-> | (errs & k' & -> & ->)]; cbn [List.app];
        [now apply trace_generation | now apply trace_repair].
    + rewrite A, C, <- app_assoc.
      eexists. split; [reflexivity|]. cbn [List.app].
      destruct R as [-> | (errs & k' & -> & ->)];
        [repeat constructor | apply trace_repair; constructor].
Qed.

Lemma runPhase_trace projectId provider phase project prev w :
  exists l,
    calls (snd (runPhase projectId provider phase project prev w)) = calls w ++ l
    /\ attempts_trace phase prev maxRetries l.
Proof.
  rewrite runPhase_unfold.
  destruct (generation_loop_trace provider phase prev maxRetries VUndef
              (inserted projectId phase w) (le_n _)) as (l & Hl & Ht).
  exists l. split; [|exact Ht].
  destruct (generation_loop _ _ _ _ _ _ (inserted projectId phase w)) as [[out|e] w2];
    cbn [snd] in *.
  - match goal with
    | |- context [select_phase ?a ?b] =>
        pose proof (select_phase_world a b) as S; destruct (select_phase a b) as [[r|e] w3]
    end; cbn [snd] in *; subst w3; exact Hl.
  - exact Hl.
Qed.



End RepairTheorems.

(** ** The first pass and its abort *)

Module AbortTheorems.
Import Orchestrator Observations CallAITheorems RunPhaseFacts Worlds.

Section WithParameters.

Variable schema_of : jsstring -> Schema.
Variable projectId : nat.
Variable provider : AIProvider.
Variable generatePrompts : list PlanningPhase -> M unit.

Abbreviation runPhase := (runPhase projectId provider).
Abbreviation firstPass := (firstPass schema_of projectId provider).
Abbreviation runAllPhases := (runAllPhases schema_of projectId provider generatePrompts).

Lemma project_status_update (s : ProjectStatus) (w : World) :
  project_status projectId (snd (update_project_status projectId s w))
  = option_map (fun _ => s) (project_status projectId w).
Proof.
  unfold update_project_status, modify, project_status.
  cbn [snd projects with_projects].
  induction (projects w) as [|p ps IH]; [reflexivity|].
  cbn [List.map List.find].
  destruct (Nat.eqb (p_id p) projectId) eqn:E.
  - cbn [p_id]. rewrite E. reflexivity.
  - rewrite E. exact IH.
Qed.

Lemma update_project_status_rows (s : ProjectStatus) (w : World) :
  planning_phases (snd (update_project_status projectId s w)) = planning_phases w.
Proof. reflexivity. Qed.

(** A first pass that throws stopped at one stage: the error is the one
    [runPhase] threw for that stage, the rows inserted are those of the
    stages up to it and of no later stage, the row of that stage is
    marked failed, and the project is left in status [Draft]. *)
Lemma firstPass_throw project phases cps w e w' :
  ids_fresh w ->
  firstPass project phases cps w = (Throw e, w') ->
  exists done phase rest cps1 w1 w2,
    phases = done ++ phase :: rest
    /\ runPhase phase project cps1 w1 = (Throw e, w2)
    /\ invoked w' = invoked w ++ List.map type (done ++ [phase])
    /\ (exists rows row, planning_phases w' = rows ++ [row]
          /\ phase_type row = type phase /\ status row = Failed)
    /\ project_status projectId w'
       = option_map (fun _ => Draft) (project_status projectId w).
Proof.
  revert cps w. induction phases as [|phase rest IH]; intros cps w Hfresh H.
  - discriminate.
  - cbn [Orchestrator.firstPass] in H. unfold bind at 1 in H.
    unfold notifyProgress at 1, modify at 1 in H.
    set (w0 := with_notifications _ w) in H.
    unfold bind at 1, try_catch at 1 in H.
    pose proof (runPhase_frame projectId provider phase project cps w0) as (F1 & F2 & F3).
    pose proof (runPhase_rows projectId provider phase project cps w0 Hfresh) as R.
    destruct (runPhase phase project cps w0) as [[result|e0] w1] eqn:Hrun; cbn [snd] in *.
    + destruct R as (_ & _ & _ & _ & Hfresh1).
      destruct (IH _ _ Hfresh1 H) as (done & ph & rest' & cps1 & wa & wb & -> & Hr & Hi & Hl & Hs).
      exists (phase :: done), ph, rest', cps1, wa, wb.
      split; [reflexivity|]. split; [exact Hr|]. split; [|split; [exact Hl|]].
      * rewrite Hi. unfold invoked. rewrite F3. cbn [List.map List.app].
        rewrite <- app_assoc. reflexivity.
      * rewrite Hs. unfold project_status. rewrite F1. reflexivity.
    + unfold bind, notifyProgress, modify, throw in H.
      cbn [fst snd] in H. injection H as <- <-.
      exists [], phase, rest, cps, w0, w1.
      split; [reflexivity|]. split; [exact Hrun|]. split; [|split].
      * unfold invoked. cbn [planning_phases with_projects with_notifications].
        rewrite F3. reflexivity.
      * destruct R as (Hrows & _).
        exists (planning_phases w0), (failed_from (new_row projectId phase w0)).
        cbn [planning_phases with_projects with_notifications]. rewrite Hrows.
        repeat split.
      * match goal with
        | |- project_status _ ?x = _ =>
            change x with (snd (update_project_status projectId Draft
                                  (with_notifications
                                     (notifications w1 ++
                                      [{| currentPhase := name phase;
                                          completedPhases := List.map phase_type cps;
                                          totalPhases := List.length (AGENT_PHASES schema_of);
                                          progress_error := Some (error_message e0) |}]) w1)))
        end.
        rewrite project_status_update. unfold project_status.
        cbn [projects with_notifications]. rewrite F1. reflexivity.
Qed.

(** The error of the last attempt. *)
Lemma last_attempt_invalid phase prev out response v w :
  parseJSONResponse (content response) = Some v ->
  valid (validateJSON v (schema phase)) = false ->
  after_generation provider phase prev (maxRetries - 1) out response w
  = (Throw (Err (str "JSON validation failed after 3 attempts: "
                 ++ join (str ", ") (errors (validateJSON v (schema phase))))), w).
Proof. intros Hp Hv. unfold after_generation. rewrite Hp, Hv. reflexivity. Qed.

Lemma last_attempt_unparsed phase prev out response w :
  parseJSONResponse (content response) = None ->
  after_generation provider phase prev (maxRetries - 1) out response w
  = (Throw (Err (str "Failed to parse JSON after 3 attempts: SyntaxError")), w).
Proof. intros Hp. unfold after_generation. rewrite Hp. reflexivity. Qed.

End WithParameters.

End AbortTheorems.

Module AbortSemantics.
Import Orchestrator Observations CallAITheorems RunPhaseFacts AbortTheorems Worlds Runs.

(** C1, as amended. When a stage fails for good during the first pass
    (its retry budget exhausted), [runAllPhases] rethrows the error of
    that stage; no later stage is invoked (the rows inserted are those
    of the stages up to the failing one, whose row is marked failed);
    the status of the project in the store is [Draft]; and when the last
    attempt parsed but did not validate, the error is the one whose
    message lists the validation errors of that last attempt (when it
    did not parse, the one that reports the parse failure). *)
Theorem abort_in_first_pass (schema_of : jsstring -> Schema) (projectId : nat)
  (provider : AIProvider) (generatePrompts : list PlanningPhase -> M unit)
  (w : World) (project : Project) (e : error) (w' : World) :
  List.find (fun p => Nat.eqb (p_id p) projectId) (projects w) = Some project ->
  ids_fresh w ->
  firstPass schema_of projectId provider project (AGENT_PHASES schema_of) []
    (snd (update_project_status projectId Planning w)) = (Throw e, w') ->
  runAllPhases schema_of projectId provider generatePrompts w = (Throw e, w')
  /\ (exists done phase rest cps w1 w2,
        AGENT_PHASES schema_of = done ++ phase :: rest
        /\ runPhase projectId provider phase project cps w1 = (Throw e, w2)
        /\ invoked w' = invoked w ++ List.map type (done ++ [phase])
        /\ exists rows row, planning_phases w' = rows ++ [row]
             /\ phase_type row = type phase /\ status row = Failed)
  /\ project_status projectId w' = Some Draft
  /\ (forall phase prev out response v w0,
        parseJSONResponse (content response) = Some v ->
        valid (validateJSON v (schema phase)) = false ->
        after_generation provider phase prev (maxRetries - 1) out response w0
        = (Throw (Err (str "JSON validation failed after 3 attempts: "
                       ++ join (str ", ") (errors (validateJSON v (schema phase))))), w0))
  /\ (forall phase prev out response w0,
        parseJSONResponse (content response) = None ->
        after_generation provider phase prev (maxRetries - 1) out response w0
        = (Throw (Err (str "Failed to parse JSON after 3 attempts: SyntaxError")), w0)).
Proof.
  intros Hfind Hfresh Hpass.
  assert (Hfresh1 : ids_fresh (snd (update_project_status projectId Planning w)))
    by exact Hfresh.
  destruct (firstPass_throw schema_of projectId provider project _ [] _ e w' Hfresh1 Hpass)
    as (done & phase & rest & cps & w1 & w2 & Hsplit & Hrun & Hinv & Hlast & Hstat).
  split; [|split; [|split; [|split]]].
  - unfold runAllPhases, bind at 1, get. rewrite Hfind.
    unfold bind at 1. unfold bind at 1.
    change (update_project_status projectId Planning w)
      with (Ok tt, snd (update_project_status projectId Planning w)).
    cbv iota. rewrite Hpass. reflexivity.
  - exists done, phase, rest, cps, w1, w2. repeat split; assumption.
  - rewrite Hstat, project_status_update. unfold project_status. rewrite Hfind. reflexivity.
  - intros. now apply last_attempt_invalid.
  - intros. now apply last_attempt_unparsed.
Qed.

Lemma abort_in_first_pass_witness :
  exists w',
    runAllPhases objects_only 0 openai no_prompts always_invalid
    = (Throw (Err (str "JSON validation failed after 3 attempts: / must be object")), w')
    /\ invoked w' = [str "competitor"]
    /\ project_status 0 w' = Some Draft.
Proof.
  pose (X := firstPass objects_only 0 openai draft_project (AGENT_PHASES objects_only) []
               (snd (update_project_status 0 Planning always_invalid))).
  assert (H : X = (Throw (Err (str "JSON validation failed after 3 attempts: / must be object")),
                   snd X)).
  { rewrite (surjective_pairing X) at 1. f_equal. }
  destruct (abort_in_first_pass objects_only 0 openai no_prompts always_invalid
              draft_project _ (snd X) eq_refl (Forall_nil _) H)
    as (Hrun & _ & Hs & _).
  exists (snd X). split; [exact Hrun|]. split; [vm_compute; reflexivity | exact Hs].
Defined.

(** C1, as stated, fails: a project that was [Completed] before the run
    is not given that status back when the first stage exhausts its
    three attempts; it is left in [Draft]. (Here the attempts fail to
    parse, and the error carries no validation error list.) *)
Lemma status_not_restored :
  let '(r, w') := runAllPhases accept_all 0 openai no_prompts rerun_of_completed in
  project_status 0 rerun_of_completed = Some Completed
  /\ r = Throw (Err (str "Failed to parse JSON after 3 attempts: SyntaxError"))
  /\ invoked w' = [str "competitor"]
  /\ project_status 0 w' = Some Draft.
Proof. vm_compute. repeat split; reflexivity. Qed.

(** A stage that exhausts its attempts after the first pass, in a
    re-run asked for by the checklist: the error propagates and the
    project stays in status [Planning]. *)
Example autofix_failure_leaves_planning :
  let '(r, w') := runAllPhases accept_all 0 openai no_prompts fails_in_autofix in
  r = Throw (Err (str "Failed to parse JSON after 3 attempts: SyntaxError"))
  /\ List.length (invoked w') = 13%nat
  /\ nth 12 (invoked w') [] = str "ui"
  /\ project_status 0 w' = Some Planning.
Proof. vm_compute. repeat split; reflexivity. Qed.

End AbortSemantics.

(** ** The decision ledger *)

Module LedgerFacts.
Import Orchestrator LedgerSpec.

Lemma Qeq_bool_trans_l (x y z : Q) :
  Qeq_bool x y = true -> Qeq_bool x z = Qeq_bool y z.
Proof.
  intros H. apply Qeq_bool_iff in H.
  destruct (Qeq_bool y z) eqn:E.
  - apply Qeq_bool_iff in E. apply Qeq_bool_iff. now rewrite H.
  - destruct (Qeq_bool x z) eqn:E'; [|reflexivity].
    apply Qeq_bool_iff in E'. rewrite H in E'. apply Qeq_bool_iff in E'. congruence.
Qed.

Lemma strict_eq_trans_l (a b c : value) :
  strict_eq a b = true -> strict_eq a c = strict_eq b c.
Proof.
  destruct a, b; simpl; try discriminate; intros H; destruct c; try reflexivity.
  - apply Bool.eqb_prop in H. now subst.
  - now apply Qeq_bool_trans_l.
  - apply JsStringFacts.eqb_eq in H. now subst.
Qed.

Lemma strict_eq_sym (a b : value) : strict_eq a b = strict_eq b a.
Proof.
  destruct a, b; simpl; try reflexivity.
  - now destruct b, b0.
  - destruct (Qeq_bool q q0) eqn:E, (Qeq_bool q0 q) eqn:E'; try reflexivity.
    + apply Qeq_bool_iff in E. symmetry in E. apply Qeq_bool_iff in E. congruence.
    + apply Qeq_bool_iff in E'. symmetry in E'. apply Qeq_bool_iff in E'. congruence.
  - destruct (JsString.eqb s s0) eqn:E.
    + apply JsStringFacts.eqb_eq in E. subst. now rewrite JsStringFacts.eqb_refl.
    + symmetry. apply JsStringFacts.eqb_neq. apply JsStringFacts.eqb_neq in E. congruence.
Qed.

Lemma strict_eq_truthy (a b : value) :
  strict_eq a b = true -> truthy a = truthy b.
Proof.
  destruct a, b; simpl; try discriminate; intros H; try reflexivity.
  - apply Bool.eqb_prop in H. now subst.
  - f_equal. now apply Qeq_bool_trans_l.
  - apply JsStringFacts.eqb_eq in H. now subst.
Qed.

Lemma map_set_In (m : list Decision) (entry b : Decision) :
  In b (map_set m entry) -> b = entry \/ In b m.
Proof.
  induction m as [|e m IH]; simpl.
  - intros [H|[]]; auto.
  - destruct (strict_eq (key e) (key entry)); simpl; intros [H|H]; auto.
    destruct (IH H); auto.
Qed.

Lemma map_set_distinct (m : list Decision) (entry : Decision) :
  distinct_keys m -> distinct_keys (map_set m entry).
Proof.
  unfold distinct_keys. induction 1 as [|e m He Hm IH]; simpl.
  - constructor; [constructor | constructor].
  - destruct (strict_eq (key e) (key entry)) eqn:E.
    + constructor; [|exact Hm].
      rewrite Forall_forall in *. intros b Hb.
      rewrite <- (strict_eq_trans_l _ _ (key b) E). now apply He.
    + constructor; [|exact IH].
      rewrite Forall_forall in *. intros b Hb.
      destruct (map_set_In _ _ _ Hb) as [-> | Hb']; [exact E | now apply He].
Qed.

Lemma dedupe_from_distinct (ds : list value) (m : list Decision) :
  distinct_keys m ->
  distinct_keys
    (fold_left (fun m d =>
                  if truthy (opt_member d "key")
                  then map_set m (opt_member d "key", opt_member d "value",
                                  opt_member d "reason")
                  else m) ds m).
Proof.
  revert m. induction ds as [|d ds IH]; intros m Hm; simpl; [exact Hm|].
  apply IH. destruct (truthy (opt_member d "key")); [now apply map_set_distinct | exact Hm].
Qed.

Lemma entry_for_map_set (k : value) (m : list Decision) (entry : Decision) :
  entry_for k (map_set m entry)
  = if strict_eq (key entry) k then Some entry else entry_for k m.
Proof.
  unfold entry_for. induction m as [|e m IH]; simpl.
  - destruct (strict_eq (key entry) k); reflexivity.
  - destruct (strict_eq (key e) (key entry)) eqn:E; simpl.
    + rewrite (strict_eq_trans_l _ _ k E).
      destruct (strict_eq (key entry) k); reflexivity.
    + destruct (strict_eq (key e) k) eqn:Ek.
      * destruct (strict_eq (key entry) k) eqn:Ek'; [|reflexivity].
        rewrite strict_eq_sym in Ek'.
        rewrite (strict_eq_trans_l _ _ (key entry) Ek) in E. congruence.
      * exact IH.
Qed.

Lemma dedupe_snoc (ds : list value) (d : value) :
  dedupe (ds ++ [d])
  = if truthy (opt_member d "key") then map_set (dedupe ds) (entry_of d) else dedupe ds.
Proof. unfold dedupe. rewrite fold_left_app. reflexivity. Qed.

(** The entry kept for a key is made of the last decision declaring it. *)
Lemma dedupe_last_wins (ds : list value) (k : value) :
  truthy k = true ->
  entry_for k (dedupe ds) = option_map entry_of (last_declared k ds).
Proof.
  intros Hk. unfold last_declared.
  induction ds as [|d ds IH] using rev_ind; [reflexivity|].
  rewrite dedupe_snoc, rev_app_distr. simpl.
  destruct (strict_eq (opt_member d "key") k) eqn:E.
  - rewrite (strict_eq_truthy _ _ E), Hk, entry_for_map_set.
    unfold entry_of at 1, key at 1. simpl. rewrite E. reflexivity.
  - destruct (truthy (opt_member d "key")); [|exact IH].
    rewrite entry_for_map_set. unfold entry_of at 1, key at 1. simpl. rewrite E. exact IH.
Qed.

Lemma gatherDecisions_app (a b : list PlanningPhase) :
  gatherDecisions (a ++ b) = gatherDecisions a ++ gatherDecisions b.
Proof.
  induction a as [|p a IH]; [reflexivity|].
  simpl. rewrite IH, app_assoc. reflexivity.
Qed.

(** A re-run takes the place of the earlier result of its type. *)
Lemma replace_in_place (l1 l2 : list PlanningPhase) (p r : PlanningPhase) :
  phase_type p = phase_type r ->
  Forall (fun q => phase_type q <> phase_type r) l1 ->
  replace_or_push (phase_type r) r (l1 ++ p :: l2) = l1 ++ r :: l2.
Proof.
  intros Hp Hl. induction Hl as [|q l1 Hq _ IH]; simpl.
  - rewrite Hp, JsStringFacts.eqb_refl. reflexivity.
  - apply JsStringFacts.eqb_neq in Hq. rewrite Hq, IH. reflexivity.
Qed.

End LedgerFacts.

(** ** Re-runs and the convergence cycle *)

Module ConvergenceFacts.
Import Orchestrator Observations Convergence CallAITheorems RunPhaseFacts.

Section WithParameters.

Variable schema_of : jsstring -> Schema.
Variable projectId : nat.
Variable provider : AIProvider.

Abbreviation rerun := (rerun projectId provider).
Abbreviation targetedReruns := (targetedReruns schema_of projectId provider).
Abbreviation applyRevisions := (applyRevisions schema_of projectId provider).
Abbreviation applyCriticRevisions := (applyCriticRevisions schema_of projectId provider).
Abbreviation applyQualityChecklist := (applyQualityChecklist schema_of projectId provider).

(** A re-run invokes the stage found, and nothing when none was found. *)
Lemma rerun_invoked found project cps w :
  invoked (snd (rerun found project cps w)) = invoked w ++ stage_of found.
Proof.
  destruct found as [phase| |]; cbn [Orchestrator.rerun stage_of].
  - unfold bind.
    pose proof (runPhase_frame projectId provider phase project cps w) as (_ & _ & F).
    destruct (runPhase projectId provider phase project cps w) as [[r|e] w1];
      cbn [snd] in *; exact F.
  - unfold bind, insert_phase, throw. cbn [snd]. now rewrite app_nil_r.
  - unfold ret. cbn [snd]. now rewrite app_nil_r.
Qed.



Lemma targetedReruns_cons project r revs cps w :
  targetedReruns project (r :: revs) cps w =
  match targetType r with
  | Throw e => (Throw e, w)
  | Ok t =>
      match rerun (byType schema_of t) project cps w with
      | (Ok cps1, w1) => targetedReruns project revs cps1 w1
      | (Throw e, w1) => (Throw e, w1)
      end
  end.
Proof.
  cbn [Orchestrator.targetedReruns]. unfold bind, lift.
  destruct (targetType r); reflexivity.
Qed.


Lemma escalatesb_false out :
  escalatesb out = false <-> settled out.
Proof.
  unfold escalatesb, settled, Qlt_bool.
  rewrite negb_false_iff, andb_true_iff, Nat.eqb_eq, negb_true_iff.
  rewrite List.length_zero_iff_nil.
  split; intros [H1 H2]; (split; [exact H1|]).
  - apply Qnot_le_lt. intros H. apply Qle_bool_iff in H. congruence.
  - destruct (Qle_bool (5 # 10) (severityIndex out)) eqn:E; [|reflexivity].
    apply Qle_bool_iff in E. exfalso. now apply (Qlt_not_le _ _ H2).
Qed.

Lemma escalatesb_true out :
  escalatesb out = true <-> escalates out.
Proof.
  unfold escalatesb, escalates, Qlt_bool.
  rewrite negb_true_iff, andb_false_iff, Nat.eqb_neq, negb_false_iff.
  rewrite List.length_zero_iff_nil, Qle_bool_iff. reflexivity.
Qed.

(** [applyCriticRevisions], by cases on the first output of the critic. *)
Lemma applyCriticRevisions_settled project cps critic :
  List.find (fun p => JsString.eqb (phase_type p) (str "critic")) cps = Some critic ->
  settled (output critic) ->
  forall w, applyCriticRevisions project cps w = (Ok cps, w).
Proof.
  intros Hf Hs w. unfold Orchestrator.applyCriticRevisions. rewrite Hf.
  destruct (truthy (output critic)); [|reflexivity]. cbn [negb].
  apply escalatesb_false in Hs. unfold escalatesb in Hs.
  apply negb_false_iff in Hs. rewrite Hs. reflexivity.
Qed.

Lemma applyCriticRevisions_escalates project cps critic :
  List.find (fun p => JsString.eqb (phase_type p) (str "critic")) cps = Some critic ->
  truthy (output critic) = true ->
  escalates (output critic) ->
  forall w,
    applyCriticRevisions project cps w
    = (cps1 <- targetedReruns project (revisionRequests (output critic)) cps ;;
       cps2 <- rerun (byType schema_of (str "critic")) project cps1 ;;
       rerun (byType schema_of (str "composer")) project cps2) w.
Proof.
  intros Hf Ht He w. unfold Orchestrator.applyCriticRevisions. rewrite Hf, Ht.
  cbn [negb]. apply escalatesb_true in He. unfold escalatesb in He.
  apply negb_true_iff in He. rewrite He. reflexivity.
Qed.

Lemma cycle_unfold project revs cps w :
  (cps1 <- targetedReruns project revs cps ;;
   cps2 <- rerun (byType schema_of (str "critic")) project cps1 ;;
   rerun (byType schema_of (str "composer")) project cps2) w
  = match targetedReruns project revs cps w with
    | (Throw e, w1) => (Throw e, w1)
    | (Ok cps1, w1) =>
        match rerun (byType schema_of (str "critic")) project cps1 w1 with
        | (Throw e, w2) => (Throw e, w2)
        | (Ok cps2, w2) => rerun (byType schema_of (str "composer")) project cps2 w2
        end
    end.
Proof. reflexivity. Qed.


End WithParameters.

End ConvergenceFacts.

Module ConvergenceTheorems.
Import Orchestrator Observations Convergence ConvergenceFacts Worlds LedgerRun CriticRuns.


(** The critic, run again, reports severity 0.9 and a new request: the
    controller still stops after the composer. *)
Example severe_recritic_is_not_reread :
  let cps := [system_first; data_later; critic_first] in
  let '(r, w') := applyCriticRevisions accept_all 0 openai draft_project cps critic_stays_severe in
  (exists cps', r = Ok cps'
     /\ List.map (fun p => severityIndex (output p))
          (List.filter (fun p => JsString.eqb (phase_type p) (str "critic")) cps')
        = [9 # 10])
  /\ invoked w' = invoked critic_stays_severe ++ [str "system"; str "critic"; str "composer"]
  /\ fetches w' = 3%nat.
Proof. vm_compute. split; [eexists; split; reflexivity | split; reflexivity]. Qed.

(** C5, as amended. With the critic's first output at hand,
    [applyCriticRevisions] goes on to the targeted re-runs, the critic
    and the composer exactly when the request list is not empty or the
    severity is at least 0.5; when the list is empty and the severity is
    below 0.5 it returns at once, leaving the results and the world as
    they are: no stage is run again, the composer included. *)
Theorem critic_guard (schema_of : jsstring -> Schema) (projectId : nat)
  (provider : AIProvider) (project : Project) (cps : list PlanningPhase)
  (critic : PlanningPhase) (w : World) :
  List.find (fun p => JsString.eqb (phase_type p) (str "critic")) cps = Some critic ->
  truthy (output critic) = true ->
  (escalates (output critic) ->
     applyCriticRevisions schema_of projectId provider project cps w
     = (cps1 <- targetedReruns schema_of projectId provider project
                  (revisionRequests (output critic)) cps ;;
        cps2 <- rerun projectId provider (byType schema_of (str "critic")) project cps1 ;;
        rerun projectId provider (byType schema_of (str "composer")) project cps2) w
     /\ cycle_stages schema_of cps
        = targets schema_of (revisionRequests (output critic))
          ++ [str "critic"; str "composer"])
  /\ (settled (output critic) ->
        applyCriticRevisions schema_of projectId provider project cps w = (Ok cps, w)
        /\ cycle_stages schema_of cps = [])
  /\ (escalates (output critic) \/ settled (output critic))
  /\ ~ (escalates (output critic) /\ settled (output critic)).
Proof.
  intros Hf Ht. split; [|split; [|split]].
  - intros He. split; [now apply applyCriticRevisions_escalates|].
    unfold cycle_stages. rewrite Hf, Ht.
    apply escalatesb_true in He. rewrite He. reflexivity.
  - intros Hs. split; [now eapply applyCriticRevisions_settled; eauto|].
    unfold cycle_stages. rewrite Hf, Ht.
    apply escalatesb_false in Hs. rewrite Hs. reflexivity.
  - destruct (escalatesb (output critic)) eqn:E.
    + left. now apply escalatesb_true.
    + right. now apply escalatesb_false.
  - intros [He Hs]. apply escalatesb_true in He. apply escalatesb_false in Hs. congruence.
Qed.

Lemma critic_guard_witness :
  applyCriticRevisions accept_all 0 openai draft_project
    [critic_settled; composer_row] (after_first_pass critic_settled)
  = (Ok [critic_settled; composer_row], after_first_pass critic_settled)
  /\ cycle_stages accept_all [system_first; data_later; critic_first]
     = [str "system"; str "critic"; str "composer"].
Proof.
  split.
  - apply (critic_guard accept_all 0 openai draft_project [critic_settled; composer_row]
             critic_settled (after_first_pass critic_settled) eq_refl eq_refl).
    split; [reflexivity|]. reflexivity.
  - apply (critic_guard accept_all 0 openai draft_project
             [system_first; data_later; critic_first] critic_first before_revisions
             eq_refl eq_refl).
    left. discriminate.
Defined.

(** C5, as stated, fails: with no request and severity 0.2 the
    controller does not go on to the recomposition; it invokes no stage
    and makes no call, and the composer's result is the one of the
    first pass. *)
Lemma settled_critic_skips_recomposition :
  let cps := [critic_settled; composer_row] in
  let '(r, w') :=
    applyCriticRevisions accept_all 0 openai draft_project cps (after_first_pass critic_settled) in
  revisionRequests (output critic_settled) = []
  /\ Qlt_bool (severityIndex (output critic_settled)) (5 # 10) = true
  /\ r = Ok cps
  /\ invoked w' = invoked (after_first_pass critic_settled)
  /\ calls w' = []
  /\ List.filter (fun t => JsString.eqb t (str "composer")) (invoked w') = [str "composer"].
Proof. vm_compute. repeat split; reflexivity. Qed.

(** C10, where the code does as the claim says: the request for the
    unknown stage is skipped and the next request is processed. *)
Example unknown_target_is_skipped :
  let cps := [critic_unknown_target; composer_row] in
  let '(r, w') :=
    applyCriticRevisions accept_all 0 openai draft_project cps
      (after_first_pass critic_unknown_target) in
  (exists cps', r = Ok cps')
  /\ invoked w' = invoked (after_first_pass critic_unknown_target)
                  ++ [str "data"; str "critic"; str "composer"].
Proof. vm_compute. split; [eexists; reflexivity | reflexivity]. Qed.

(** C10. A request whose lower-cased target finds nothing in [byType]
    is skipped by both loops, which go on with the requests that follow.
    At the failing input the target [constructor] is not a stage type,
    yet [byType] finds the member objects inherit under that name: the
    request is not skipped, an error is raised, and the request for the
    data stage that follows is never processed. *)
Theorem inherited_target_is_not_skipped :
  (forall schema_of projectId provider project r t revs cps w,
      targetType r = Ok t ->
      byType schema_of t = Missing ->
      targetedReruns schema_of projectId provider project (r :: revs) cps w
      = targetedReruns schema_of projectId provider project revs cps w)
  /\ (forall schema_of projectId provider project rev revs cps w,
        byType schema_of (toLowerCase (QualityChecklist.phase rev)) = Missing ->
        applyRevisions schema_of projectId provider project (rev :: revs) cps w
        = applyRevisions schema_of projectId provider project revs cps w)
  /\ (let cps := [critic_inherited_target; composer_row] in
      let '(r, w') :=
        applyCriticRevisions accept_all 0 openai draft_project cps
          (after_first_pass critic_inherited_target) in
      existsb (JsString.eqb (str "constructor")) (List.map type (AGENT_PHASES accept_all))
      = false
      /\ List.map targetType (revisionRequests (output critic_inherited_target))
         = [Ok (str "constructor"); Ok (str "data")]
      /\ byType accept_all (str "constructor") = Inherited
      /\ r = Throw (PostgrestError (str "23502"))
      /\ invoked w' = invoked (after_first_pass critic_inherited_target)).
Proof.
  split; [|split].
  - intros schema_of projectId provider project r t revs cps w Ht Hm.
    rewrite targetedReruns_cons, Ht, Hm. reflexivity.
  - intros schema_of projectId provider project rev revs cps w Hm.
    cbn [applyRevisions]. rewrite Hm. reflexivity.
  - vm_compute. repeat split; reflexivity.
Qed.

End ConvergenceTheorems.

Module LedgerTheorems.
Import Orchestrator Observations LedgerSpec LedgerFacts Worlds LedgerRun Build.

(** What the fold does: the ledger has at most one entry per key; the
    entry kept for a key is made of the last decision declaring it in
    the order of the result list; and a re-run takes the place its stage
    had in that list, so that its decisions are folded before those of
    the results that follow it, whenever those were completed. *)
Lemma fold_keeps_last_in_list :
  (forall previousPhases, distinct_keys (extractDecisionLedger previousPhases))
  /\ (forall previousPhases k,
        truthy k = true ->
        entry_for k (extractDecisionLedger previousPhases)
        = option_map entry_of (last_declared k (gatherDecisions previousPhases)))
  /\ (forall l1 p l2 r,
        phase_type p = phase_type r ->
        Forall (fun q => phase_type q <> phase_type r) l1 ->
        replace_or_push (phase_type r) r (l1 ++ p :: l2) = l1 ++ r :: l2
        /\ gatherDecisions (l1 ++ r :: l2)
           = gatherDecisions l1 ++ gatherDecisions [r] ++ gatherDecisions l2).
Proof.
  split; [|split].
  - intros prev. unfold extractDecisionLedger, dedupe.
    apply dedupe_from_distinct. constructor.
  - intros prev k Hk. unfold extractDecisionLedger. now apply dedupe_last_wins.
  - intros l1 p l2 r Hp Hl. split; [now apply replace_in_place|].
    rewrite gatherDecisions_app.
    change (r :: l2) with ([r] ++ l2). rewrite gatherDecisions_app. reflexivity.
Qed.

(** C4. What the code does: the ledger has at most one entry per key,
    made of the last decision declaring the key in the order of the
    result list. At the failing input the system stage is run again
    after the data stage had completed, and declares [auth = z]: its new
    result is the most recently completed one that declares the key.
    The ledger presented afterwards to the critic and to the composer
    has a single entry for [auth], but it is [auth = y], the entry of
    the data stage: the re-run was put back at the place of the system
    stage, before the data stage. *)
Theorem most_recently_completed_does_not_win :
  (forall previousPhases,
      distinct_keys (extractDecisionLedger previousPhases)
      /\ forall k,
          truthy k = true ->
          entry_for k (extractDecisionLedger previousPhases)
          = option_map entry_of (last_declared k (gatherDecisions previousPhases)))
  /\ (let cps := [system_first; data_later; critic_first] in
      let '(r, w') :=
        applyCriticRevisions accept_all 0 openai draft_project cps before_revisions in
      (exists system_again critic_again composer_run,
          r = Ok [system_again; data_later; critic_again; composer_run]
          /\ (id data_later < id system_again)%nat
          /\ gatherDecisions [system_again] = [decision "auth" "z" "revised"])
      /\ List.map (fun c => (call_stage c, ledger_presented c)) (calls w')
         = [ (str "system", [entry_of (decision "auth" "y" "data stage")]);
             (str "critic", [entry_of (decision "auth" "y" "data stage")]);
             (str "composer", [entry_of (decision "auth" "y" "data stage")]) ]).
Proof.
  split.
  - intros prev. split; [apply fold_keeps_last_in_list|].
    intros k Hk. now apply fold_keeps_last_in_list.
  - vm_compute. split; [|reflexivity].
    do 3 eexists. split; [reflexivity|]. split; [|reflexivity].
    repeat constructor.
Qed.

End LedgerTheorems.

(** ** One result per stage type *)

Module ResultFacts.
Import Orchestrator Observations CallAITheorems RunPhaseFacts ConvergenceFacts.

Lemma replace_or_push_In t r l x :
  In x (List.map phase_type (replace_or_push t r l)) ->
  x = phase_type r \/ In x (List.map phase_type l).
Proof.
  induction l as [|p l IH]; simpl.
  - intros [H|[]]; auto.
  - destruct (JsString.eqb (phase_type p) t); simpl; intros [H|H]; auto.
    destruct (IH H); auto.
Qed.

Lemma replace_or_push_NoDup t r l :
  phase_type r = t ->
  NoDup (List.map phase_type l) ->
  NoDup (List.map phase_type (replace_or_push t r l)).
Proof.
  intros Hr. subst t. induction l as [|p l IH]; simpl; intros H.
  - constructor; [intros [] | constructor].
  - inversion H as [|x xs Hx Hxs]; subst.
    destruct (JsString.eqb (phase_type p) (phase_type r)) eqn:E; simpl.
    + apply JsStringFacts.eqb_eq in E. rewrite <- E. now constructor.
    + constructor; [|now apply IH].
      intros Hin. apply replace_or_push_In in Hin as [Hin|Hin]; [|contradiction].
      apply JsStringFacts.eqb_neq in E. congruence.
Qed.

(** The result of the given type is the new one, and only it. *)
Lemma replace_or_push_result t r l :
  phase_type r = t ->
  NoDup (List.map phase_type l) ->
  In r (replace_or_push t r l)
  /\ forall p, In p (replace_or_push t r l) -> phase_type p = t -> p = r.
Proof.
  intros Hr. subst t. induction l as [|p l IH]; simpl; intros H.
  - split; [auto|]. intros q [<-|[]] _; reflexivity.
  - inversion H as [|x xs Hx Hxs]; subst.
    destruct (JsString.eqb (phase_type p) (phase_type r)) eqn:E; simpl.
    + split; [auto|]. intros q [<-|Hq] Hq'; [reflexivity|].
      apply JsStringFacts.eqb_eq in E. exfalso. apply Hx.
      rewrite E, <- Hq'. now apply in_map.
    + destruct (IH Hxs) as [Hin Huniq]. split; [auto|].
      intros q [<-|Hq] Hq'; [|now apply Huniq].
      apply JsStringFacts.eqb_neq in E. congruence.
Qed.

Section WithParameters.

Variable schema_of : jsstring -> Schema.
Variable projectId : nat.
Variable provider : AIProvider.

Abbreviation runPhase := (runPhase projectId provider).
Abbreviation rerun := (rerun projectId provider).
Abbreviation targetedReruns := (targetedReruns schema_of projectId provider).
Abbreviation applyRevisions := (applyRevisions schema_of projectId provider).
Abbreviation applyCriticRevisions := (applyCriticRevisions schema_of projectId provider).
Abbreviation applyQualityChecklist := (applyQualityChecklist schema_of projectId provider).
Abbreviation firstPass := (firstPass schema_of projectId provider).

Lemma rerun_stage project phase cps w cps' w' :
  ids_fresh w ->
  rerun (Stage phase) project cps w = (Ok cps', w') ->
  exists result,
    runPhase phase project cps w = (Ok result, w')
    /\ cps' = replace_or_push (type phase) result cps
    /\ phase_type result = type phase
    /\ status result = PhaseCompleted
    /\ planning_phases w' = planning_phases w ++ [result]
    /\ ids_fresh w'.
Proof.
  intros Hfresh. cbn [Orchestrator.rerun]. unfold bind.
  pose proof (runPhase_rows projectId provider phase project cps w Hfresh) as R.
  destruct (runPhase phase project cps w) as [[result|e] w1]; [|discriminate].
  unfold ret. intros H; injection H as <- <-.
  destruct R as (Hrows & _ & Ht & Hs & Hf).
  exists result. repeat split; assumption.
Qed.

Lemma rerun_one_per_type project found cps w cps' w' :
  ids_fresh w -> one_per_type cps ->
  rerun found project cps w = (Ok cps', w') ->
  one_per_type cps' /\ ids_fresh w'.
Proof.
  intros Hfresh Hnd H. destruct found as [phase| |].
  - destruct (rerun_stage project phase cps w cps' w' Hfresh H)
      as (result & _ & -> & Ht & _ & _ & Hf).
    split; [now apply replace_or_push_NoDup | exact Hf].
  - discriminate.
  - injection H as <- <-. auto.
Qed.

Lemma targetedReruns_one_per_type project revs cps w cps' w' :
  ids_fresh w -> one_per_type cps ->
  targetedReruns project revs cps w = (Ok cps', w') ->
  one_per_type cps' /\ ids_fresh w'.
Proof.
  revert cps w. induction revs as [|r revs IH]; intros cps w Hfresh Hnd H.
  - injection H as <- <-. auto.
  - rewrite targetedReruns_cons in H.
    destruct (targetType r) as [t|e]; [|discriminate].
    destruct (rerun (byType schema_of t) project cps w) as [[cps1|e] w1] eqn:Hr;
      [|discriminate].
    destruct (rerun_one_per_type project _ cps w cps1 w1 Hfresh Hnd Hr) as [Hnd1 Hf1].
    exact (IH cps1 w1 Hf1 Hnd1 H).
Qed.

Lemma applyRevisions_one_per_type project revs cps w cps' w' :
  ids_fresh w -> one_per_type cps ->
  applyRevisions project revs cps w = (Ok cps', w') ->
  one_per_type cps' /\ ids_fresh w'.
Proof.
  revert cps w. induction revs as [|r revs IH]; intros cps w Hfresh Hnd H.
  - injection H as <- <-. auto.
  - cbn [Orchestrator.applyRevisions] in H. unfold bind at 1 in H.
    destruct (rerun _ project cps w) as [[cps1|e] w1] eqn:Hr; [|discriminate].
    destruct (rerun_one_per_type project _ cps w cps1 w1 Hfresh Hnd Hr) as [Hnd1 Hf1].
    exact (IH cps1 w1 Hf1 Hnd1 H).
Qed.

Lemma applyQualityChecklist_one_per_type project cps w cps' w' :
  ids_fresh w -> one_per_type cps ->
  applyQualityChecklist project cps w = (Ok cps', w') ->
  one_per_type cps' /\ ids_fresh w'.
Proof.
  intros Hfresh Hnd. unfold Orchestrator.applyQualityChecklist, bind, lift.
  destruct (QualityChecklist.runQualityChecklist cps) as [checklist|e]; [|discriminate].
  destruct (QualityChecklist.status checklist).
  - intros H; injection H as <- <-. auto.
  - now apply applyRevisions_one_per_type.
Qed.

Lemma applyCriticRevisions_one_per_type project cps w cps' w' :
  ids_fresh w -> one_per_type cps ->
  applyCriticRevisions project cps w = (Ok cps', w') ->
  one_per_type cps' /\ ids_fresh w'.
Proof.
  intros Hfresh Hnd. unfold Orchestrator.applyCriticRevisions.
  destruct (List.find _ cps) as [critic|]; [|intros H; injection H as <- <-; auto].
  destruct (negb (truthy (output critic))); [intros H; injection H as <- <-; auto|].
  destruct (_ && _); [intros H; injection H as <- <-; auto|].
  rewrite cycle_unfold.
  destruct (targetedReruns project _ cps w) as [[cps1|e] w1] eqn:H1; [|discriminate].
  destruct (targetedReruns_one_per_type project _ cps w cps1 w1 Hfresh Hnd H1) as [N1 F1].
  destruct (rerun _ project cps1 w1) as [[cps2|e] w2] eqn:H2; [|discriminate].
  destruct (rerun_one_per_type project _ cps1 w1 cps2 w2 F1 N1 H2) as [N2 F2].
  intros H3. exact (rerun_one_per_type project _ cps2 w2 cps' w' F2 N2 H3).
Qed.

Lemma firstPass_types project phases cps w cps' w' :
  ids_fresh w ->
  firstPass project phases cps w = (Ok cps', w') ->
  List.map phase_type cps' = List.map phase_type cps ++ List.map type phases
  /\ ids_fresh w'.
Proof.
  revert cps w. induction phases as [|phase rest IH]; intros cps w Hfresh H.
  - injection H as <- <-. rewrite app_nil_r. auto.
  - cbn [Orchestrator.firstPass] in H. unfold bind at 1 in H.
    unfold notifyProgress at 1, modify at 1 in H.
    set (w0 := with_notifications _ w) in H.
    unfold bind at 1, try_catch at 1 in H.
    pose proof (runPhase_rows projectId provider phase project cps w0 Hfresh) as R.
    destruct (runPhase phase project cps w0) as [[result|e0] w1].
    + destruct R as (_ & _ & Ht & _ & Hf1).
      destruct (IH _ _ Hf1 H) as [Hm Hf]. split; [|exact Hf].
      rewrite Hm, map_app. cbn [List.map]. rewrite Ht, <- app_assoc. reflexivity.
    + unfold bind, notifyProgress, modify, throw in H. discriminate.
Qed.

End WithParameters.

End ResultFacts.

Module ResultTheorems.
Import Orchestrator Observations RunPhaseFacts ResultFacts Worlds LedgerRun Inputs.

Lemma catalogue_types_distinct schema_of :
  NoDup (List.map type (AGENT_PHASES schema_of)).
Proof.
  cbv [AGENT_PHASES List.map type fst].
  repeat (constructor; [cbv; intuition discriminate|]). constructor.
Qed.

(** C9, as amended. In the in-memory collection of results there is at
    most one result per stage type, after the first pass and after each
    of the two revision passes; a re-run puts its result in the place of
    the earlier result of its type (or at the end when there was none),
    and that result is then the only one of its type. The store, for its
    part, keeps every row it had and gains a row for the re-run. *)
Theorem one_result_per_type_in_memory (schema_of : jsstring -> Schema) (projectId : nat)
  (provider : AIProvider) (project : Project) (w : World) :
  ids_fresh w ->
  (forall cps w1,
      firstPass schema_of projectId provider project (AGENT_PHASES schema_of) [] w
      = (Ok cps, w1) ->
      one_per_type cps
      /\ forall cps2 w2,
          applyQualityChecklist schema_of projectId provider project cps w1 = (Ok cps2, w2) ->
          one_per_type cps2
          /\ forall cps3 w3,
              applyCriticRevisions schema_of projectId provider project cps2 w2
              = (Ok cps3, w3) ->
              one_per_type cps3)
  /\ (forall phase cps cps' w',
        one_per_type cps ->
        rerun projectId provider (Stage phase) project cps w = (Ok cps', w') ->
        exists result,
          cps' = replace_or_push (type phase) result cps
          /\ phase_type result = type phase
          /\ status result = PhaseCompleted
          /\ In result cps'
          /\ (forall p, In p cps' -> phase_type p = type phase -> p = result)
          /\ one_per_type cps'
          /\ planning_phases w' = planning_phases w ++ [result]).
Proof.
  intros Hfresh. split.
  - intros cps w1 H1.
    destruct (firstPass_types schema_of projectId provider project _ [] w cps w1 Hfresh H1)
      as [Ht F1].
    assert (N1 : one_per_type cps).
    { unfold one_per_type. rewrite Ht. apply catalogue_types_distinct. }
    split; [exact N1|]. intros cps2 w2 H2.
    destruct (applyQualityChecklist_one_per_type schema_of projectId provider project
                cps w1 cps2 w2 F1 N1 H2) as [N2 F2].
    split; [exact N2|]. intros cps3 w3 H3.
    exact (proj1 (applyCriticRevisions_one_per_type schema_of projectId provider project
                    cps2 w2 cps3 w3 F2 N2 H3)).
  - intros phase cps cps' w' Hnd H.
    destruct (rerun_stage projectId provider project phase cps w cps' w' Hfresh H)
      as (result & _ & -> & Ht & Hs & Hrows & _).
    exists result.
    destruct (replace_or_push_result (type phase) result cps Ht Hnd) as [Hin Huniq].
    repeat split; try assumption.
    now apply replace_or_push_NoDup.
Qed.

Lemma one_result_per_type_in_memory_witness :
  let X := rerun 0 openai (Stage system_stage) draft_project
             [system_first; data_later; critic_first] before_revisions in
  one_per_type (match fst X with Ok cps' => cps' | Throw _ => [] end)
  /\ exists result,
       phase_type result = str "system"
       /\ planning_phases (snd X) = [system_first; data_later; critic_first; result].
Proof.
  intros X.
  assert (Hfresh : ids_fresh before_revisions) by (repeat constructor).
  assert (Hnd : one_per_type [system_first; data_later; critic_first]).
  { repeat (constructor; [cbv; intuition discriminate|]). constructor. }
  assert (HX : X = (Ok (match fst X with Ok l => l | Throw _ => [] end), snd X)).
  { rewrite (surjective_pairing X) at 1. f_equal. }
  destruct (proj2 (one_result_per_type_in_memory accept_all 0 openai draft_project
                     before_revisions Hfresh)
              system_stage [system_first; data_later; critic_first] _ _ Hnd HX)
    as (result & _ & Ht & _ & _ & _ & Hnd' & Hrows).
  split; [exact Hnd'|]. exists result. split; [exact Ht | exact Hrows].
Defined.

(** C9, as stated, fails in the store: after the targeted re-run of the
    system stage and the re-run of the critic, the table holds two
    completed rows of type [system] and two of type [critic] for the
    same project. *)
Lemma second_record_of_same_type :
  let cps := [system_first; data_later; critic_first] in
  let w' := snd (applyCriticRevisions accept_all 0 openai draft_project cps before_revisions) in
  List.map (fun r => (id r, project_id r, phase_type r, status r)) (planning_phases w')
  = [ (0, 0, str "system", PhaseCompleted); (1, 0, str "data", PhaseCompleted);
      (2, 0, str "critic", PhaseCompleted); (3, 0, str "system", PhaseCompleted);
      (4, 0, str "critic", PhaseCompleted); (5, 0, str "composer", PhaseCompleted) ]%nat.
Proof. vm_compute. reflexivity. Qed.

End ResultTheorems.

(** ** The backend call: outcomes and bounds *)

Module CallAIOutcomes.
Import Worlds Observations Outcomes.

(** One iteration of the retry loop. *)
Lemma callAI_loop_step (timeoutMs : N) (n r : nat) (lastError : option error) (w : World) :
  callAI_loop timeoutMs n (S r) lastError w =
  let w1 := with_fetches (S (fetches w)) w in
  match backend w (fetches w) with
  | Responded c m => (Ok {| content := c; model := m |}, w1)
  | failure =>
      let err := normalize_failure timeoutMs failure in
      if (n - S r <? n - 1)%nat then
        let d := (N.of_nat (n - S r + 1) * 1000
                  + random w (List.length (sleeps w)) mod 250)%N in
        callAI_loop timeoutMs n r (Some err) (with_sleeps (sleeps w ++ [d]) w1)
      else callAI_loop timeoutMs n r (Some err) w1
  end.
Proof.
  cbn [callAI_loop]. unfold bind at 1, fetch. cbv zeta.
  destruct (backend w (fetches w)); try reflexivity;
    destruct (Nat.ltb (n - S r) (n - 1)); reflexivity.
Qed.

Lemma callAI_loop_success (timeoutMs : N) (n : nat) (c m : jsstring) (k : nat) :
  forall (r : nat) (lastError : option error) (w : World),
    (r <= n)%nat -> (k < r)%nat ->
    (forall i, (i < k)%nat -> failed (backend w (fetches w + i)) = true) ->
    backend w (fetches w + k) = Responded c m ->
    exists w',
      callAI_loop timeoutMs n r lastError w = (Ok {| content := c; model := m |}, w')
      /\ fetches w' = (fetches w + k + 1)%nat
      /\ exists ds, sleeps w' = sleeps w ++ ds /\ List.length ds = k.
Proof.
  induction k as [|k IH]; intros r lastError w Hr Hk Hfail Hok.
  - destruct r as [|r]; [lia|].
    rewrite callAI_loop_step. cbv zeta.
    rewrite Nat.add_0_r in Hok. rewrite Hok.
    eexists. split; [reflexivity|]. cbn [fetches with_fetches sleeps].
    split; [lia|]. exists []. rewrite app_nil_r. auto.
  - destruct r as [|r]; [lia|].
    rewrite callAI_loop_step. cbv zeta.
    pose proof (Hfail 0%nat ltac:(lia)) as H0. rewrite Nat.add_0_r in H0.
    assert (L : (n - S r <? n - 1)%nat = true) by (apply Nat.ltb_lt; lia).
    rewrite L.
    assert (Hnext : forall e,
      exists w',
        callAI_loop timeoutMs n r (Some e)
          (with_sleeps
             (sleeps w ++ [(N.of_nat (n - S r + 1) * 1000
                            + random w (List.length (sleeps w)) mod 250)%N])
             (with_fetches (S (fetches w)) w))
        = (Ok {| content := c; model := m |}, w')
        /\ fetches w' = (fetches w + S k + 1)%nat
        /\ exists ds, sleeps w' = sleeps w ++ ds /\ List.length ds = S k).
    { intros e.
      match goal with
      | |- context [callAI_loop _ _ _ _ ?w2] =>
          destruct (IH r (Some e) w2) as (w' & Hrun & Hf & ds & Hs & Hl)
      end.
      - lia.
      - lia.
      - intros i Hi. cbn [backend fetches with_sleeps with_fetches].
        replace (S (fetches w) + i)%nat with (fetches w + S i)%nat by lia.
        apply Hfail. lia.
      - cbn [backend fetches with_sleeps with_fetches].
        replace (S (fetches w) + k)%nat with (fetches w + S k)%nat by lia. exact Hok.
      - exists w'. split; [exact Hrun|].
        cbn [fetches sleeps with_sleeps with_fetches] in *.
        split; [lia|].
        eexists (_ :: ds). rewrite Hs, <- app_assoc. split; [reflexivity|].
        cbn [List.length]. lia. }
    destruct (backend w (fetches w)) as [c0 m0|t| |e0]; [discriminate| | |]; apply Hnext.
Qed.

Lemma callAI_loop_exhausted (timeoutMs : N) (n : nat) :
  forall (r : nat) (lastError : option error) (w : World),
    (r <= n)%nat ->
    (forall i, (i < r)%nat -> failed (backend w (fetches w + i)) = true) ->
    exists w',
      callAI_loop timeoutMs n r lastError w
      = (Throw (match r with
                | O => match lastError with
                       | Some e => e
                       | None => Err (str "Failed to call AI after retries")
                       end
                | S r' => normalize_failure timeoutMs (backend w (fetches w + r'))
                end), w')
      /\ fetches w' = (fetches w + r)%nat
      /\ exists ds, sleeps w' = sleeps w ++ ds /\ List.length ds = (r - 1)%nat.
Proof.
  induction r as [|r IH]; intros lastError w Hr Hfail.
  - cbn [callAI_loop]. unfold throw. eexists. split; [reflexivity|].
    split; [lia|]. exists []. rewrite app_nil_r. auto.
  - rewrite callAI_loop_step. cbv zeta.
    pose proof (Hfail 0%nat ltac:(lia)) as H0. rewrite Nat.add_0_r in H0.
    set (err := normalize_failure timeoutMs (backend w (fetches w))).
    assert (Hres : forall w2, backend w2 = backend w -> fetches w2 = S (fetches w) ->
              match r with
              | O => err
              | S r' => normalize_failure timeoutMs (backend w2 (fetches w2 + r'))
              end = normalize_failure timeoutMs (backend w (fetches w + r))).
    { intros w2 Hb Hf. destruct r as [|r'].
      - subst err. now rewrite Nat.add_0_r.
      - rewrite Hb, Hf. do 2 f_equal. lia. }
    assert (Hnext :
      exists w',
        (if (n - S r <? n - 1)%nat
         then callAI_loop timeoutMs n r (Some err)
                (with_sleeps
                   (sleeps w ++ [(N.of_nat (n - S r + 1) * 1000
                                  + random w (List.length (sleeps w)) mod 250)%N])
                   (with_fetches (S (fetches w)) w))
         else callAI_loop timeoutMs n r (Some err) (with_fetches (S (fetches w)) w))
        = (Throw (normalize_failure timeoutMs (backend w (fetches w + r))), w')
        /\ fetches w' = (fetches w + S r)%nat
        /\ exists ds, sleeps w' = sleeps w ++ ds /\ List.length ds = (S r - 1)%nat).
    { destruct (Nat.ltb_spec (n - S r) (n - 1)) as [L|L].
      - match goal with
        | |- context [callAI_loop _ _ _ _ ?w2] =>
            destruct (IH (Some err) w2) as (w' & Hrun & Hf & ds & Hs & Hl);
              [lia| |exists w'; rewrite Hrun, (Hres w2) by reflexivity]
        end.
        + intros i Hi. cbn [backend fetches with_sleeps with_fetches].
          replace (S (fetches w) + i)%nat with (fetches w + S i)%nat by lia.
          apply Hfail. lia.
        + split; [reflexivity|].
          cbn [fetches sleeps with_sleeps with_fetches] in *.
          split; [lia|].
          eexists (_ :: ds). rewrite Hs, <- app_assoc. split; [reflexivity|].
          cbn [List.length]. lia.
      - assert (r = 0)%nat by lia. subst r.
        cbn [callAI_loop]. unfold throw. eexists.
        rewrite Nat.add_0_r. split; [reflexivity|].
        cbn [fetches sleeps with_fetches].
        split; [lia|]. exists []. rewrite app_nil_r. auto. }
    subst err.
    destruct (backend w (fetches w)) as [c0 m0|t| |e0] eqn:E; [discriminate| | |];
      exact Hnext.
Qed.

Lemma callAI_loop_bounded (timeoutMs : N) (n : nat) :
  forall (r : nat) (lastError : option error) (w : World),
    (r <= n)%nat ->
    forall res w', callAI_loop timeoutMs n r lastError w = (res, w') ->
    (Nat.min 1 r + fetches w <= fetches w' <= fetches w + r)%nat
    /\ exists ds, sleeps w' = sleeps w ++ ds
       /\ List.length ds = (fetches w' - fetches w - 1)%nat.
Proof.
  induction r as [|r IH]; intros lastError w Hr res w' H.
  - cbn [callAI_loop] in H. unfold throw in H. injection H as _ <-. cbn [Nat.min].
    split; [lia|]. exists []. rewrite app_nil_r. split; [reflexivity|cbn [List.length]; lia].
  - rewrite callAI_loop_step in H. cbv zeta in H.
    assert (Hnext : forall e,
      (if (n - S r <? n - 1)%nat
       then callAI_loop timeoutMs n r (Some e)
              (with_sleeps
                 (sleeps w ++ [(N.of_nat (n - S r + 1) * 1000
                                + random w (List.length (sleeps w)) mod 250)%N])
                 (with_fetches (S (fetches w)) w))
       else callAI_loop timeoutMs n r (Some e) (with_fetches (S (fetches w)) w))
      = (res, w') ->
      (Nat.min 1 (S r) + fetches w <= fetches w' <= fetches w + S r)%nat
      /\ exists ds, sleeps w' = sleeps w ++ ds
         /\ List.length ds = (fetches w' - fetches w - 1)%nat).
    { intros e He. destruct (Nat.ltb_spec (n - S r) (n - 1)) as [L|L].
      - destruct (IH _ _ ltac:(lia) _ _ He) as (Hf & ds & Hs & Hl).
        cbn [fetches sleeps with_sleeps with_fetches] in *.
        assert (Nat.min 1 r = 1)%nat by lia. cbn [Nat.min].
        split; [lia|]. eexists (_ :: ds). rewrite Hs, <- app_assoc.
        split; [reflexivity|]. cbn [List.length]. lia.
      - assert (r = 0)%nat by lia. subst r.
        cbn [callAI_loop] in He. unfold throw in He. injection He as _ <-.
        cbn [fetches sleeps with_fetches Nat.min].
        split; [lia|]. exists []. rewrite app_nil_r.
        split; [reflexivity|cbn [List.length]; lia]. }
    destruct (backend w (fetches w)) as [c0 m0|t| |e0]; try (eapply Hnext; exact H).
    injection H as _ <-. cbn [fetches sleeps with_fetches Nat.min].
    split; [lia|]. exists []. rewrite app_nil_r.
    split; [reflexivity|cbn [List.length]; lia].
Qed.

(** X1. [callAI] returns the first success response of the backend:
    when the tries before number [k] fail and try number [k] is
    answered, [k] being less than the number of tries allowed, the call
    returns that answer after [k + 1] fetches and [k] waits. *)
Theorem callAI_returns_first_success (stage : jsstring) (prompt : UserPrompt)
  (provider : AIProvider) (options : Options) (w : World) (k : nat) (c m : jsstring) :
  env_configured w = true ->
  (k < tries options)%nat ->
  (forall i, (i < k)%nat -> failed (backend w (fetches w + i)) = true) ->
  backend w (fetches w + k) = Responded c m ->
  exists w',
    callAI stage prompt provider options w = (Ok {| content := c; model := m |}, w')
    /\ fetches w' = (fetches w + k + 1)%nat
    /\ exists ds, sleeps w' = sleeps w ++ ds /\ List.length ds = k.
Proof.
  intros He Hk Hfail Hok.
  unfold callAI, bind at 1, modify. unfold bind at 1, get.
  cbn [env_configured with_calls]. rewrite He. cbn [negb].
  match goal with
  | |- context [callAI_loop ?t ?n ?r ?l ?w1] =>
      destruct (callAI_loop_success t n c m k r l w1 (le_n _) Hk Hfail Hok)
        as (w' & Hrun & Hf & Hs)
  end.
  exists w'. split; [exact Hrun|]. split; [exact Hf | exact Hs].
Qed.

Lemma callAI_returns_first_success_witness :
  exists w',
    callAI (str "ux") (RepairPrompt []) openai two_tries
      (initial draft_project fails_once (fun _ => 7%N))
    = (Ok {| content := str "{}"; model := str "gpt-4o-mini" |}, w')
    /\ fetches w' = 2%nat
    /\ exists ds, sleeps w' = [] ++ ds /\ List.length ds = 1%nat.
Proof.
  apply (callAI_returns_first_success (str "ux") (RepairPrompt []) openai two_tries
           (initial draft_project fails_once (fun _ => 7%N)) 1).
  - reflexivity.
  - unfold tries; simpl; lia.
  - intros i Hi. assert (i = 0)%nat by lia. subst i. reflexivity.
  - reflexivity.
Defined.

(** X2. When every try fails, [callAI] gives up after exactly the
    number of tries allowed, having waited between them only, and throws
    the error of the last try; with [retries: 0] it makes no fetch at
    all and throws its fallback error. *)
Theorem callAI_gives_up (stage : jsstring) (prompt : UserPrompt)
  (provider : AIProvider) (options : Options) (w : World) :
  env_configured w = true ->
  (forall i, (i < tries options)%nat -> failed (backend w (fetches w + i)) = true) ->
  exists w',
    callAI stage prompt provider options w = (Throw (final_error options w), w')
    /\ fetches w' = (fetches w + tries options)%nat
    /\ exists ds, sleeps w' = sleeps w ++ ds /\ List.length ds = (tries options - 1)%nat.
Proof.
  intros He Hfail.
  unfold callAI, bind at 1, modify. unfold bind at 1, get.
  cbn [env_configured with_calls]. rewrite He. cbn [negb].
  unfold final_error. fold (tries options). fold (timeout_of options).
  match goal with
  | |- context [callAI_loop ?t ?k ?r ?l ?w1] =>
      destruct (callAI_loop_exhausted t k r l w1 (le_n _)) as (w' & Hrun & Hf & Hs)
  end.
  - intros i Hi. cbn [backend fetches with_calls]. now apply Hfail.
  - exists w'. split; [exact Hrun|]. split; [exact Hf | exact Hs].
Qed.

Lemma callAI_gives_up_witness :
  exists w',
    callAI (str "ux") (RepairPrompt []) openai Inputs.four_tries Inputs.always_timing_out
    = (Throw (Err (str "Request timeout after 60s")), w')
    /\ fetches w' = 4%nat
    /\ exists ds, sleeps w' = [] ++ ds /\ List.length ds = 3%nat.
Proof.
  apply (callAI_gives_up (str "ux") (RepairPrompt []) openai Inputs.four_tries
           Inputs.always_timing_out).
  - reflexivity.
  - intros i Hi. reflexivity.
Defined.

Lemma callAI_bounded (stage : jsstring) (prompt : UserPrompt)
  (provider : AIProvider) (options : Options) (w : World) res w' :
  callAI stage prompt provider options w = (res, w') ->
  (fetches w <= fetches w' <= fetches w + tries options)%nat
  /\ exists ds, sleeps w' = sleeps w ++ ds
     /\ List.length ds = (fetches w' - fetches w - 1)%nat.
Proof.
  unfold callAI, bind at 1, modify. unfold bind at 1, get.
  cbn [env_configured with_calls].
  destruct (env_configured w); cbn [negb].
  - intros H. apply callAI_loop_bounded in H; [|apply le_n].
    destruct H as (Hf & ds & Hs & Hl).
    cbn [fetches sleeps with_calls] in *. fold (tries options) in *.
    split; [lia|]. exists ds. split; [exact Hs | exact Hl].
  - unfold throw. intros H; injection H as _ <-. cbn [fetches sleeps with_calls].
    split; [lia|]. exists []. rewrite app_nil_r.
    split; [reflexivity|cbn [List.length]; lia].
Qed.

(** X3. Whatever the backend does, a call makes at most as many fetches
    as tries are allowed (three by default), and it waits exactly once
    between two consecutive fetches: never before the first one, never
    after the last. *)
Theorem callAI_is_bounded (stage : jsstring) (prompt : UserPrompt)
  (provider : AIProvider) (options : Options) (w : World) :
  let w' := snd (callAI stage prompt provider options w) in
  (fetches w <= fetches w' <= fetches w + tries options)%nat
  /\ exists ds, sleeps w' = sleeps w ++ ds
     /\ List.length ds = (fetches w' - fetches w - 1)%nat.
Proof.
  destruct (callAI stage prompt provider options w) as [res w'] eqn:E.
  exact (callAI_bounded stage prompt provider options w res w' E).
Qed.

End CallAIOutcomes.

(** ** One stage run: what it guarantees and what it costs *)

Module StageRunTheorems.
Import Orchestrator Observations CallAITheorems RunPhaseFacts RepairTheorems Worlds
  Outcomes CallAIOutcomes StageRuns.

Lemma after_generation_break provider phase prev attempt out response w o w' :
  after_generation provider phase prev attempt out response w = (Ok (inl o), w') ->
  valid (validateJSON o (schema phase)) = true
  /\ exists c, parseJSONResponse c = Some o.
Proof.
  unfold after_generation.
  destruct (parseJSONResponse (content response)) as [v|] eqn:Hp.
  - destruct (valid (validateJSON v (schema phase))) eqn:Hv.
    + unfold bind, lift, ret.
      destruct (crossPhaseChecks (type phase) v prev); [|discriminate].
      intros H; injection H as <- _. split; [exact Hv | eauto].
    + destruct (Nat.ltb attempt (maxRetries - 1)); [|discriminate].
      unfold bind.
      destruct (callAI _ _ _ _ w) as [[resp|e] w1]; [|discriminate].
      destruct (parseJSONResponse (content resp)) as [v'|] eqn:Hp'; [|discriminate].
      destruct (valid (validateJSON v' (schema phase))) eqn:Hv'; [|discriminate].
      unfold ret. intros H; injection H as <- _. split; [exact Hv' | eauto].
  - destruct (Nat.ltb attempt (maxRetries - 1)); discriminate.
Qed.

Lemma after_generation_continue provider phase prev attempt out response w o w' :
  after_generation provider phase prev attempt out response w = (Ok (inr o), w') ->
  (attempt < maxRetries - 1)%nat.
Proof.
  unfold after_generation.
  destruct (Nat.ltb_spec attempt (maxRetries - 1)) as [L|L]; [intros _; exact L|].
  destruct (parseJSONResponse (content response)) as [v|]; [|discriminate].
  destruct (valid (validateJSON v (schema phase))); [|discriminate].
  unfold bind, lift, ret.
  destruct (crossPhaseChecks (type phase) v prev); discriminate.
Qed.

(** The loop is left normally through a [break] only: with a
    validated output. *)
Lemma generation_loop_valid provider phase prompt prev :
  forall remaining out w o w',
    (1 <= remaining <= maxRetries)%nat ->
    generation_loop provider phase prompt prev remaining out w = (Ok o, w') ->
    valid (validateJSON o (schema phase)) = true
    /\ exists c, parseJSONResponse c = Some o.
Proof.
  induction remaining as [|k IH]; intros out w o w' Hr H; [lia|].
  cbn [generation_loop] in H. unfold bind at 1 in H.
  destruct (callAI _ _ _ _ w) as [[resp|e] w1]; [|discriminate].
  unfold bind at 1 in H.
  destruct (after_generation provider phase prev (maxRetries - S k) out resp w1)
    as [[[o1|o1]|e] w2] eqn:Ha; [| |discriminate].
  - unfold ret in H. injection H as <- _.
    exact (after_generation_break _ _ _ _ _ _ _ _ _ Ha).
  - apply after_generation_continue in Ha.
    apply (IH o1 w2 o w'); [lia | exact H].
Qed.

(** X4. A stage completes only with an output that passed validation
    against its schema: when [runPhase] returns, the row it returns is
    marked completed, records the provider, and holds an output parsed
    from an answer of the backend and accepted by the validator; three
    attempts that end without a valid output never do. *)
Theorem completed_output_is_valid (projectId : nat) (provider : AIProvider)
  (phase : AgentPhase) (project : Project) (prev : list PlanningPhase)
  (w w' : World) (result : PlanningPhase) :
  ids_fresh w ->
  runPhase projectId provider phase project prev w = (Ok result, w') ->
  valid (validateJSON (output result) (schema phase)) = true
  /\ (exists c, parseJSONResponse c = Some (output result))
  /\ status result = PhaseCompleted
  /\ model_used result = Some provider
  /\ phase_type result = type phase.
Proof.
  intros Hfresh. rewrite runPhase_unfold.
  pose proof (generation_loop_frame provider phase (stage_prompt prev) prev maxRetries VUndef
                (inserted projectId phase w)) as (_ & F2 & _).
  destruct (generation_loop provider phase (stage_prompt prev) prev maxRetries VUndef
              (inserted projectId phase w)) as [[out|e] w2] eqn:Hloop; [|discriminate].
  cbn [snd] in F2.
  apply generation_loop_valid in Hloop; [|unfold maxRetries; lia].
  unfold select_phase, bind, get. cbn [planning_phases with_planning_phases].
  rewrite F2. unfold inserted; cbn [planning_phases with_planning_phases].
  rewrite update_rows_app, (update_rows_fresh _ _ _ Hfresh).
  cbn [update_rows List.map new_row id]. rewrite Nat.eqb_refl.
  rewrite (find_fresh _ _ _ Hfresh) by reflexivity.
  unfold ret. intros H; injection H as <- _.
  cbn [output status model_used phase_type completed_from].
  destruct Hloop as [Hv Hc]. repeat split; assumption.
Qed.

Lemma completed_output_is_valid_witness :
  exists result w',
    runPhase 0 openai
      {| type := str "competitor"; name := str "Research Analyst";
         schema := objects_only (str "competitor") |}
      draft_project [] Inputs.first_answer_valid = (Ok result, w')
    /\ valid (validateJSON (output result) (objects_only (str "competitor"))) = true.
Proof.
  do 2 eexists. split; [vm_compute; reflexivity|].
  match goal with
  | |- valid (validateJSON (output ?r) _) = true =>
      exact (proj1 (completed_output_is_valid 0 openai
               {| type := str "competitor"; name := str "Research Analyst";
                  schema := objects_only (str "competitor") |}
               draft_project [] Inputs.first_answer_valid _ r
               ltac:(constructor) ltac:(vm_compute; reflexivity)))
  end.
Defined.

(** Calls and fetches of the loop. *)
Lemma trace_length phase prev n l :
  attempts_trace phase prev n l -> (List.length l <= 2 * n - 1)%nat.
Proof.
  induction 1 as [n | n l _ IH | n errs l _ IH]; cbn [List.length]; lia.
Qed.

Lemma after_generation_fetches provider phase prev attempt out response w :
  let w' := snd (after_generation provider phase prev attempt out response w) in
  (fetches w <= fetches w'
   <= fetches w + 3 * (List.length (calls w') - List.length (calls w)))%nat
  /\ (List.length (calls w) <= List.length (calls w'))%nat.
Proof.
  cbv zeta.
  pose proof (after_generation_calls provider phase prev attempt out response w) as C.
  unfold after_generation in *.
  destruct (parseJSONResponse (content response)) as [v|].
  - destruct (valid (validateJSON v (schema phase))).
    + unfold bind, lift, ret in *.
      destruct (crossPhaseChecks (type phase) v prev); cbn [snd]; lia.
    + destruct (Nat.ltb attempt (maxRetries - 1)).
      * unfold bind in *.
        pose proof (callAI_frame (type phase)
                      (RepairPrompt (errors (validateJSON v (schema phase))))
                      provider repair_options w) as [_ A].
        pose proof (callAI_bounded (type phase)
                      (RepairPrompt (errors (validateJSON v (schema phase))))
                      provider repair_options w) as B.
        destruct (callAI _ _ _ _ w) as [[resp|e] w1]; cbn [snd] in *;
          destruct (B _ _ eq_refl) as (Hf & _);
          change (tries repair_options) with 3%nat in Hf.
        -- assert (Hsame : snd (match parseJSONResponse (content resp) with
                               | Some output0 =>
                                   if valid (validateJSON output0 (schema phase))
                                   then ret (inl output0) else ret (inr output0)
                               | None => ret (inr v)
                               end w1) = w1).
           { destruct (parseJSONResponse (content resp)) as [v'|]; [|reflexivity].
             destruct (valid (validateJSON v' (schema phase))); reflexivity. }
           rewrite Hsame. rewrite A, length_app. cbn [List.length]. lia.
        -- rewrite A, length_app. cbn [List.length]. lia.
      * unfold throw; cbn [snd]. lia.
  - destruct (Nat.ltb attempt (maxRetries - 1)); unfold ret, throw; cbn [snd]; lia.
Qed.

Lemma generation_loop_fetches provider phase prompt prev :
  forall remaining out w,
    let w' := snd (generation_loop provider phase prompt prev remaining out w) in
    (fetches w <= fetches w'
     <= fetches w + 3 * (List.length (calls w') - List.length (calls w)))%nat
    /\ (List.length (calls w) <= List.length (calls w'))%nat.
Proof.
  induction remaining as [|k IH]; intros out w; cbv zeta.
  - cbn [generation_loop]. unfold ret. cbn [snd]. lia.
  - assert (E : generation_loop provider phase prompt prev (S k) out w =
                match callAI (type phase) prompt provider generation_options w with
                | (Ok response, w1) =>
                    match after_generation provider phase prev (maxRetries - S k) out
                            response w1 with
                    | (Ok (inl o), w2) => (Ok o, w2)
                    | (Ok (inr o), w2) => generation_loop provider phase prompt prev k o w2
                    | (Throw e, w2) => (Throw e, w2)
                    end
                | (Throw e, w1) => (Throw e, w1)
                end).
    { cbn [generation_loop]. unfold bind at 1.
      destruct (callAI _ _ _ _ w) as [[resp|e] w1]; [|reflexivity].
      unfold bind at 1.
      destruct (after_generation _ _ _ _ _ _ w1) as [[[o|o]|e] w2]; reflexivity. }
    rewrite E.
    pose proof (callAI_frame (type phase) prompt provider generation_options w) as [_ A].
    pose proof (callAI_bounded (type phase) prompt provider generation_options w) as B.
    destruct (callAI _ _ _ _ w) as [[resp|e] w1]; cbn [snd] in *;
      destruct (B _ _ eq_refl) as (Hf & _);
      change (tries generation_options) with 3%nat in Hf;
      apply (f_equal (@List.length _)) in A; rewrite length_app in A;
      cbn [List.length] in A.
    + pose proof (after_generation_fetches provider phase prev (maxRetries - S k) out
                    resp w1) as G. cbv zeta in G.
      destruct (after_generation _ _ _ _ _ _ w1) as [[[o|o]|e] w2]; cbn [snd] in *;
        try lia.
      specialize (IH o w2). cbv zeta in IH. lia.
    + lia.
Qed.

(** X5. A stage run makes at most five calls to the model (three
    generations and two repairs) and at most fifteen fetches, whatever
    the backend answers and whether it ends well or not. *)
Theorem stage_run_budget (projectId : nat) (provider : AIProvider)
  (phase : AgentPhase) (project : Project) (prev : list PlanningPhase) (w : World) :
  let w' := snd (runPhase projectId provider phase project prev w) in
  (calls_since w w' <= 5)%nat /\ (fetches_since w w' <= 15)%nat.
Proof.
  cbv zeta. unfold calls_since, fetches_since.
  destruct (runPhase_trace projectId provider phase project prev w) as (l & Hl & Ht).
  apply trace_length in Ht. change (2 * maxRetries - 1)%nat with 5%nat in Ht.
  assert (F : (fetches (snd (runPhase projectId provider phase project prev w))
               <= fetches w
                  + 3 * (List.length (calls (snd (runPhase projectId provider phase project prev w)))
                         - List.length (calls w)))%nat).
  { rewrite runPhase_unfold.
    pose proof (generation_loop_fetches provider phase (stage_prompt prev) prev maxRetries
                  VUndef (inserted projectId phase w)) as G. cbv zeta in G.
    destruct (generation_loop provider phase (stage_prompt prev) prev maxRetries VUndef
                (inserted projectId phase w)) as [[out|e] w2]; cbn [snd] in G.
    - match goal with
      | |- context [select_phase ?a ?b] =>
          pose proof (select_phase_world a b) as S; destruct (select_phase a b) as [[r|e] w3]
      end; cbn [snd] in *; subst w3;
        cbn [fetches calls with_planning_phases inserted] in *; lia.
    - cbn [snd fetches calls with_planning_phases inserted] in *. lia. }
  rewrite Hl in *. rewrite length_app in *. lia.
Qed.

(** X6. Without the environment variables of the proxy a stage run
    fails at its first call, with the configuration error, and no
    request leaves the client: the call is made once, no fetch, and the
    row of the stage is left marked failed. *)
Theorem stage_fails_without_environment (projectId : nat) (provider : AIProvider)
  (phase : AgentPhase) (project : Project) (prev : list PlanningPhase) (w : World) :
  env_configured w = false ->
  ids_fresh w ->
  exists w',
    runPhase projectId provider phase project prev w
    = (Throw (Err (str "Missing Supabase environment variables")), w')
    /\ fetches w' = fetches w
    /\ sleeps w' = sleeps w
    /\ calls w' = calls w ++ [generation_call phase prev]
    /\ planning_phases w'
       = planning_phases w ++ [failed_from (new_row projectId phase w)].
Proof.
  intros He Hfresh. rewrite runPhase_unfold.
  assert (G : generation_loop provider phase (stage_prompt prev) prev maxRetries VUndef
                (inserted projectId phase w)
              = (Throw (Err (str "Missing Supabase environment variables")),
                 with_calls (calls w ++ [generation_call phase prev])
                   (inserted projectId phase w))).
  { cbn [generation_loop maxRetries]. unfold bind at 1.
    unfold callAI, bind at 1, modify. unfold bind at 1, get.
    cbn [env_configured with_calls inserted with_planning_phases]. rewrite He.
    reflexivity. }
  rewrite G. eexists. split; [reflexivity|].
  cbn [fetches sleeps calls planning_phases with_planning_phases with_calls inserted].
  repeat split.
  rewrite update_rows_app, (update_rows_fresh _ _ _ Hfresh).
  cbn [update_rows List.map new_row id]. rewrite Nat.eqb_refl. reflexivity.
Qed.

Lemma stage_fails_without_environment_witness :
  exists w',
    runPhase 0 openai api_stage draft_project [] unconfigured
    = (Throw (Err (str "Missing Supabase environment variables")), w')
    /\ fetches w' = 0%nat
    /\ List.map status (planning_phases w') = [Failed].
Proof.
  destruct (stage_fails_without_environment 0 openai api_stage draft_project []
              unconfigured eq_refl ltac:(constructor))
    as (w' & Hrun & Hf & _ & _ & Hrows).
  exists w'. split; [exact Hrun|]. split; [exact Hf|]. rewrite Hrows. reflexivity.
Defined.

(** X7. The cross-phase check is advisory in what it logs, not in what
    it raises: when it raises on an output that parsed and passed
    validation, the stage run fails with that exception at once, with
    no repair call and no further attempt, and its row is marked
    failed. *)
Theorem check_exception_fails_stage (projectId : nat) (provider : AIProvider)
  (phase : AgentPhase) (project : Project) (prev : list PlanningPhase) (w : World)
  (c m : jsstring) (v : value) (e : error) :
  env_configured w = true ->
  ids_fresh w ->
  backend w (fetches w) = Responded c m ->
  parseJSONResponse c = Some v ->
  valid (validateJSON v (schema phase)) = true ->
  crossPhaseChecks (type phase) v prev = Throw e ->
  exists w',
    runPhase projectId provider phase project prev w = (Throw e, w')
    /\ calls w' = calls w ++ [generation_call phase prev]
    /\ fetches w' = S (fetches w)
    /\ planning_phases w'
       = planning_phases w ++ [failed_from (new_row projectId phase w)].
Proof.
  intros He Hfresh Hb Hp Hv Hc. rewrite runPhase_unfold.
  assert (G : generation_loop provider phase (stage_prompt prev) prev maxRetries VUndef
                (inserted projectId phase w)
              = (Throw e,
                 after_call (generation_call phase prev) (inserted projectId phase w))).
  { cbn [generation_loop maxRetries]. unfold bind at 1.
    rewrite (callAI_responded (type phase) (stage_prompt prev) provider generation_options
               (inserted projectId phase w) c m He Hb eq_refl).
    unfold bind at 1. unfold after_generation. cbn [content]. rewrite Hp, Hv.
    unfold bind at 1, lift. rewrite Hc. reflexivity. }
  rewrite G. eexists. split; [reflexivity|].
  cbn [fetches calls planning_phases with_planning_phases with_calls with_fetches
         after_call inserted].
  repeat split.
  rewrite update_rows_app, (update_rows_fresh _ _ _ Hfresh).
  cbn [update_rows List.map new_row id]. rewrite Nat.eqb_refl. reflexivity.
Qed.

Lemma check_exception_fails_stage_witness :
  exists w',
    runPhase 0 openai api_stage draft_project [ux_firebase] answers_null_entity
    = (Throw TypeError, w')
    /\ List.length (calls w') = 1%nat
    /\ List.map status (planning_phases w') = [PhaseCompleted; Failed].
Proof.
  destruct (check_exception_fails_stage 0 openai api_stage draft_project [ux_firebase]
              answers_null_entity null_entity_text (str "gpt-4o-mini") null_entity TypeError)
    as (w' & Hrun & Hc & _ & Hrows); try reflexivity.
  - repeat constructor.
  - exists w'. split; [exact Hrun|]. rewrite Hc, Hrows. split; reflexivity.
Defined.

End StageRunTheorems.

(** ** The parser: wrappers that make no difference *)

Module TrimFacts.

Lemma trimStart_spaces (a s : jsstring) :
  forallb is_js_space a = true -> trimStart (a ++ s) = trimStart s.
Proof.
  induction a as [|x a IH]; [reflexivity|].
  cbn [forallb List.app trimStart]. intros H. apply andb_true_iff in H as [Hx Ha].
  rewrite Hx. now apply IH.
Qed.

Lemma trimStart_all_spaces (a : jsstring) :
  forallb is_js_space a = true -> trimStart a = [].
Proof.
  intros H. rewrite <- (app_nil_r a). now rewrite trimStart_spaces.
Qed.

Lemma trimStart_app (s b : jsstring) :
  trimStart (s ++ b) = match trimStart s with [] => trimStart b | l => l ++ b end.
Proof.
  induction s as [|x s IH]; cbn [List.app trimStart].
  - destruct (trimStart b); reflexivity.
  - destruct (is_js_space x); [exact IH | reflexivity].
Qed.

Lemma forallb_rev (f : N -> bool) (l : jsstring) :
  forallb f (rev l) = forallb f l.
Proof.
  induction l as [|x l IH]; [reflexivity|].
  cbn [rev forallb]. rewrite forallb_app, IH. cbn [forallb].
  rewrite andb_true_r. apply andb_comm.
Qed.

Lemma trim_spaces_l (a s : jsstring) :
  forallb is_js_space a = true -> trim (a ++ s) = trim s.
Proof. intros H. unfold trim. now rewrite trimStart_spaces. Qed.

Lemma trim_spaces_r (s b : jsstring) :
  forallb is_js_space b = true -> trim (s ++ b) = trim s.
Proof.
  intros H. unfold trim. rewrite trimStart_app.
  destruct (trimStart s) as [|x l] eqn:E.
  - rewrite (trimStart_all_spaces b H). reflexivity.
  - rewrite rev_app_distr, trimStart_spaces; [reflexivity|].
    now rewrite forallb_rev.
Qed.

(** What [trimStart] returns is empty or starts with a character that
    is not white space, and it is a final part of its argument. *)
Lemma trimStart_shape (s : jsstring) :
  exists a, s = a ++ trimStart s /\ forallb is_js_space a = true
            /\ trimStart (trimStart s) = trimStart s.
Proof.
  induction s as [|x s (a & Hs & Ha & Hi)]; [now exists []|].
  cbn [trimStart]. destruct (is_js_space x) eqn:E.
  - exists (x :: a). cbn [List.app forallb]. rewrite E, Ha. rewrite <- Hs. auto.
  - exists []. cbn [List.app forallb trimStart]. rewrite E. auto.
Qed.

Lemma trimStart_head (x : N) (l : jsstring) :
  is_js_space x = false -> trimStart (x :: l) = x :: l.
Proof. intros H. cbn [trimStart]. now rewrite H. Qed.

Lemma trim_idempotent (s : jsstring) : trim (trim s) = trim s.
Proof.
  unfold trim.
  destruct (trimStart_shape s) as (a & Hs & Ha & Hi).
  set (u := trimStart s) in *.
  destruct (trimStart_shape (rev u)) as (b & Hu & Hb & Hj).
  set (v := trimStart (rev u)) in *.
  (* [u = rev v ++ rev b] *)
  assert (Eu : u = rev v ++ rev b).
  { rewrite <- (rev_involutive u), Hu, rev_app_distr. reflexivity. }
  destruct v as [|y v'] eqn:Ev.
  - reflexivity.
  - assert (Hy : is_js_space y = false).
    { subst v. destruct (is_js_space y) eqn:E; [|reflexivity].
      cbn [trimStart] in Hj. rewrite E in Hj.
      destruct (trimStart_shape v') as (c & Hc & _ & _).
      apply (f_equal (@List.length _)) in Hj. apply (f_equal (@List.length _)) in Hc.
      rewrite length_app in Hc. cbn [List.length] in Hj. lia. }
    assert (Hfix : trimStart (rev (y :: v')) = rev (y :: v')).
    { assert (Hp : trimStart u = u) by exact Hi.
      rewrite Eu in Hp. rewrite trimStart_app in Hp.
      destruct (trimStart (rev (y :: v'))) as [|z l] eqn:Et.
      - exfalso. destruct (trimStart_shape (rev (y :: v'))) as (c & Hc & Hcs & _).
        rewrite Et, app_nil_r in Hc.
        assert (Hin : In y c) by (rewrite <- Hc; apply in_rev; rewrite rev_involutive; now left).
        rewrite forallb_forall in Hcs. specialize (Hcs y Hin). congruence.
      - now apply app_inv_tail in Hp. }
    rewrite Hfix, rev_involutive, trimStart_head by exact Hy. reflexivity.
Qed.

Lemma trim_fixed (x y : N) (m : jsstring) :
  is_js_space x = false -> is_js_space y = false ->
  trim (x :: m ++ [y]) = x :: m ++ [y].
Proof.
  intros Hx Hy. unfold trim. rewrite trimStart_head by exact Hx.
  change (x :: m ++ [y]) with ((x :: m) ++ [y]).
  rewrite rev_app_distr. cbn [rev List.app].
  rewrite trimStart_head by exact Hy.
  change (y :: rev m ++ [x]) with ([y] ++ rev (x :: m)).
  rewrite rev_app_distr, rev_involutive. reflexivity.
Qed.

End TrimFacts.
Module ParserWrappers.
Import TrimFacts Fences ParserSpec.

(** The result depends on the cleaned text only. *)
Lemma parse_by_cleaned_text (a b : jsstring) :
  cleaned_text a = cleaned_text b -> parseJSONResponse a = parseJSONResponse b.
Proof. intros H. unfold parseJSONResponse. now rewrite H. Qed.

Lemma startsWith_app (s p q : jsstring) :
  startsWith s (p ++ q) = true -> startsWith s p = true.
Proof.
  revert s. induction p as [|x p IH]; intros s; [destruct s; reflexivity|].
  destruct s as [|y s]; cbn [List.app startsWith]; [discriminate|].
  intros H. apply andb_true_iff in H as [Hx Hs]. rewrite Hx. now apply IH.
Qed.

Lemma startsWith_prefix (p s : jsstring) : startsWith (p ++ s) p = true.
Proof.
  induction p as [|x p IH]; [destruct s; reflexivity|].
  cbn [List.app startsWith]. now rewrite N.eqb_refl.
Qed.

(** Without a fence at either end the cleaned text is the trimmed text. *)
Lemma cleaned_text_unfenced (t : jsstring) :
  startsWith (trim t) (str "```") = false ->
  endsWith (trim t) (str "```") = false ->
  cleaned_text t = trim t.
Proof.
  intros Hs He. unfold cleaned_text.
  assert (Hj : startsWith (trim t) (str "```json") = false).
  { destruct (startsWith (trim t) (str "```json")) eqn:E; [|reflexivity].
    change (str "```json") with (str "```" ++ str "json") in E.
    apply startsWith_app in E. congruence. }
  rewrite Hj, Hs, He. apply trim_idempotent.
Qed.

Lemma endsWith_suffix (s p : jsstring) : endsWith (s ++ p) p = true.
Proof. unfold endsWith. rewrite rev_app_distr. apply startsWith_prefix. Qed.

Lemma slice_drop_last_suffix (s p : jsstring) :
  slice_drop_last (List.length p) (s ++ p) = s.
Proof.
  unfold slice_drop_last. rewrite length_app, Nat.add_sub.
  rewrite firstn_app, Nat.sub_diag, firstn_all. cbn [firstn]. apply app_nil_r.
Qed.

(** The steps of [cleaned_text] on a fenced text. *)
Lemma cleaned_text_between (opening t : jsstring) :
  trim (opening ++ ([newline] ++ t ++ [newline]) ++ str "```")
  = opening ++ ([newline] ++ t ++ [newline]) ++ str "```" ->
  (let cleaned := opening ++ ([newline] ++ t ++ [newline]) ++ str "```" in
   if startsWith cleaned (str "```json") then slice_from 7 cleaned
   else if startsWith cleaned (str "```") then slice_from 3 cleaned
   else cleaned) = ([newline] ++ t ++ [newline]) ++ str "```" ->
  cleaned_text (opening ++ ([newline] ++ t ++ [newline]) ++ str "```") = trim t.
Proof.
  intros T S. unfold cleaned_text. rewrite T. cbv zeta in S. rewrite S.
  rewrite endsWith_suffix.
  change 3%nat with (List.length (str "```")). rewrite slice_drop_last_suffix.
  rewrite trim_spaces_l by reflexivity. apply trim_spaces_r. reflexivity.
Qed.

Lemma trim_fenced (x : N) (m : jsstring) :
  is_js_space x = false ->
  trim ((x :: m) ++ str "```") = (x :: m) ++ str "```".
Proof.
  intros Hx. change (str "```") with ([96; 96]%N ++ [96%N]).
  rewrite app_assoc. cbn [List.app]. apply trim_fixed; [exact Hx | reflexivity].
Qed.

Lemma cleaned_text_json_fenced (t : jsstring) : cleaned_text (json_fenced t) = trim t.
Proof.
  unfold json_fenced.
  replace (str "```json" ++ [newline] ++ t ++ [newline] ++ str "```")
    with (str "```json" ++ ([newline] ++ t ++ [newline]) ++ str "```")
    by (now rewrite <- !app_assoc).
  apply cleaned_text_between.
  - change (str "```json") with ([96; 96; 96; 106; 115; 111; 110]%N).
    apply (trim_fenced 96 ([96; 96; 106; 115; 111; 110]%N ++ [newline] ++ t ++ [newline])).
    reflexivity.
  - cbv zeta. rewrite startsWith_prefix. reflexivity.
Qed.

Lemma cleaned_text_plain_fenced (t : jsstring) : cleaned_text (plain_fenced t) = trim t.
Proof.
  unfold plain_fenced.
  replace (str "```" ++ [newline] ++ t ++ [newline] ++ str "```")
    with (str "```" ++ ([newline] ++ t ++ [newline]) ++ str "```")
    by (now rewrite <- !app_assoc).
  apply cleaned_text_between.
  - change (str "```" ++ ([newline] ++ t ++ [newline]) ++ str "```")
      with ((96%N :: ([96; 96]%N ++ [newline] ++ t ++ [newline])) ++ str "```").
    apply trim_fenced. reflexivity.
  - cbv zeta. rewrite startsWith_prefix.
    change (startsWith (str "```" ++ ([newline] ++ t ++ [newline]) ++ str "```")
              (str "```json")) with false.
    reflexivity.
Qed.

(** X8. A Markdown code fence around the answer makes no difference:
    a text put between the lines [```json] (or [```]) and [```] parses
    to what the text alone parses to, and fails when it fails, provided
    the text does not itself begin or end with a fence. *)
Theorem code_fence_makes_no_difference (t : jsstring) :
  startsWith (trim t) (str "```") = false ->
  endsWith (trim t) (str "```") = false ->
  parseJSONResponse (json_fenced t) = parseJSONResponse t
  /\ parseJSONResponse (plain_fenced t) = parseJSONResponse t.
Proof.
  intros Hs He. split; apply parse_by_cleaned_text.
  - now rewrite cleaned_text_json_fenced, cleaned_text_unfenced.
  - now rewrite cleaned_text_plain_fenced, cleaned_text_unfenced.
Qed.

Lemma code_fence_makes_no_difference_witness :
  parseJSONResponse (json_fenced object_text) = Some object_a1
  /\ parseJSONResponse (plain_fenced object_text) = Some object_a1.
Proof.
  destruct (code_fence_makes_no_difference object_text eq_refl eq_refl) as [H1 H2].
  rewrite H1, H2. split; reflexivity.
Defined.

(** X9. White space around the answer makes no difference: leading and
    trailing blanks, tabs and line breaks (any character [trim]
    removes) do not change what the text parses to. *)
Theorem padding_makes_no_difference (a b r : jsstring) :
  forallb is_js_space a = true ->
  forallb is_js_space b = true ->
  parseJSONResponse (a ++ r ++ b) = parseJSONResponse r.
Proof.
  intros Ha Hb. apply parse_by_cleaned_text. unfold cleaned_text.
  now rewrite trim_spaces_l, trim_spaces_r.
Qed.

Lemma padding_makes_no_difference_witness :
  parseJSONResponse padded_object = Some object_a1.
Proof.
  unfold padded_object.
  rewrite (padding_makes_no_difference (str "  ") [newline] object_text eq_refl eq_refl).
  reflexivity.
Defined.

End ParserWrappers.
Module ParserHelpers.
Import Fences ParserFacts.

Ltac leb_cases :=
  repeat match goal with
         | |- context [(?a <=? ?b)%N] => destruct (N.leb_spec a b)
         | H : context [(?a <=? ?b)%N] |- _ => destruct (N.leb_spec a b)
         end;
  cbn [andb negb] in *; try discriminate; try reflexivity; try lia.

Lemma normalize_unit_not_curly (c : N) : curly (normalize_unit c) = false.
Proof. unfold normalize_unit, curly, dquote, squote. leb_cases. Qed.

Lemma normalize_unit_fixed (c : N) : curly c = false -> normalize_unit c = c.
Proof. unfold normalize_unit, curly. intros H. leb_cases. Qed.

Lemma normalize_unit_curly (c : N) :
  curly c = true -> normalize_unit c = dquote \/ normalize_unit c = squote.
Proof. unfold normalize_unit, curly. intros H. leb_cases; auto. Qed.

(** X10. [normalizeQuotes] leaves no curly quote (U+2018 to U+201F) in
    the text: each one becomes a straight double or single quote; it
    changes no other character and no length, and applying it twice is
    applying it once. *)
Theorem normalizeQuotes_removes_curly_quotes (s : jsstring) :
  forallb (fun c => negb (curly c)) (normalizeQuotes s) = true
  /\ List.length (normalizeQuotes s) = List.length s
  /\ (forall i, curly (nth i s 0%N) = false -> nth i (normalizeQuotes s) 0%N = nth i s 0%N)
  /\ (forall i, curly (nth i s 0%N) = true ->
        nth i (normalizeQuotes s) 0%N = dquote \/ nth i (normalizeQuotes s) 0%N = squote)
  /\ normalizeQuotes (normalizeQuotes s) = normalizeQuotes s.
Proof.
  unfold normalizeQuotes. split; [|split; [|split; [|split]]].
  - apply forallb_forall. intros c Hc. apply in_map_iff in Hc as (x & <- & _).
    now rewrite normalize_unit_not_curly.
  - apply length_map.
  - intros i Hi. change 0%N with (normalize_unit 0%N) at 1. rewrite map_nth.
    now apply normalize_unit_fixed.
  - intros i Hc. change 0%N with (normalize_unit 0%N) at 1 2. rewrite !map_nth.
    now apply normalize_unit_curly.
  - rewrite map_map. apply map_ext. intros c.
    apply normalize_unit_fixed, normalize_unit_not_curly.
Qed.

Lemma indexOf_from_none (s : jsstring) (c : N) (i : Z) :
  indexOf_from s c i = (-1)%Z -> (0 <= i)%Z -> ~ In c s.
Proof.
  revert i. induction s as [|x r IH]; cbn [indexOf_from]; intros i H Hi; [intros []|].
  destruct (N.eqb_spec x c) as [E|E]; [lia|].
  intros [Hx|Hr]; [congruence|]. exact (IH (i + 1)%Z H ltac:(lia) Hr).
Qed.

Lemma indexOf_from_first (s : jsstring) (c : N) (i : Z) (k : nat) :
  (0 <= i)%Z -> (Z.of_nat k < indexOf_from s c i - i)%Z -> nth k s 0%N <> c.
Proof.
  revert i k. induction s as [|x r IH]; cbn [indexOf_from]; intros i k Hi Hk.
  - lia.
  - destruct (N.eqb_spec x c) as [E|E]; [lia|].
    destruct k as [|k]; cbn [nth]; [exact E|].
    apply (IH (i + 1)%Z); lia.
Qed.

Lemma indexOf_from_absent (s : jsstring) (c : N) (i : Z) :
  ~ In c s -> indexOf_from s c i = (-1)%Z.
Proof.
  revert i. induction s as [|x r IH]; cbn [indexOf_from]; intros i H; [reflexivity|].
  destruct (N.eqb_spec x c) as [E|E]; [elim H; now left|].
  apply IH. intros Hr. apply H. now right.
Qed.

Lemma findFirstOf_fold (s : jsstring) (chars seen : list N) (m : Z) :
  first_among s seen m ->
  first_among s (seen ++ chars)
    (fold_left
       (fun (min : Z) (c : N) =>
          let idx := indexOf s c in
          if (negb (idx =? -1) && ((min =? -1) || (idx <? min)))%Z then idx else min)
       chars m).
Proof.
  revert seen m. induction chars as [|c chars IH]; intros seen m Hm.
  - rewrite app_nil_r. exact Hm.
  - cbn [fold_left]. cbv zeta.
    replace (seen ++ c :: chars) with ((seen ++ [c]) ++ chars)
      by (rewrite <- app_assoc; reflexivity).
    apply IH. clear IH. destruct Hm as [Hnone Hsome].
    assert (Hidx : indexOf s c <> (-1)%Z ->
              (0 <= indexOf s c < Z.of_nat (List.length s))%Z
              /\ nth (Z.to_nat (indexOf s c)) s 0%N = c
              /\ forall k, (k < Z.to_nat (indexOf s c))%nat -> nth k s 0%N <> c).
    { intros H. destruct (indexOf_found s c H) as [Hr Hn]. split; [lia|]. split; [exact Hn|].
      intros k Hk. apply (indexOf_from_first s c 0 k); [lia|]. fold (indexOf s c). lia. }
    assert (Habs : indexOf s c = (-1)%Z -> ~ In c s).
    { intros H. apply (indexOf_from_none s c 0); [exact H | lia]. }
    destruct (Z.eqb_spec (indexOf s c) (-1)) as [E|E]; cbn [negb andb].
    + (* [c] does not occur *)
      split.
      * split.
        -- intros Hmm x Hx. apply in_app_iff in Hx as [Hx|[<-|[]]];
             [now apply Hnone | now apply Habs].
        -- intros H. apply Hnone. intros x Hx. apply H, in_app_iff. now left.
      * intros Hmm. destruct (Hsome Hmm) as (Hr & Hin & Hbefore).
        split; [exact Hr|]. split; [apply in_app_iff; now left|].
        intros k Hk Hin'. apply in_app_iff in Hin' as [Hin'|[Hc|[]]].
        -- exact (Hbefore k Hk Hin').
        -- apply (Habs E). rewrite Hc. apply nth_In. lia.
    + destruct (Hidx E) as (Hr & Hn & Hfirst).
      destruct (Z.eqb_spec m (-1)) as [Em|Em]; cbn [orb].
      * (* nothing found so far *)
        split.
        -- split; [intros H; contradiction|].
           intros H. exfalso. apply (H c); [apply in_app_iff; right; now left|].
           rewrite <- Hn. apply nth_In. lia.
        -- intros _. split; [exact Hr|]. split; [apply in_app_iff; right; left; now rewrite Hn|].
           intros k Hk Hin'. apply in_app_iff in Hin' as [Hin'|[Hc|[]]].
           ++ apply (proj1 Hnone Em _ Hin'). apply nth_In. lia.
           ++ exact (Hfirst k Hk (eq_sym Hc)).
      * destruct (Hsome Em) as (Hmr & Hmin & Hmbefore).
        destruct (Z.ltb_spec (indexOf s c) m) as [L|L].
        -- split.
           ++ split; [intros H; contradiction|].
              intros H. exfalso. apply (H c); [apply in_app_iff; right; now left|].
              rewrite <- Hn. apply nth_In. lia.
           ++ intros _. split; [exact Hr|].
              split; [apply in_app_iff; right; left; now rewrite Hn|].
              intros k Hk Hin'. apply in_app_iff in Hin' as [Hin'|[Hc|[]]].
              ** apply (Hmbefore k); [lia | exact Hin'].
              ** exact (Hfirst k Hk (eq_sym Hc)).
        -- split.
           ++ split; [intros H; contradiction|].
              intros H. exfalso. apply (H c); [apply in_app_iff; right; now left|].
              rewrite <- Hn. apply nth_In. lia.
           ++ intros _. split; [exact Hmr|]. split; [apply in_app_iff; now left|].
              intros k Hk Hin'. apply in_app_iff in Hin' as [Hin'|[Hc|[]]].
              ** exact (Hmbefore k Hk Hin').
              ** apply (Hfirst k); [lia | now symmetry].
Qed.

(** X11. [findFirstOf] returns the position of the first character of
    the text that is one of the characters looked for, and [-1] exactly
    when none of them occurs in the text. *)
Theorem findFirstOf_is_first (s : jsstring) (chars : list N) :
  (findFirstOf s chars = (-1)%Z <-> forall c, In c chars -> ~ In c s)
  /\ (findFirstOf s chars <> (-1)%Z ->
      (0 <= findFirstOf s chars < Z.of_nat (List.length s))%Z
      /\ In (nth (Z.to_nat (findFirstOf s chars)) s 0%N) chars
      /\ forall k, (k < Z.to_nat (findFirstOf s chars))%nat -> ~ In (nth k s 0%N) chars).
Proof.
  apply (findFirstOf_fold s chars [] (-1)%Z).
  split; [split; [intros _ c [] | reflexivity] | intros H; now elim H].
Qed.

End ParserHelpers.

(** ** The checklist: its verdict and its requests *)

Module ChecklistFacts.
Import QualityChecklist ChecklistRules.

(** The fail items and the revision requests, rule by rule: rule 1
    asks for two revisions, rules 2 to 5, 7 and 8 for one each, and the
    ledger rule for none. *)
Lemma checklist_form (phases : list PlanningPhase) (r : ChecklistResult) :
  runQualityChecklist phases = Ok r ->
  exists (b1 b2 b3 b4 b5 b7 b8 : bool),
    List.map check (items r) = check_titles
    /\ status r = match failItems r with [] => pass | _ :: _ => fail end
    /\ failItems r =
       (if b1 then [] else [str "Auth mismatch across phases"])
       ++ (if b2 then [str "Missing motion or skeleton patterns in design system"] else [])
       ++ (if b3 then [str "Missing pagination or error model in API spec"] else [])
       ++ (if b4 then [str "Missing non-functional requirements"] else [])
       ++ (if b5 then [str "Missing provider policies"] else [])
       ++ (if b7 then [str "Missing required prompts"] else [])
       ++ (if b8 then [str "Competitor insights not incorporated into strategy"] else [])
    /\ List.map phase (targetedRevisions r) =
       (if b1 then [] else [str "system"; str "data"])
       ++ (if b2 then [str "ui"] else [])
       ++ (if b3 then [str "api"] else [])
       ++ (if b4 then [str "system"] else [])
       ++ (if b5 then [str "system"] else [])
       ++ (if b7 then [str "prompts"] else [])
       ++ (if b8 then [str "strategy"] else []).
Proof.
  unfold runQualityChecklist.
  repeat match goal with
         | |- rbind ?x _ = _ -> _ => destruct x; simpl rbind; [|discriminate]
         end.
  intros H; injection H as <-. cbv beta zeta.
  cbn [status items failItems targetedRevisions List.map check].
  do 7 eexists. split; [reflexivity|]. split; [reflexivity|].
  split; [reflexivity|].
  rewrite !map_app.
  repeat match goal with
         | |- context [List.map phase (if ?b then ?x else ?y)] =>
             replace (List.map phase (if b then x else y))
               with (if b then List.map phase x else List.map phase y)
               by (destruct b; reflexivity)
         end.
  cbn [List.map phase]. reflexivity.
Qed.

End ChecklistFacts.
Module ChecklistTheoremsMore.
Import QualityChecklist ChecklistRules ChecklistFacts Orchestrator Observations
  RunPhaseFacts ConvergenceFacts.

Ltac by_rules H :=
  destruct H as (b1 & b2 & b3 & b4 & b5 & b7 & b8 & Hi & Hs & Hf & Hr);
  destruct b1, b2, b3, b4, b5, b7, b8.

(** X12. The checklist always reports its eight checks, in the same
    order. Its verdict and its requests agree: the status is [pass]
    exactly when it asks for no revision, which is exactly when it
    lists no fail item; there is one request per fail item, plus one
    for the auth rule, which asks for two; there are at most eight of
    them, and each names the system, data, ui, api, prompts or strategy
    stage. *)
Theorem checklist_verdict_matches_requests (phases : list PlanningPhase)
  (r : ChecklistResult) :
  runQualityChecklist phases = Ok r ->
  List.map check (items r) = check_titles
  /\ (status r = pass <-> targetedRevisions r = [])
  /\ (status r = pass <-> failItems r = [])
  /\ (List.length (failItems r) <= List.length (targetedRevisions r)
      <= List.length (failItems r) + 1)%nat
  /\ (List.length (targetedRevisions r) <= 8)%nat
  /\ Forall (fun rev => In (phase rev) revisable) (targetedRevisions r).
Proof.
  intros H. apply checklist_form in H.
  assert (Hnil : targetedRevisions r = [] <-> List.map phase (targetedRevisions r) = []).
  { destruct (targetedRevisions r); split; intros; [reflexivity|reflexivity|discriminate|discriminate]. }
  rewrite Hnil. rewrite <- (length_map phase (targetedRevisions r)).
  rewrite <- (Forall_map phase (fun x => In x revisable)).
  destruct H as (b1 & b2 & b3 & b4 & b5 & b7 & b8 & Hi & Hs & Hf & Hr).
  rewrite Hs, Hr, Hf. split; [exact Hi|].
  destruct b1, b2, b3, b4, b5, b7, b8; cbn [List.app List.length];
    (split; [split; intros; (reflexivity || discriminate)|]);
    (split; [split; intros; (reflexivity || discriminate)|]);
    (split; [lia|]); (split; [lia|]);
    repeat (constructor; [cbv; auto 10|]); constructor.
Qed.

Lemma checklist_verdict_matches_requests_witness :
  exists r,
    runQualityChecklist [] = Ok r
    /\ status r = fail
    /\ List.map phase (targetedRevisions r)
       = [str "ui"; str "api"; str "system"; str "system"; str "prompts"]
    /\ Forall (fun rev => In (phase rev) revisable) (targetedRevisions r).
Proof.
  eexists. split; [vm_compute; reflexivity|].
  split; [reflexivity|]. split; [reflexivity|].
  match goal with
  | |- Forall _ (targetedRevisions ?r) =>
      exact (proj2 (proj2 (proj2 (proj2 (proj2
               (checklist_verdict_matches_requests [] r eq_refl))))))
  end.
Defined.

Section WithParameters.

Variable schema_of : jsstring -> Schema.
Variable projectId : nat.
Variable provider : AIProvider.

(** The stages a list of revision requests leads to run. *)
Lemma applyRevisions_invoked project revs cps w :
  exists done rest,
    flat_map (fun rev => stage_of (byType schema_of (toLowerCase (phase rev)))) revs
    = done ++ rest
    /\ invoked (snd (applyRevisions schema_of projectId provider project revs cps w))
       = invoked w ++ done
    /\ match fst (applyRevisions schema_of projectId provider project revs cps w) with
       | Ok _ => rest = []
       | Throw _ => True
       end.
Proof.
  revert cps w. induction revs as [|rev revs IH]; intros cps w.
  - exists [], []. cbn. rewrite app_nil_r. auto.
  - assert (E : applyRevisions schema_of projectId provider project (rev :: revs) cps w =
                match rerun projectId provider (byType schema_of (toLowerCase (phase rev)))
                        project cps w with
                | (Ok cps1, w1) =>
                    applyRevisions schema_of projectId provider project revs cps1 w1
                | (Throw e, w1) => (Throw e, w1)
                end).
    { cbn [applyRevisions]. unfold bind at 1. reflexivity. }
    rewrite E. cbn [flat_map].
    pose proof (rerun_invoked projectId provider
                  (byType schema_of (toLowerCase (phase rev))) project cps w) as Hi.
    destruct (rerun projectId provider _ project cps w) as [[cps1|e] w1]; cbn [fst snd] in *.
    + destruct (IH cps1 w1) as (done & rest & Ht & Hd & Hok).
      eexists (_ ++ done), rest. split; [|split; [|exact Hok]].
      * rewrite Ht, app_assoc. reflexivity.
      * rewrite Hd, Hi, <- app_assoc. reflexivity.
    + eexists _, _. split; [reflexivity|]. split; [exact Hi | exact I].
Qed.

Lemma revisable_is_stage (t : jsstring) :
  In t revisable -> stage_of (byType schema_of (toLowerCase t)) = [t].
Proof.
  intros H. cbv [revisable In] in H.
  repeat (destruct H as [<-|H]; [reflexivity|]). destruct H.
Qed.

Lemma revisions_are_stages (revs : list Revision) :
  Forall (fun rev => In (phase rev) revisable) revs ->
  flat_map (fun rev => stage_of (byType schema_of (toLowerCase (phase rev)))) revs
  = List.map phase revs.
Proof.
  induction 1 as [|rev revs Hrev _ IH]; [reflexivity|].
  cbn [flat_map List.map]. rewrite IH, (revisable_is_stage _ Hrev). reflexivity.
Qed.

End WithParameters.

(** X13. Every revision the checklist requests is honoured, in order
    and as often as requested: the stages [applyQualityChecklist] runs
    again are those named by the requests, one run per request (the
    system stage up to three times), all of them when it returns and an
    initial part of them when a re-run fails; with a verdict of [pass]
    it runs nothing. *)
Theorem checklist_revisions_are_rerun (schema_of : jsstring -> Schema) (projectId : nat)
  (provider : AIProvider) (project : Project) (cps : list PlanningPhase) (w : World)
  (r : ChecklistResult) :
  runQualityChecklist cps = Ok r ->
  exists done rest,
    List.map phase (targetedRevisions r) = done ++ rest
    /\ invoked (snd (applyQualityChecklist schema_of projectId provider project cps w))
       = invoked w ++ done
    /\ match fst (applyQualityChecklist schema_of projectId provider project cps w) with
       | Ok _ => rest = []
       | Throw _ => True
       end.
Proof.
  intros H.
  destruct (checklist_verdict_matches_requests cps r H) as (_ & Hp & _ & _ & _ & Hst).
  unfold applyQualityChecklist, bind, lift. rewrite H.
  destruct (status r) eqn:Es.
  - exists [], []. rewrite (proj1 Hp eq_refl). unfold ret. cbn [fst snd List.map].
    split; [reflexivity|]. split; [now rewrite app_nil_r | reflexivity].
  - rewrite <- (revisions_are_stages schema_of _ Hst).
    apply applyRevisions_invoked.
Qed.

Lemma checklist_revisions_are_rerun_witness :
  invoked (snd (applyQualityChecklist Worlds.accept_all 0 openai Worlds.draft_project []
                  (Worlds.initial Worlds.draft_project
                     (Worlds.scripted (repeat (str "{}") 5)) (fun _ => 0%N))))
  = [str "ui"; str "api"; str "system"; str "system"; str "prompts"].
Proof.
  match goal with
  | |- invoked (snd (applyQualityChecklist ?s ?i ?p ?pr ?c ?w)) = _ =>
      destruct (checklist_revisions_are_rerun s i p pr c w _ eq_refl)
        as (done & rest & Hsplit & Hinv & Hok)
  end.
  rewrite Hinv.
  assert (Hrest : rest = []) by exact Hok.
  subst rest. rewrite (app_nil_r done) in Hsplit. rewrite <- Hsplit. reflexivity.
Defined.

End ChecklistTheoremsMore.
Module BlankOutputs.
Import QualityChecklist ChecklistRules.

Lemma byType_blank (phases : list PlanningPhase) (t : jsstring) :
  forallb (fun p => blank (output p)) phases = true ->
  byType phases t = VUndef \/ byType phases t = VObj [].
Proof.
  induction phases as [|p rest IH]; [now left|].
  cbn [forallb byType]. intros H. apply andb_true_iff in H as [Hp Hrest].
  destruct (IH Hrest) as [-> | ->]; [|now right].
  destruct (JsString.eqb (phase_type p) t); [|now left].
  right. unfold js_or. destruct (output p) as [| |b|q|s|l|props]; cbn in Hp |- *;
    try reflexivity; try discriminate.
  - destruct b; [discriminate | reflexivity].
  - apply negb_true_iff in Hp. now rewrite Hp.
  - destruct s; [reflexivity | discriminate].
  - destruct props; [reflexivity | discriminate].
Qed.

Lemma byType_blank_or (phases : list PlanningPhase) (t : jsstring) :
  forallb (fun p => blank (output p)) phases = true ->
  js_or (byType phases t) (VObj []) = VObj [].
Proof. intros H. destruct (byType_blank phases t H) as [-> | ->]; reflexivity. Qed.

Lemma allDecisions_blank (phases : list PlanningPhase) :
  forallb (fun p => blank (output p)) phases = true -> allDecisions phases = [].
Proof.
  induction phases as [|p rest IH]; [reflexivity|].
  cbn [forallb allDecisions]. intros H. apply andb_true_iff in H as [Hp Hrest].
  rewrite (IH Hrest), app_nil_r.
  destruct (output p) as [| |b|q|s|l|props]; try reflexivity; try discriminate.
  destruct props; [reflexivity | discriminate].
Qed.

(** X14. Outputs that say nothing fail five rules. When every output
    is absent, [null] or the empty object ([runQualityChecklist] of no
    result at all included), the checklist returns [fail] with the fail
    items of the design-token, API, non-functional, provider and prompt
    rules, and asks to re-run ui, api, system twice and prompts; the
    auth rule, the ledger rule and the competitor rule pass. *)
Theorem blank_outputs_fail_five_rules (phases : list PlanningPhase) :
  forallb (fun p => blank (output p)) phases = true ->
  exists r,
    runQualityChecklist phases = Ok r
    /\ status r = fail
    /\ failItems r =
       [ str "Missing motion or skeleton patterns in design system";
         str "Missing pagination or error model in API spec";
         str "Missing non-functional requirements";
         str "Missing provider policies";
         str "Missing required prompts" ]
    /\ List.map phase (targetedRevisions r)
       = [str "ui"; str "api"; str "system"; str "system"; str "prompts"]
    /\ List.map (fun i => truthy (passed i)) (items r)
       = [true; false; false; false; false; true; false; true].
Proof.
  intros H. unfold runQualityChecklist.
  rewrite !(byType_blank_or phases _ H), (allDecisions_blank phases H).
  eexists. split; [vm_compute; reflexivity|].
  repeat split.
Qed.

Lemma blank_outputs_fail_five_rules_witness :
  exists r,
    runQualityChecklist [Build.completed_row 0 "ui" (VObj []); Build.completed_row 1 "api" VNull]
    = Ok r
    /\ List.length (failItems r) = 5%nat.
Proof.
  destruct (blank_outputs_fail_five_rules
              [Build.completed_row 0 "ui" (VObj []); Build.completed_row 1 "api" VNull]
              eq_refl) as (r & Hr & _ & Hf & _).
  exists r. split; [exact Hr|]. rewrite Hf. reflexivity.
Defined.

End BlankOutputs.

(** ** The catalogue and the context of a stage *)

Module CatalogueTheorems.
Import Orchestrator Observations RunReports.

Lemma lookup_stage_sound (phases : list AgentPhase) (t : jsstring) (ap : AgentPhase) :
  lookup_stage phases t = Some ap -> In ap phases /\ type ap = t.
Proof.
  induction phases as [|p rest IH]; cbn [lookup_stage]; [discriminate|].
  destruct (lookup_stage rest t) as [x|].
  - intros H. destruct (IH H) as [Hin Ht]. split; [now right | exact Ht].
  - destruct (JsString.eqb (type p) t) eqn:E; [|discriminate].
    intros H; injection H as <-. apply JsStringFacts.eqb_eq in E. split; [now left | exact E].
Qed.

(** X15. Looking a stage up by its type finds it: [byType] maps the
    type of each of the twelve stages of the catalogue to that stage,
    whatever the case it is written in at the call sites (which
    lower-case it), and maps to a stage no name that is not the type of
    a stage of the catalogue. *)
Theorem byType_finds_every_stage (schema_of : jsstring -> Schema) :
  (forall ap, In ap (AGENT_PHASES schema_of) ->
     byType schema_of (type ap) = Stage ap
     /\ toLowerCase (type ap) = type ap)
  /\ (forall t ap, byType schema_of t = Stage ap ->
        In ap (AGENT_PHASES schema_of) /\ type ap = t)
  /\ List.length (AGENT_PHASES schema_of) = 12%nat.
Proof.
  split; [|split; [|reflexivity]].
  - intros ap H. cbv [AGENT_PHASES List.map In fst snd] in H.
    repeat (destruct H as [<-|H]; [split; reflexivity|]). destruct H.
  - intros t ap. unfold byType.
    destruct (lookup_stage (AGENT_PHASES schema_of) t) as [x|] eqn:E.
    + intros H; injection H as <-. now apply lookup_stage_sound.
    + destruct (inherited_name t); discriminate.
Qed.

Lemma own_absent (props : list (jsstring * value)) (t : jsstring) :
  ~ In t (List.map fst props) -> own props t = None.
Proof.
  induction props as [|[k v] rest IH]; [reflexivity|].
  cbn [List.map fst In own]. intros H.
  rewrite IH by tauto.
  destruct (JsString.eqb k t) eqn:E; [|reflexivity].
  apply JsStringFacts.eqb_eq in E. tauto.
Qed.

Lemma set_property_keys (props : list (jsstring * value)) (k : jsstring) (v : value) :
  forall x, In x (List.map fst (set_property props k v)) ->
            x = k \/ In x (List.map fst props).
Proof.
  induction props as [|[k' v'] rest IH]; cbn [set_property List.map fst In].
  - intros x [H|[]]; auto.
  - destruct (JsString.eqb k' k); cbn [List.map fst In]; intros x [H|H]; auto.
    destruct (IH x H); auto.
Qed.

Lemma set_property_NoDup (props : list (jsstring * value)) (k : jsstring) (v : value) :
  NoDup (List.map fst props) -> NoDup (List.map fst (set_property props k v)).
Proof.
  induction props as [|[k' v'] rest IH]; cbn [set_property List.map fst]; intros H.
  - constructor; [intros [] | constructor].
  - inversion H as [|x xs Hx Hxs]; subst.
    destruct (JsString.eqb k' k) eqn:E; cbn [List.map fst].
    + now constructor.
    + constructor; [|now apply IH].
      intros Hin. apply set_property_keys in Hin as [Hin|Hin]; [|contradiction].
      apply JsStringFacts.eqb_neq in E. congruence.
Qed.

Lemma own_set_property (props : list (jsstring * value)) (k t : jsstring) (v : value) :
  NoDup (List.map fst props) ->
  own (set_property props k v) t = if JsString.eqb k t then Some v else own props t.
Proof.
  induction props as [|[k' v'] rest IH]; cbn [set_property List.map fst]; intros H.
  - cbn [own]. destruct (JsString.eqb k t); reflexivity.
  - inversion H as [|x xs Hx Hxs]; subst.
    destruct (JsString.eqb k' k) eqn:E.
    + apply JsStringFacts.eqb_eq in E. subst k'. cbn [own].
      destruct (JsString.eqb k t) eqn:Et.
      * apply JsStringFacts.eqb_eq in Et. subst t. now rewrite (own_absent rest k Hx).
      * reflexivity.
    + cbn [own]. rewrite (IH Hxs).
      destruct (JsString.eqb k t) eqn:Et; [reflexivity|]. reflexivity.
Qed.

Lemma buildPriorArtifacts_snoc (phases : list PlanningPhase) (p : PlanningPhase) :
  buildPriorArtifacts (phases ++ [p])
  = set_property (buildPriorArtifacts phases) (phase_type p) (output p).
Proof. unfold buildPriorArtifacts. now rewrite fold_left_app. Qed.

Lemma buildPriorArtifacts_NoDup (phases : list PlanningPhase) :
  NoDup (List.map fst (buildPriorArtifacts phases)).
Proof.
  induction phases as [|p phases IH] using rev_ind; [constructor|].
  rewrite buildPriorArtifacts_snoc. now apply set_property_NoDup.
Qed.

(** X16. The prior artifacts given to a stage hold, for each stage
    type, the output of the latest of the earlier results of that type,
    under one key per type; a type with no result has no key. (No
    result is typed [__proto__], the one key an object literal does not
    store as a property.) *)
Theorem prior_artifacts_hold_latest_outputs (previousPhases : list PlanningPhase)
  (t : jsstring) :
  Forall (fun p => phase_type p <> str "__proto__") previousPhases ->
  own (buildPriorArtifacts previousPhases) t = last_output t previousPhases
  /\ NoDup (List.map fst (buildPriorArtifacts previousPhases)).
Proof.
  intros _. split; [|apply buildPriorArtifacts_NoDup].
  unfold last_output.
  induction previousPhases as [|p phases IH] using rev_ind; [reflexivity|].
  rewrite buildPriorArtifacts_snoc, rev_app_distr.
  rewrite own_set_property by apply buildPriorArtifacts_NoDup.
  cbn [rev List.app List.find].
  destruct (JsString.eqb (phase_type p) t); [reflexivity | exact IH].
Qed.

Lemma prior_artifacts_hold_latest_outputs_witness :
  own (buildPriorArtifacts [LedgerRun.system_first; LedgerRun.data_later;
                            Build.completed_row 3 "system" (VObj [])]) (str "system")
  = Some (VObj []).
Proof.
  rewrite (proj1 (prior_artifacts_hold_latest_outputs
                    [LedgerRun.system_first; LedgerRun.data_later;
                     Build.completed_row 3 "system" (VObj [])] (str "system")
                    ltac:(repeat constructor; discriminate))).
  reflexivity.
Defined.

End CatalogueTheorems.
